(** * Gracy Boys quotation app: the pricing engine, the draft editor,
      the dashboard aggregator and the JSON-file REST store

    The development follows the two programs of the repository:
    - [src/index.js], the React application (line items, derived totals,
      quotation numbering, editor handlers, dashboard statistics, save);
    - [src/server.js], the Express server keeping quotations in [db.json].

    JavaScript numbers are IEEE 754 binary64 values and are modelled by Rocq's
    primitive floats, whose operations are the same binary64 operations.
    The numbers of the quotation numbering, which are non-negative integers
    or [+Infinity], are modelled by the integer they hold, with the rounding
    to binary64 written out. Time values and calendar years, which are
    integers far below [2^53], are modelled by [Z] and [N]. Objects of the
    application are records; the JSON records of the server are finite maps
    from property names to values. *)

From Stdlib Require Import Floats ZArith Uint63 Ascii String List Sorted Permutation Lia.
From stdpp Require Import base option list strings pretty gmap.

Set Warnings "-inexact-float,-register-all".

(** ** ECMAScript builtins used by the sources *)

Module JS.

(** *** Numbers *)

(** [x || 0], [x ? a : b], [!x]: a number is falsy when it is NaN, [+0] or
    [-0]. An absent numeric property ([undefined]) behaves like NaN in every
    arithmetic context of the sources ([undefined || 0] is [0],
    [undefined / 100] and [undefined * x] are NaN), so numeric properties
    are floats and NaN also stands for an absent one. *)
Definition truthy (x : float) : bool := negb (PrimFloat.is_nan x || PrimFloat.is_zero x).

Definition or_zero (x : float) : float := if truthy x then x else 0%float.

Definition isNaN (x : float) : bool := PrimFloat.is_nan x.

(** [Math.max(a, b)]: NaN if either argument is NaN; [+0] is larger than
    [-0]. *)
Definition Math_max (a b : float) : float :=
  if PrimFloat.is_nan a || PrimFloat.is_nan b then nan
  else if (a <? b)%float then b
  else if (b <? a)%float then a
  else match classify a with NZero => b | _ => a end.

(** [x.toFixed(2)] writes the decimal [n / 100], where [n] is the integer
    for which [n / 100 - x] is closest to zero (the larger [n] on a tie),
    computed on the exact value [m * 2^e] of the float. [round_cents m e]
    is that [n] for a positive [x = m * 2^e]. *)
Definition round_cents (m : positive) (e : Z) : Z :=
  if (0 <=? e)%Z then (Z.pos m * 2 ^ e * 100)%Z
  else ((200 * Z.pos m + 2 ^ (- e)) / 2 ^ (1 - e))%Z.

(** [parseFloat(x.toFixed(2))]. NaN and the infinities are written as
    ["NaN"] and ["Infinity"] and read back as themselves. A zero of either
    sign is written ["0.00"]. Below [2^46] the integer [n] is smaller than
    [2^53], so it is a float and the correctly rounded quotient [n / 100]
    is the float nearest to the decimal written, which is what
    [parseFloat] returns; a negative [x] is written with a leading minus
    sign. From [2^46] on, neighbouring floats are at least [2^-6] apart
    while the decimal written differs from [x] by at most [0.005]
    (and from [1e21] on [toFixed] writes [x] itself), so the string reads
    back as [x]. *)
Definition toFixed2 (x : float) : float :=
  match Prim2SF x with
  | S754_nan => nan
  | S754_infinity _ => x
  | S754_zero _ => 0%float
  | S754_finite s m e =>
      if (70368744177664 <=? PrimFloat.abs x)%float then x
      else
        let r := (of_uint63 (Uint63.of_Z (round_cents m e)) / 100)%float in
        if s then (- r)%float else r
  end.

(** A float, as its specification value, that is [+0], positive or
    [+infinity]. *)
Definition nonneg_sf (x : spec_float) : Prop :=
  match x with
  | S754_zero false | S754_infinity false | S754_finite false _ _ => True
  | _ => False
  end.

(** *** Strings

    A string is the sequence of its characters, text outside ASCII being
    held as the bytes of its UTF-8 encoding, where a search for a substring
    finds what the search on the code units of well-formed text finds. The
    sources compare, search and concatenate strings; the one operation that
    depends on the alphabet, [toLowerCase], belongs to the environment of
    the application. *)

(** [s.includes(t)]: [t] occurs in [s] as a contiguous substring. *)
Fixpoint includes (s t : string) : bool :=
  String.prefix t s ||
  match s with
  | EmptyString => false
  | String _ s' => includes s' t
  end.

Definition is_digit (c : ascii) : bool :=
  let n := nat_of_ascii c in (48 <=? n)%nat && (n <=? 57)%nat.

Fixpoint take_digits (s : string) : string :=
  match s with
  | String c s' => if is_digit c then String c (take_digits s') else EmptyString
  | EmptyString => EmptyString
  end.

(** [s.match(/(\d+)$/)]: capture group 1 is the maximal run of decimal
    digits that ends the string; there is no match ([null]) when the string
    does not end in a digit. *)
Definition match_trailing_digits (s : string) : option string :=
  match String.rev (take_digits (String.rev s)) with
  | EmptyString => None
  | run => Some run
  end.

Definition digit_value (c : ascii) : N := N.of_nat (nat_of_ascii c - 48).

Fixpoint parseInt_go (acc : N) (s : string) : N :=
  match s with
  | EmptyString => acc
  | String c s' => parseInt_go (10 * acc + digit_value c) s'
  end.

(** The integer that a string of decimal digits denotes. *)
Definition decimal_value (s : string) : N := parseInt_go 0 s.

(** *** Whole numbers in binary64

    The numbers of the quotation numbering are non-negative integers, held
    as binary64 values, or [+Infinity]. A [Whole n] stands for the number
    whose value is the integer [n]. *)
Inductive whole := Whole (n : N) | Infinite.

(** The number for the integer [n]: [n] itself when it has at most 53
    significant bits (every integer up to [2^53] has), otherwise [n]
    rounded to 53 significant bits, to the nearest and on a tie to the even
    one; [+Infinity] when that reaches [2^1024]. *)
Definition binary64 (n : N) : whole :=
  let k := (N.size n - 53)%N in
  let q := N.shiftr n k in
  let r := (n - N.shiftl q k)%N in
  let half := N.shiftl 1 (k - 1) in
  let q' :=
    if (k =? 0)%N then q
    else if (half <? r)%N || ((r =? half)%N && N.odd q) then (q + 1)%N else q in
  let v := N.shiftl q' k in
  if (2 ^ 1024 <=? v)%N then Infinite else Whole v.

(** [parseInt(s, 10)] on a non-empty string of decimal digits: the number
    for the integer written. (ECMAScript lets an implementation read the
    digits after the twentieth as zeros.) *)
Definition parseInt (s : string) : whole := binary64 (decimal_value s).

(** [Math.max(a, b)] on whole numbers *)
Definition Math_max_whole (a b : whole) : whole :=
  match a, b with
  | Whole x, Whole y => Whole (N.max x y)
  | _, _ => Infinite
  end.

(** [x + 1]: the exact sum, rounded *)
Definition add_one (x : whole) : whole :=
  match x with
  | Whole n => binary64 (n + 1)
  | Infinite => Infinite
  end.

(** [String(n)] for an integer up to [2^53]: its decimal digits. *)
Definition String_ (n : N) : string := pretty n.

Fixpoint zeros (k : nat) : string :=
  match k with
  | O => EmptyString
  | S k' => String "0" (zeros k')
  end.

(** [s.padStart(len, '0')] *)
Definition padStart (len : nat) (s : string) : string :=
  zeros (len - String.length s) +:+ s.

(** The integer [v] reads back as the number [x]. *)
Definition reads_back (x v : N) : bool :=
  match binary64 v with
  | Whole y => (y =? x)%N
  | Infinite => false
  end.

(** The decimals with [k] significant digits next to [x], which has [d]
    digits: [lo * 10^(d-k)] below and the next one above. The result is the
    digits [s] and the position [n] of the decimal point of the one that
    reads back as [x], the closer one if both do, the one with the even [s]
    on a tie. *)
Definition candidate (x : N) (d k : nat) : option (N * nat) :=
  let scale := (10 ^ N.of_nat (d - k))%N in
  let lo := (x / scale)%N in
  let vlo := (lo * scale)%N in
  let vhi := (vlo + scale)%N in
  let hi :=
    if (lo + 1 =? 10 ^ N.of_nat k)%N then ((10 ^ N.of_nat (k - 1))%N, S d)
    else ((lo + 1)%N, d) in
  match reads_back x vlo, reads_back x vhi with
  | true, true =>
      if (x - vlo <? vhi - x)%N then Some (lo, d)
      else if (vhi - x <? x - vlo)%N then Some hi
      else if N.even lo then Some (lo, d) else Some hi
  | true, false => Some (lo, d)
  | false, true => Some hi
  | false, false => None
  end.

(** The least number [k] of digits for which a decimal reads back as [x],
    with the digits and the position of the point. *)
Fixpoint shortest (x : N) (d k fuel : nat) : option (N * nat * nat) :=
  match fuel with
  | O => None
  | S fuel' =>
      match candidate x d k with
      | Some (s, n) => Some (s, k, n)
      | None => shortest x d (S k) fuel'
      end
  end.

(** [String(x)] for a whole number. Up to [2^53] every integer is a number
    of its own, and the digits written are those of the integer. Beyond, the
    digits are those of the shortest decimal that reads back as [x],
    followed by zeros up to 21 digits and in exponent notation from there
    on. *)
Definition Number_toString (x : whole) : string :=
  match x with
  | Infinite => "Infinity"
  | Whole x =>
      if (x <=? 2 ^ 53)%N then String_ x
      else
        let d := String.length (pretty x) in
        match shortest x d 1 d with
        | Some (s, k, n) =>
            if (n <=? 21)%nat then pretty s +:+ zeros (n - k)
            else
              match pretty s with
              | String c rest =>
                  String c (match rest with
                            | EmptyString => EmptyString
                            | _ => "." +:+ rest
                            end)
                  +:+ "e+" +:+ pretty (N.of_nat (n - 1))
              | EmptyString => EmptyString
              end
        | None => EmptyString
        end
  end.

(** *** Arrays *)

Fixpoint sort_insert {A} (cmp : A -> A -> Z) (x : A) (l : list A) : list A :=
  match l with
  | [] => [x]
  | y :: l' => if (cmp x y <=? 0)%Z then x :: l else y :: sort_insert cmp x l'
  end.

(** [l.sort(comparefn)]. The comparator's result is a number, NaN being
    [None]; the sort reads NaN as [+0], places [a] before [b] when the result
    is negative and is stable. ECMAScript fixes the outcome only for a
    consistent comparator, where every stable sorting algorithm returns the
    same array; this one is an insertion sort. *)
Definition Array_sort {A} (comparefn : A -> A -> option Z) (l : list A) : list A :=
  fold_right (sort_insert (fun a b => default 0%Z (comparefn a b))) [] l.

End JS.

(** ** The React application, [src/index.js] *)

Module App.
Import JS.

(** A [Date] object: its time value in milliseconds since the epoch, or
    NaN ([None]) for an Invalid Date. *)
Record Date := mkDate { getTime : option Z }.

Module LineItem.
Record t := mk {
  id : string;
  requirement : string;
  qty : float;
  unitPrice : float;
  remark : string;
  amount : float
}.
End LineItem.
Abbreviation LineItem := LineItem.t.

(** A quotation object. The properties that the sources read through [?.],
    or guard against being absent, are optional. *)
Module Quotation.
Record t := mk {
  id : string;
  clientName : option string;
  companyName : string;
  address : string;
  contactNumber : string;
  quotationNumber : option string;
  dateIssued : string;
  validUntil : string;
  items : list LineItem;
  taxRate : float;
  discount : float;
  status : string;
  terms : string;
  notes : string;
  createdAt : option Date;
  updatedAt : option Date;
  subtotal : option float;
  taxAmount : option float;
  grandTotal : option float
}.
End Quotation.
Abbreviation Quotation := Quotation.t.

(** The object returned by [useQuotationCalculations]. *)
Module Totals.
Record t := mk { subtotal : float; taxAmount : float; grandTotal : float }.
End Totals.
Abbreviation Totals := Totals.t.

(** The [stats] object of the dashboard. *)
Module Stats.
Record t := mk { total : nat; pending : nat; accepted : nat; revenue : float }.
End Stats.
Abbreviation Stats := Stats.t.

(** The application state that saving touches: whether [db] and [userId]
    are set, the user's Firestore collection of quotation documents (by
    document id) and the quotation held by the editor. *)
Record AppState := mkAppState {
  ready : bool;
  documents : gmap string Quotation;
  currentQuotation : option Quotation
}.

(** What React is doing when a function of the application runs: rendering
    a component, or running an event callback. *)
Inductive Phase := Rendering | Handling.

(** A call of a hook ([useMemo], or a function built on it): React runs it
    while a component renders and throws on a call made at any other time
    ([None]). *)
Definition hook_call {A} (phase : Phase) (value : A) : option A :=
  match phase with
  | Rendering => Some value
  | Handling => None
  end.

(** [{ ...q, items: l }] *)
Definition with_items (q : Quotation) (l : list LineItem) : Quotation :=
  Quotation.mk (Quotation.id q) (Quotation.clientName q)
    (Quotation.companyName q) (Quotation.address q)
    (Quotation.contactNumber q) (Quotation.quotationNumber q)
    (Quotation.dateIssued q) (Quotation.validUntil q) l
    (Quotation.taxRate q) (Quotation.discount q) (Quotation.status q)
    (Quotation.terms q) (Quotation.notes q) (Quotation.createdAt q)
    (Quotation.updatedAt q) (Quotation.subtotal q) (Quotation.taxAmount q)
    (Quotation.grandTotal q).

(** [{ ...q, ...calculatedTotals }] *)
Definition with_totals (q : Quotation) (c : Totals) : Quotation :=
  Quotation.mk (Quotation.id q) (Quotation.clientName q)
    (Quotation.companyName q) (Quotation.address q)
    (Quotation.contactNumber q) (Quotation.quotationNumber q)
    (Quotation.dateIssued q) (Quotation.validUntil q) (Quotation.items q)
    (Quotation.taxRate q) (Quotation.discount q) (Quotation.status q)
    (Quotation.terms q) (Quotation.notes q) (Quotation.createdAt q)
    (Quotation.updatedAt q)
    (Some (Totals.subtotal c)) (Some (Totals.taxAmount c))
    (Some (Totals.grandTotal c)).

(** *** Identifiers drawn from [crypto.randomUUID()]

    The generator is a stream [uuid 0, uuid 1, ...] of the environment; a
    computation that draws identifiers threads the number of identifiers
    drawn so far. *)
Definition Gen (A : Type) : Type := nat -> A * nat.

Definition gen_ret {A} (a : A) : Gen A := fun n => (a, n).

Definition gen_bind {A B} (m : Gen A) (k : A -> Gen B) : Gen B :=
  fun n => let (a, n') := m n in k a n'.

Notation "x <~ m ;; k" := (gen_bind m (fun x => k))
  (at level 100, m at next level, k at level 200, right associativity).

Section Environment.
(** The environment: the UUID stream, the formatting done by
    [toLocaleDateString('en-GB')], the calendar year ([getFullYear]) of a
    time value, and the builtins [parseFloat] and
    [String.prototype.toLowerCase]. *)
Variable uuid : nat -> string.
Variable toLocaleDateString : Z -> string.
Variable getFullYear : Z -> N.
Variable parseFloat : string -> float.
Variable toLowerCase : string -> string.

(** *** Constructors of the document model *)

Definition randomUUID : Gen string := fun n => (uuid n, S n).

(** [formatDate(new Date(t))] *)
Definition formatDate (t : Z) : string := toLocaleDateString t.

Definition getDefaultItem : Gen LineItem :=
  i <~ randomUUID ;;
  gen_ret {|
    LineItem.id := i;
    LineItem.requirement := "";
    LineItem.qty := 1;
    LineItem.unitPrice := 0;
    LineItem.remark := "";
    LineItem.amount := 0
  |}.

(** [getNewQuotation(count)]; [now] is the clock reading of the call. *)
Definition getNewQuotation (now : Z) (count : whole) : Gen Quotation :=
  i <~ randomUUID ;;
  item <~ getDefaultItem ;;
  gen_ret {|
    Quotation.id := i;
    Quotation.clientName := Some "New Client";
    Quotation.companyName := "";
    Quotation.address := "";
    Quotation.contactNumber := "";
    Quotation.quotationNumber :=
      Some ("QT-" +:+ String_ (getFullYear now) +:+ "-"
            +:+ padStart 4 (Number_toString (add_one count)));
    Quotation.dateIssued := formatDate now;
    Quotation.validUntil := formatDate (now + 30 * 24 * 60 * 60 * 1000);
    Quotation.items := [item];
    Quotation.taxRate := 18;
    Quotation.discount := 0;
    Quotation.status := "Draft";
    Quotation.terms := "Payment due within 30 days. 50% advance required.";
    Quotation.notes := "Additional notes or special instructions for the event.";
    Quotation.createdAt := Some (mkDate (Some now));
    Quotation.updatedAt := None;
    Quotation.subtotal := Some 0%float;
    Quotation.taxAmount := None;
    Quotation.grandTotal := Some 0%float
  |}.

(** [handleNewQuotation]: the quotation handed to the editor. *)
Definition handleNewQuotation (now : Z) (quotations : list Quotation) : Gen Quotation :=
  let maxNum :=
    fold_left
      (fun max q =>
         match Quotation.quotationNumber q ≫= match_trailing_digits with
         | Some digits => Math_max_whole max (parseInt digits)
         | None => max
         end)
      quotations (Whole 0) in
  getNewQuotation now maxNum.

(** *** Derived totals *)

(** The hook wraps the computation in [useMemo] keyed on [items], [taxRate]
    and [discount], the only properties it reads; its value is the value of
    the memoised function. *)
Definition useQuotationCalculations (quotation : Quotation) : Totals :=
  let subtotal :=
    fold_left
      (fun sum item =>
         let amount := (or_zero (LineItem.qty item)
                        * or_zero (LineItem.unitPrice item))%float in
         (sum + amount)%float)
      (Quotation.items quotation) 0%float in
  let taxAmount := (subtotal * (Quotation.taxRate quotation / 100))%float in
  let totalBeforeDiscount := (subtotal + taxAmount)%float in
  let grandTotal :=
    (totalBeforeDiscount - or_zero (Quotation.discount quotation))%float in
  {| Totals.subtotal := toFixed2 subtotal;
     Totals.taxAmount := toFixed2 taxAmount;
     Totals.grandTotal := toFixed2 (Math_max 0 grandTotal) |}.

(** *** The quotation editor

    The editor holds one quotation; every handler maps the previous
    quotation to the next one. *)

(** The [name] attributes of the header inputs. The inputs named [taxRate]
    and [discount] are the ones of [type="number"]. *)
Inductive TextField :=
  | F_clientName | F_companyName | F_address | F_contactNumber
  | F_quotationNumber | F_validUntil | F_status | F_terms | F_notes.

Inductive NumberField := F_taxRate | F_discount.

(** [e.target] of a change event on a header input. *)
Inductive InputEvent :=
  | TextInput (name : TextField) (value : string)
  | NumberInput (name : NumberField) (value : string).

(** [{ ...prev, [name]: value }] for a text property *)
Definition set_text (prev : Quotation) (name : TextField) (value : string) : Quotation :=
  Quotation.mk (Quotation.id prev)
    (match name with F_clientName => Some value | _ => Quotation.clientName prev end)
    (match name with F_companyName => value | _ => Quotation.companyName prev end)
    (match name with F_address => value | _ => Quotation.address prev end)
    (match name with F_contactNumber => value | _ => Quotation.contactNumber prev end)
    (match name with
     | F_quotationNumber => Some value
     | _ => Quotation.quotationNumber prev
     end)
    (Quotation.dateIssued prev)
    (match name with F_validUntil => value | _ => Quotation.validUntil prev end)
    (Quotation.items prev) (Quotation.taxRate prev) (Quotation.discount prev)
    (match name with F_status => value | _ => Quotation.status prev end)
    (match name with F_terms => value | _ => Quotation.terms prev end)
    (match name with F_notes => value | _ => Quotation.notes prev end)
    (Quotation.createdAt prev) (Quotation.updatedAt prev)
    (Quotation.subtotal prev) (Quotation.taxAmount prev)
    (Quotation.grandTotal prev).

(** [{ ...prev, [name]: value }] for a numeric property *)
Definition set_number (prev : Quotation) (name : NumberField) (value : float) : Quotation :=
  Quotation.mk (Quotation.id prev) (Quotation.clientName prev)
    (Quotation.companyName prev) (Quotation.address prev)
    (Quotation.contactNumber prev) (Quotation.quotationNumber prev)
    (Quotation.dateIssued prev) (Quotation.validUntil prev)
    (Quotation.items prev)
    (match name with F_taxRate => value | _ => Quotation.taxRate prev end)
    (match name with F_discount => value | _ => Quotation.discount prev end)
    (Quotation.status prev) (Quotation.terms prev) (Quotation.notes prev)
    (Quotation.createdAt prev) (Quotation.updatedAt prev)
    (Quotation.subtotal prev) (Quotation.taxAmount prev)
    (Quotation.grandTotal prev).

Definition handleInputChange (e : InputEvent) (prev : Quotation) : Quotation :=
  match e with
  | NumberInput name value =>
      let updatedValue := or_zero (parseFloat value) in
      set_number prev name updatedValue
  | TextInput name value => set_text prev name value
  end.

(** The numeric and the text properties of a line item. The row inputs call
    [handleItemChange] with ['qty'] and ['unitPrice'], and
    [handleTextareaChange] with ['requirement'] and ['remark']; [F_amount] is
    a call of [handleItemChange] that names the amount itself. *)
Inductive ItemNumberField := F_qty | F_unitPrice | F_amount.

Inductive ItemTextField := F_requirement | F_remark.

(** [{ ...item, [field]: numericValue }] *)
Definition set_item_number (item : LineItem) (field : ItemNumberField) (v : float) : LineItem :=
  LineItem.mk (LineItem.id item) (LineItem.requirement item)
    (match field with F_qty => v | _ => LineItem.qty item end)
    (match field with F_unitPrice => v | _ => LineItem.unitPrice item end)
    (LineItem.remark item)
    (match field with F_amount => v | _ => LineItem.amount item end).

(** [{ ...item, [field]: value }] *)
Definition set_item_text (item : LineItem) (field : ItemTextField) (v : string) : LineItem :=
  LineItem.mk (LineItem.id item)
    (match field with F_requirement => v | _ => LineItem.requirement item end)
    (LineItem.qty item) (LineItem.unitPrice item)
    (match field with F_remark => v | _ => LineItem.remark item end)
    (LineItem.amount item).

(** [newItem.amount = a] *)
Definition set_amount (newItem : LineItem) (a : float) : LineItem :=
  LineItem.mk (LineItem.id newItem) (LineItem.requirement newItem)
    (LineItem.qty newItem) (LineItem.unitPrice newItem)
    (LineItem.remark newItem) a.

Definition handleItemChange (itemId : string) (field : ItemNumberField)
    (value : string) (prev : Quotation) : Quotation :=
  let updatedItems :=
    map (fun item =>
           if String.eqb (LineItem.id item) itemId then
             let numericValue := or_zero (parseFloat value) in
             let newItem := set_item_number item field numericValue in
             set_amount newItem
               (toFixed2 (LineItem.qty newItem * LineItem.unitPrice newItem)%float)
           else item)
        (Quotation.items prev) in
  with_items prev updatedItems.

Definition handleTextareaChange (itemId : string) (field : ItemTextField)
    (value : string) (prev : Quotation) : Quotation :=
  with_items prev
    (map (fun item =>
            if String.eqb (LineItem.id item) itemId
            then set_item_text item field value else item)
         (Quotation.items prev)).

Definition handleAddItem (prev : Quotation) : Gen Quotation :=
  item <~ getDefaultItem ;;
  gen_ret (with_items prev (Quotation.items prev ++ [item])).

Definition handleRemoveItem (id : string) (quotation : Quotation) : Quotation :=
  if (1 <? length (Quotation.items quotation))%nat then
    with_items quotation
      (List.filter (fun item => negb (String.eqb (LineItem.id item) id))
         (Quotation.items quotation))
  else quotation.

(** One interaction with the editor: the handler it runs and the arguments
    the handler receives. *)
Inductive EditorAction :=
  | InputChange (e : InputEvent)
  | ItemChange (itemId : string) (field : ItemNumberField) (value : string)
  | TextareaChange (itemId : string) (field : ItemTextField) (value : string)
  | AddItem
  | RemoveItem (id : string).

Definition editor_step (a : EditorAction) (quotation : Quotation) : Gen Quotation :=
  match a with
  | InputChange e => gen_ret (handleInputChange e quotation)
  | ItemChange itemId field value =>
      gen_ret (handleItemChange itemId field value quotation)
  | TextareaChange itemId field value =>
      gen_ret (handleTextareaChange itemId field value quotation)
  | AddItem => handleAddItem quotation
  | RemoveItem id => gen_ret (handleRemoveItem id quotation)
  end.

(** *** The snapshot listener *)

(** A document as the listener hands it to the application: its
    [createdAt] is the Date of the stored timestamp or, when the document
    has none, [new Date()], the time [now] of the snapshot. *)
Definition fetched (now : Z) (data : Quotation) : Quotation :=
  Quotation.mk (Quotation.id data) (Quotation.clientName data)
    (Quotation.companyName data) (Quotation.address data)
    (Quotation.contactNumber data) (Quotation.quotationNumber data)
    (Quotation.dateIssued data) (Quotation.validUntil data)
    (Quotation.items data) (Quotation.taxRate data) (Quotation.discount data)
    (Quotation.status data) (Quotation.terms data) (Quotation.notes data)
    (Some match Quotation.createdAt data with
          | Some d => d
          | None => mkDate (Some now)
          end)
    (Quotation.updatedAt data) (Quotation.subtotal data)
    (Quotation.taxAmount data) (Quotation.grandTotal data).

(** *** The dashboard *)

(** [s?.toLowerCase().includes(lowerCaseSearch)], falsy for an absent [s] *)
Definition lower_includes (s : option string) (lowerCaseSearch : string) : bool :=
  match s with
  | Some s => includes (toLowerCase s) lowerCaseSearch
  | None => false
  end.

(** [b.createdAt?.getTime() - a.createdAt?.getTime()]: NaN as soon as one of
    the two operands is [undefined] or NaN. Time values are integers, and the
    difference is exact as far as its sign goes. *)
Definition compare_createdAt (a b : Quotation) : option Z :=
  match Quotation.createdAt b ≫= getTime, Quotation.createdAt a ≫= getTime with
  | Some tb, Some ta => Some (tb - ta)%Z
  | _, _ => None
  end.

(** The callback of the [filter] in [filteredQuotations] *)
Definition matchesSearch (lowerCaseSearch : string) (q : Quotation) : bool :=
  lower_includes (Quotation.clientName q) lowerCaseSearch
  || lower_includes (Quotation.quotationNumber q) lowerCaseSearch.

Definition filteredQuotations (quotations : list Quotation) (searchTerm : string)
    : list Quotation :=
  let lowerCaseSearch := toLowerCase searchTerm in
  Array_sort compare_createdAt
    (List.filter (matchesSearch lowerCaseSearch) quotations).

Definition stats (filteredQuotations : list Quotation) : Stats :=
  let total := length filteredQuotations in
  let pending :=
    length (List.filter (fun q => String.eqb (Quotation.status q) "Pending")
              filteredQuotations) in
  let accepted :=
    length (List.filter (fun q => String.eqb (Quotation.status q) "Accepted")
              filteredQuotations) in
  let revenue :=
    fold_left
      (fun sum q =>
         (sum + match Quotation.grandTotal q with
                | Some g => if truthy g && negb (isNaN g) then g else 0
                | None => 0
                end)%float)
      (List.filter (fun q => String.eqb (Quotation.status q) "Accepted")
         filteredQuotations)
      0%float in
  {| Stats.total := total; Stats.pending := pending;
     Stats.accepted := accepted; Stats.revenue := toFixed2 revenue |}.

(** What the [Dashboard] component derives from its [quotations] property
    and its search term. *)
Definition Dashboard (quotations : list Quotation) (searchTerm : string)
    : list Quotation * Stats :=
  let fq := filteredQuotations quotations searchTerm in (fq, stats fq).

(** *** Saving *)

(** [setDoc(docRef, data, { merge: true })] on a stored document: the
    properties present in [data] replace the stored ones (the [items] array
    as a whole), the others stay. *)
Definition merge_document (old data : Quotation) : Quotation :=
  Quotation.mk (Quotation.id data)
    (Quotation.clientName data ∪ Quotation.clientName old)
    (Quotation.companyName data) (Quotation.address data)
    (Quotation.contactNumber data)
    (Quotation.quotationNumber data ∪ Quotation.quotationNumber old)
    (Quotation.dateIssued data) (Quotation.validUntil data)
    (Quotation.items data) (Quotation.taxRate data) (Quotation.discount data)
    (Quotation.status data) (Quotation.terms data) (Quotation.notes data)
    (Quotation.createdAt data ∪ Quotation.createdAt old)
    (Quotation.updatedAt data ∪ Quotation.updatedAt old)
    (Quotation.subtotal data ∪ Quotation.subtotal old)
    (Quotation.taxAmount data ∪ Quotation.taxAmount old)
    (Quotation.grandTotal data ∪ Quotation.grandTotal old).

Definition setDoc_merge (docs : gmap string Quotation) (docId : string)
    (data : Quotation) : gmap string Quotation :=
  <[docId := match docs !! docId with
             | Some old => merge_document old data
             | None => data
             end]> docs.

(** [handleSaveQuotation(quotationToSave)], run in the given phase; [now]
    is the clock reading. The handler obtains the totals by calling the hook
    [useQuotationCalculations]; when React refuses the call the exception
    ends the handler before the write. [setDoc_ok] tells whether the write
    is acknowledged or rejected (the [catch] branch). *)
Definition handleSaveQuotation (phase : Phase) (setDoc_ok : bool) (now : Z)
    (quotationToSave : Quotation) (st : AppState) : AppState :=
  if negb (ready st) then st
  else
    match hook_call phase (useQuotationCalculations quotationToSave) with
    | None => st
    | Some calculatedTotals =>
        let q := with_totals quotationToSave calculatedTotals in
        let finalQuotation :=
          Quotation.mk (Quotation.id q) (Quotation.clientName q)
            (Quotation.companyName q) (Quotation.address q)
            (Quotation.contactNumber q) (Quotation.quotationNumber q)
            (formatDate now)
            (Quotation.validUntil q) (Quotation.items q) (Quotation.taxRate q)
            (Quotation.discount q) (Quotation.status q) (Quotation.terms q)
            (Quotation.notes q) (Quotation.createdAt q)
            (Some (mkDate (Some now)))
            (Quotation.subtotal q) (Quotation.taxAmount q)
            (Quotation.grandTotal q) in
        if setDoc_ok then
          {| ready := ready st;
             documents :=
               setDoc_merge (documents st) (Quotation.id finalQuotation)
                 finalQuotation;
             currentQuotation := Some finalQuotation |}
        else st
    end.

(** The editor's Save button: its click callback runs
    [onSave({ ...quotation, ...calculatedTotals })] with the totals of the
    current render, and [onSave] is [handleSaveQuotation]. *)
Definition save_draft (setDoc_ok : bool) (now : Z) (quotation : Quotation)
    (st : AppState) : AppState :=
  handleSaveQuotation Handling setDoc_ok now
    (with_totals quotation (useQuotationCalculations quotation)) st.

(** *** Sessions of the editor *)

(** The handlers of a session run one after the other, each on the
    quotation that the previous one has set. *)
Fixpoint editor_session (actions : list EditorAction) (quotation : Quotation)
    : Gen Quotation :=
  match actions with
  | [] => gen_ret quotation
  | a :: rest => q <~ editor_step a quotation ;; editor_session rest q
  end.

(** *** The listener's callback *)

(** [snapshot.docs.map(...)]: the [quotations] state set from the documents
    of a snapshot that arrives at time [now]. *)
Definition fetchedQuotations (now : Z) (docs : list Quotation) : list Quotation :=
  map (fetched now) docs.

(** *** Deleting *)

(** [handleDeleteQuotation(quotationId)]. The handler calls no hook;
    [deleteDoc_ok] tells whether the deletion is acknowledged or rejected
    (the [catch] branch). *)
Definition handleDeleteQuotation (deleteDoc_ok : bool) (quotationId : string)
    (st : AppState) : AppState :=
  if negb (ready st) then st
  else if deleteDoc_ok then
    {| ready := ready st;
       documents := delete quotationId (documents st);
       currentQuotation := currentQuotation st |}
  else st.

(** *** The view handlers

    The [view] state of [App] next to the state above. *)
Inductive View := View_dashboard | View_editor.

Definition handleEditQuotation (quotation : Quotation) (ui : View * AppState)
    : View * AppState :=
  (View_editor,
   {| ready := ready (snd ui); documents := documents (snd ui);
      currentQuotation := Some quotation |}).

Definition handleBackToDashboard (ui : View * AppState) : View * AppState :=
  (View_dashboard,
   {| ready := ready (snd ui); documents := documents (snd ui);
      currentQuotation := None |}).

(** The click callback of the editor's delete button: [onDelete] and then
    [onBack], once [window.confirm] has answered [confirmed]. *)
Definition delete_click (confirmed deleteDoc_ok : bool) (quotation : Quotation)
    (ui : View * AppState) : View * AppState :=
  if confirmed then
    handleBackToDashboard
      (fst ui, handleDeleteQuotation deleteDoc_ok (Quotation.id quotation) (snd ui))
  else ui.

End Environment.

End App.

(** ** The REST server, [src/server.js] *)

Module Server.

(** JSON values, as [JSON.parse] and [express.json()] deliver them. An array
    body spreads like the object of its indices. *)
Inductive json :=
  | JNull
  | JBool (b : bool)
  | JNumber (x : float)
  | JString (s : string)
  | JArray (l : list json)
  | JObject (o : gmap string json).

(** The content of [db.json]: [None] when the file is missing or does not
    parse, otherwise the [quotations] array of its object. *)
Definition File : Type := option (list (gmap string json)).

Definition readDB (file : File) : list (gmap string json) :=
  match file with
  | Some quotations => quotations
  | None => []
  end.

Definition writeDB (quotations : list (gmap string json)) : File := Some quotations.

Record Response := mkResponse { status : nat; body : json }.

(** [res.json(v)] *)
Definition ok (v : json) : Response := mkResponse 200 v.

Definition not_found : Response :=
  mkResponse 404 (JObject {[ "message" := JString "Not found" ]}).

(** [item.id === id], for the string [id] of the route *)
Definition has_id (id : string) (item : gmap string json) : bool :=
  match item !! "id" with
  | Some (JString s) => String.eqb s id
  | _ => false
  end.

(** [GET /api/quotations] *)
Definition list_all (file : File) : Response * File :=
  (ok (JArray (map JObject (readDB file))), file).

(** [GET /api/quotations/:id] *)
Definition get_one (id : string) (file : File) : Response * File :=
  match List.find (has_id id) (readDB file) with
  | Some q => (ok (JObject q), file)
  | None => (not_found, file)
  end.

(** [POST /api/quotations]: [uuid] is the result of [uuidv4()], [created] and
    [updated] are the two clock readings in ISO format, [payload] is
    [req.body]. The spread [...payload] comes last. *)
Definition create (uuid created updated : string) (payload : gmap string json)
    (file : File) : Response * File :=
  let db := readDB file in
  let newQ : gmap string json :=
    payload ∪ {[ "id" := JString uuid;
                 "created_at" := JString created;
                 "updated_at" := JString updated ]} in
  (mkResponse 201 (JObject newQ), writeDB (db ++ [newQ])).

Fixpoint findIndex {A} (p : A -> bool) (l : list A) : option nat :=
  match l with
  | [] => None
  | x :: l' => if p x then Some O else S <$> findIndex p l'
  end.

(** [PUT /api/quotations/:id] *)
Definition update (id now : string) (payload : gmap string json)
    (file : File) : Response * File :=
  let db := readDB file in
  match findIndex (has_id id) db with
  | None => (not_found, file)
  | Some idx =>
      match db !! idx with
      | Some old =>
          let updated : gmap string json :=
            <[ "updated_at" := JString now ]> (payload ∪ old) in
          (ok (JObject updated), writeDB (<[ idx := updated ]> db))
      | None => (not_found, file)
      end
  end.

(** [DELETE /api/quotations/:id] *)
Definition delete (id : string) (file : File) : Response * File :=
  let db := readDB file in
  let filtered := List.filter (fun item => negb (has_id id item)) db in
  (ok (JObject {[ "success" := JBool true ]}), writeDB filtered).

(** The requests that the router serves, each with the values its handler
    draws from the environment ([uuidv4()], the clock). *)
Inductive Request :=
  | GET_all
  | GET_one (id : string)
  | POST (uuid created updated : string) (payload : gmap string json)
  | PUT (id now : string) (payload : gmap string json)
  | DELETE (id : string).

Definition handle (r : Request) (file : File) : Response * File :=
  match r with
  | GET_all => list_all file
  | GET_one id => get_one id file
  | POST uuid created updated payload => create uuid created updated payload file
  | PUT id now payload => update id now payload file
  | DELETE id => delete id file
  end.

End Server.

(** ** The specification's formulas *)

Module Spec.
Import JS App.

(** "sum over items of qty * unitPrice", accumulated in item order *)
Definition sum_amounts (items : list LineItem) : float :=
  fold_left (fun acc item => (acc + LineItem.qty item * LineItem.unitPrice item)%float)
    items 0%float.

(** The derived totals as the specification words them: each later total is
    computed from the earlier totals it names. *)
Definition totals (q : Quotation) : Totals :=
  let subtotal := toFixed2 (sum_amounts (Quotation.items q)) in
  let taxAmount := toFixed2 (subtotal * Quotation.taxRate q / 100)%float in
  let grandTotal :=
    Math_max 0 (toFixed2 (subtotal + taxAmount - Quotation.discount q)%float) in
  {| Totals.subtotal := subtotal; Totals.taxAmount := taxAmount;
     Totals.grandTotal := grandTotal |}.

(** The sum of the line amounts before any rounding, a falsy quantity or
    unit price counting as 0. *)
Fixpoint raw_subtotal_from (acc : float) (items : list LineItem) : float :=
  match items with
  | [] => acc
  | item :: rest =>
      raw_subtotal_from
        (acc + or_zero (LineItem.qty item) * or_zero (LineItem.unitPrice item))%float
        rest
  end.

Definition raw_subtotal (items : list LineItem) : float :=
  raw_subtotal_from 0%float items.

(** The data model's invariant on the items of a quotation: there is at
    least one, and their ids are pairwise distinct. *)
Definition well_formed (q : Quotation) : Prop :=
  Quotation.items q <> [] /\ NoDup (map LineItem.id (Quotation.items q)).

(** The number parsed from the trailing digit run of a quotation number. *)
Definition sequence_number (q : Quotation) : option N :=
  decimal_value <$> (Quotation.quotationNumber q ≫= match_trailing_digits).

(** The largest sequence number among the quotations that have one, 0 when
    none has. *)
Definition max_sequence (quotations : list Quotation) : N :=
  fold_right N.max 0%N (omap sequence_number quotations).

(** [t] occurs in [s] when both are read without regard to letter case:
    in lower case, as the environment's [toLowerCase] writes them. *)
Definition contains_ci (toLowerCase : string -> string) (s : option string)
    (t : string) : Prop :=
  exists s0 pre post,
    s = Some s0 /\ toLowerCase s0 = pre +:+ toLowerCase t +:+ post.

Definition matches (toLowerCase : string -> string) (term : string)
    (q : Quotation) : Prop :=
  contains_ci toLowerCase (Quotation.clientName q) term
  \/ contains_ci toLowerCase (Quotation.quotationNumber q) term.

(** "Rounded to 2 decimal places". For a positive number of exact value
    [m * 2^e], [n] is the whole number of hundredths nearest to it:
    [n - 1/2 <= 100 * m * 2^e < n + 1/2], the inequalities being multiplied
    out to integers. *)
Definition nearest_cents (m : positive) (e : Z) (n : Z) : Prop :=
  ((2 * n - 1) * 2 ^ Z.max 0 (- e) <= 200 * Z.pos m * 2 ^ Z.max 0 e
   /\ 200 * Z.pos m * 2 ^ Z.max 0 e < (2 * n + 1) * 2 ^ Z.max 0 (- e))%Z.

(** [a] is [x] rounded to 2 decimal places: for a number [x] of magnitude
    below [2^46], the number [n / 100] of the nearest whole number [n] of
    hundredths of the magnitude, with the sign of [x]; a zero gives 0. From
    [2^46] on, where neighbouring numbers are at least [1/64] apart, and
    for the infinities and NaN, it is [x] itself. *)
Definition round2 (x a : float) : Prop :=
  match Prim2SF x with
  | S754_nan => a = nan
  | S754_infinity _ => a = x
  | S754_zero _ => a = 0%float
  | S754_finite s m e =>
      if (70368744177664 <=? PrimFloat.abs x)%float then a = x
      else
        exists n : Z,
          nearest_cents m e n
          /\ (0 <= n < 2 ^ 53)%Z
          /\ a = (if s then - (of_uint63 (Uint63.of_Z n) / 100)
                  else of_uint63 (Uint63.of_Z n) / 100)%float
  end.

Fixpoint count_status (s : string) (l : list Quotation) : nat :=
  match l with
  | [] => O
  | q :: l' =>
      if decide (Quotation.status q = s)
      then S (count_status s l') else count_status s l'
  end.

(** A grand total read as a number, 0 when it is absent or not a number. *)
Definition numeric (g : option float) : float :=
  match g with
  | Some x => or_zero x
  | None => 0%float
  end.

(** The grand totals of the accepted quotations, added up in list order. *)
Fixpoint accepted_revenue_from (acc : float) (l : list Quotation) : float :=
  match l with
  | [] => acc
  | q :: l' =>
      if decide (Quotation.status q = "Accepted")
      then accepted_revenue_from (acc + numeric (Quotation.grandTotal q))%float l'
      else accepted_revenue_from acc l'
  end.

(** The time by which an entry is ordered: its [createdAt] when it has a
    valid one. *)
Definition created (q : Quotation) : option Z := Quotation.createdAt q ≫= getTime.

(** The entry has a valid createdAt. *)
Definition dated (q : Quotation) : Prop := is_Some (created q).

(** "Newest first, entries without a valid createdAt as the oldest": [a]
    may stand before [b]. *)
Definition newer_or_equal (a b : Quotation) : Prop :=
  match created a, created b with
  | Some ta, Some tb => (tb <= ta)%Z
  | Some _, None => True
  | None, Some _ => False
  | None, None => True
  end.

End Spec.

(** ** Invariants of the code *)

Module Props.
Import JS App.

(** The amount of a line is the rounded product of its quantity and price. *)
Definition amount_consistent (item : LineItem) : Prop :=
  LineItem.amount item = toFixed2 (LineItem.qty item * LineItem.unitPrice item).



(** A stored [createdAt], when there is one, is a Firestore timestamp, whose
    [toDate()] is a valid Date. *)
Definition valid_timestamp (data : Quotation) : Prop :=
  forall d, Quotation.createdAt data = Some d -> is_Some (getTime d).

(** [q[name]] for the name of a text input of the header. *)
Definition text_property (name : TextField) (q : Quotation) : option string :=
  match name with
  | F_clientName => Quotation.clientName q
  | F_companyName => Some (Quotation.companyName q)
  | F_address => Some (Quotation.address q)
  | F_contactNumber => Some (Quotation.contactNumber q)
  | F_quotationNumber => Quotation.quotationNumber q
  | F_validUntil => Some (Quotation.validUntil q)
  | F_status => Some (Quotation.status q)
  | F_terms => Some (Quotation.terms q)
  | F_notes => Some (Quotation.notes q)
  end.

(** The editor view has a quotation to show. *)
Definition editor_has_quotation (ui : View * AppState) : Prop :=
  fst ui = View_editor -> is_Some (currentQuotation (snd ui)).

(** The id by which the routes of the REST server find a record: its [id]
    property when that is a string. *)
Definition record_id (item : gmap string Server.json) : option string :=
  match item !! "id" with
  | Some (Server.JString s) => Some s
  | _ => None
  end.

Definition ids (db : list (gmap string Server.json)) : list string :=
  omap record_id db.

(** A request that leaves the naming of records to the server: the body of
    a POST or PUT carries no [id], and the id generated for a POST is not in
    use. *)
Definition respects_ids (r : Server.Request) (db : list (gmap string Server.json))
    : Prop :=
  match r with
  | Server.POST uuid _ _ payload => payload !! "id" = None /\ uuid ∉ ids db
  | Server.PUT _ _ payload => payload !! "id" = None
  | _ => True
  end.

End Props.

(** ** Sample environment for the examples *)

Module Sample.
Import JS.

Definition uuid (n : nat) : string := "uuid-" +:+ pretty n.

Definition toLocaleDateString (t : Z) : string := pretty t.

(** [toLowerCase] on text in ASCII, where it folds the letters A to Z and
    changes nothing else; the examples search ASCII text only. *)
Definition lower_char (c : ascii) : ascii :=
  let n := nat_of_ascii c in
  if (65 <=? n)%nat && (n <=? 90)%nat then ascii_of_nat (n + 32) else c.

Fixpoint toLowerCase (s : string) : string :=
  match s with
  | EmptyString => EmptyString
  | String c s' => String (lower_char c) (toLowerCase s')
  end.

(** Years of 31 556 952 000 ms (the mean Gregorian year) since 1970. *)
Definition getFullYear (t : Z) : N := Z.to_N (1970 + t / 31556952000).

Definition all_digits (s : string) : bool :=
  forallb is_digit (list_ascii_of_string s).

(** [parseFloat] on a string of at most 15 digits, where the integer read is
    a float; any other string is taken as unreadable here. *)
Definition parseFloat (s : string) : float :=
  if all_digits s && (0 <? String.length s)%nat && (String.length s <=? 15)%nat
  then of_uint63 (Uint63.of_Z (Z.of_N (decimal_value s)))
  else nan.

End Sample.

(** ** Example data *)

Module Examples.
Import JS App.

(** A quotation with the given items, tax rate and discount, the other
    properties being those of a fresh draft. *)
Definition priced (items : list LineItem) (taxRate discount : float) : Quotation :=
  {| Quotation.id := "q";
     Quotation.clientName := Some "New Client";
     Quotation.companyName := ""; Quotation.address := "";
     Quotation.contactNumber := "";
     Quotation.quotationNumber := Some "QT-2024-0001";
     Quotation.dateIssued := ""; Quotation.validUntil := "";
     Quotation.items := items;
     Quotation.taxRate := taxRate; Quotation.discount := discount;
     Quotation.status := "Draft"; Quotation.terms := ""; Quotation.notes := "";
     Quotation.createdAt := None; Quotation.updatedAt := None;
     Quotation.subtotal := None; Quotation.taxAmount := None;
     Quotation.grandTotal := None |}.

(** One line, 1.25 x 10.03, taxed at 18 percent, no discount. *)
Definition fractional_quantity : Quotation :=
  priced [ LineItem.mk "i" "" 1.25 10.03 "" 12.54 ] 18 0.

(** One line, 1 x 0.004, taxed at 100 percent. *)
Definition small_amounts : Quotation :=
  priced [ LineItem.mk "i" "" 1 0.004 "" 0 ] 100 0.

(** One line, 1 x 1.75, taxed at 18 percent, no discount. *)
Definition gst_on_1_75 : Quotation :=
  priced [ LineItem.mk "i" "" 1 1.75 "" 1.75 ] 18 0.

(** One line, 1 x 10, taxed at 18 percent, with a discount of 50. *)
Definition large_discount : Quotation :=
  priced [ LineItem.mk "i" "" 1 10 "" 10 ] 18 50.

(** A stored quotation as the dashboard and the numbering read it: client
    name, quotation number, status, creation date and grand total. *)
Definition stored (clientName quotationNumber : option string) (status : string)
    (createdAt : option Date) (grandTotal : option float) : Quotation :=
  {| Quotation.id := "q";
     Quotation.clientName := clientName;
     Quotation.companyName := ""; Quotation.address := "";
     Quotation.contactNumber := "";
     Quotation.quotationNumber := quotationNumber;
     Quotation.dateIssued := ""; Quotation.validUntil := "";
     Quotation.items := [ LineItem.mk "i" "" 1 0 "" 0 ];
     Quotation.taxRate := 18; Quotation.discount := 0;
     Quotation.status := status; Quotation.terms := ""; Quotation.notes := "";
     Quotation.createdAt := createdAt; Quotation.updatedAt := None;
     Quotation.subtotal := None; Quotation.taxAmount := None;
     Quotation.grandTotal := grandTotal |}.

Definition numbered (quotationNumber : option string) : Quotation :=
  stored (Some "New Client") quotationNumber "Draft" None None.

(** The statuses and totals of the specification's aggregator example. *)
Definition four_statuses : list Quotation :=
  [ stored (Some "Asha") (Some "QT-2024-0001") "Draft" (Some (mkDate (Some 1000%Z))) (Some 20%float);
    stored (Some "Bala") (Some "QT-2024-0002") "Pending" (Some (mkDate (Some 2000%Z))) (Some 30%float);
    stored (Some "Chitra") (Some "QT-2024-0003") "Accepted" (Some (mkDate (Some 3000%Z))) (Some 100%float);
    stored (Some "Deepa") (Some "QT-2024-0004") "Accepted" (Some (mkDate (Some 4000%Z))) (Some 50%float) ].

(** An entry without [createdAt] followed by a dated one. *)
Definition undated_first : list Quotation :=
  [ stored (Some "Asha") (Some "QT-2024-0001") "Draft" None None;
    stored (Some "Bala") (Some "QT-2024-0002") "Draft" (Some (mkDate (Some 2000%Z))) None ].

(** An entry whose [createdAt] is an Invalid Date followed by a dated one. *)
Definition invalid_first : list Quotation :=
  [ stored (Some "Asha") (Some "QT-2024-0001") "Draft" (Some (mkDate None)) None;
    stored (Some "Bala") (Some "QT-2024-0002") "Draft" (Some (mkDate (Some 2000%Z))) None ].

(** A stored document that has neither a client name nor a number. *)
Definition nameless : list Quotation :=
  [ stored None None "Accepted" (Some (mkDate (Some 1000%Z))) (Some 75%float) ].

(** An application state with one stored document whose totals are stale. *)
Definition one_stale_document : AppState :=
  {| ready := true;
     documents :=
       {[ "q" := with_totals large_discount (Totals.mk 1 2 3) ]};
     currentQuotation := None |}.

(** 10 June 2024, in milliseconds since the epoch. *)
Definition june_2024 : Z := 1718000000000.

(** The first draft of a session: [handleNewQuotation] on an empty
    collection. *)
Definition new_draft : Quotation :=
  fst (handleNewQuotation Sample.uuid Sample.toLocaleDateString Sample.getFullYear
         june_2024 [] 0).

(** The application with [db] and [userId] set, nothing stored yet, and the
    new draft in the editor. *)
Definition editing_new_draft : AppState :=
  {| ready := true; documents := ∅; currentQuotation := Some new_draft |}.

(** One line priced at an eighth. *)
Definition priced_in_eighths : Quotation :=
  priced [ LineItem.mk "a" "Ribbon" 1 0.125 "" 0.13 ] 18 0.

(** Two lines with distinct ids. *)
Definition two_lines : Quotation :=
  priced [ LineItem.mk "a" "Stage" 2 1500 "" 3000;
           LineItem.mk "b" "Lights" 4 250 "" 1000 ] 18 0.

End Examples.

(** Records of the REST store. *)
Module ServerExamples.
Import Server.

Definition first : gmap string json :=
  {[ "id" := JString "a"; "clientName" := JString "Asha" ]}.

Definition second : gmap string json :=
  {[ "id" := JString "b"; "clientName" := JString "Bala" ]}.

Definition two_records : File := Some [first; second].

(** A request body that names its own id. *)
Definition body_with_id : gmap string json :=
  {[ "id" := JString "chosen"; "clientName" := JString "Chitra" ]}.

(** A request body without id or timestamps. *)
Definition plain_body : gmap string json :=
  {[ "clientName" := JString "Deepa" ]}.

(** A request body that names the id of the first record. *)
Definition body_naming_a : gmap string json :=
  {[ "id" := JString "a"; "clientName" := JString "Esha" ]}.

End ServerExamples.

Import JS App Examples.

(** ** Facts about the builtins *)

Section FloatFacts.

Lemma Prim2SF_zero : Prim2SF 0%float = S754_zero false.
Proof. reflexivity. Qed.

Lemma SFcompare_refl_finite s m e :
  SFcompare (S754_finite s m e) (S754_finite s m e) = Some Eq.
Proof.
  simpl. destruct s; rewrite Z.compare_refl, Pos.compare_cont_refl; reflexivity.
Qed.

(** A float that compares below zero is a number, and zero is not below it. *)
Lemma ltb_zero_facts (x : float) :
  (x <? 0)%float = true ->
  PrimFloat.is_nan x = false /\ (0 <? x)%float = false.
Proof.
  unfold PrimFloat.is_nan. rewrite !FloatAxioms.ltb_spec, FloatAxioms.eqb_spec, Prim2SF_zero.
  destruct (Prim2SF x) as [s | s | | s m e]; simpl; try discriminate.
  - destruct s; simpl; [auto | discriminate].
  - destruct s; simpl; try discriminate. intros _. split; [|reflexivity].
    unfold SFeqb. rewrite SFcompare_refl_finite. reflexivity.
Qed.

Lemma Math_max_zero_negative (x : float) :
  (x <? 0)%float = true -> Math_max 0 x = 0%float.
Proof.
  intros H. destruct (ltb_zero_facts x H) as [Hn Hp].
  unfold Math_max. rewrite Hn, Hp, H. reflexivity.
Qed.

Lemma toFixed2_zero : toFixed2 0 = 0%float.
Proof. reflexivity. Qed.

Lemma float_neq (x y : float) : PrimFloat.Leibniz.eqb x y = false -> x <> y.
Proof.
  intros H E. apply FloatAxioms.Leibniz.eqb_spec in E. congruence.
Qed.

End FloatFacts.

(** *** The sign of a rounded quotient *)

Section SignOfRounding.
Variables prec emax : Z.

Lemma shr_1_nonneg (mrs : shr_record) :
  (0 <= shr_m mrs)%Z -> (0 <= shr_m (shr_1 mrs))%Z.
Proof.
  destruct mrs as [m r s]. simpl.
  destruct m as [|[p|p|]|p]; simpl; intros H; lia.
Qed.

Lemma iter_pos_shr_1_nonneg (p : positive) (mrs : shr_record) :
  (0 <= shr_m mrs)%Z -> (0 <= shr_m (SpecFloat.iter_pos shr_1 p mrs))%Z.
Proof.
  revert mrs. induction p as [p IH|p IH|]; intros mrs H; simpl.
  - apply IH, IH, shr_1_nonneg, H.
  - apply IH, IH, H.
  - apply shr_1_nonneg, H.
Qed.

Lemma shr_fexp_nonneg (m e : Z) (l : location) :
  (0 <= m)%Z -> (0 <= shr_m (fst (shr_fexp prec emax m e l)))%Z.
Proof.
  intros H. unfold shr_fexp, shr.
  assert (H0 : (0 <= shr_m (shr_record_of_loc m l))%Z).
  { destruct l as [|[]]; exact H. }
  destruct (fexp prec emax (Zdigits2 m + e) - e)%Z; simpl; auto.
  apply iter_pos_shr_1_nonneg, H0.
Qed.

Lemma round_nearest_even_nonneg (m : Z) (l : location) :
  (0 <= m)%Z -> (0 <= round_nearest_even m l)%Z.
Proof.
  intros H. destruct l as [|[]]; simpl; try lia. destruct (Z.even m); lia.
Qed.

Lemma binary_round_aux_nonneg (mx ex : Z) (lx : location) :
  (0 <= mx)%Z -> nonneg_sf (binary_round_aux prec emax false mx ex lx).
Proof.
  intros H. unfold binary_round_aux.
  pose proof (shr_fexp_nonneg mx ex lx H) as H1.
  destruct (shr_fexp prec emax mx ex lx) as [mrs' e']. simpl in H1.
  pose proof (shr_fexp_nonneg _ e' loc_Exact
                (round_nearest_even_nonneg _ (loc_of_shr_record mrs') H1)) as H2.
  destruct (shr_fexp prec emax _ e' loc_Exact) as [mrs'' e'']. simpl in H2.
  destruct (shr_m mrs'') as [|m|m]; simpl; [exact I| |lia].
  destruct (e'' <=? emax - prec)%Z; exact I.
Qed.

Lemma binary_normalize_nonneg (m e : Z) :
  (0 <= m)%Z -> nonneg_sf (binary_normalize prec emax m e false).
Proof.
  intros H. destruct m as [|p|p]; simpl; [exact I| |lia].
  unfold binary_round. destruct (shl_align p e _) as [mz ez].
  apply binary_round_aux_nonneg. lia.
Qed.

Lemma SFdiv_nonneg (x : spec_float) (my : positive) (ey : Z) :
  nonneg_sf x -> nonneg_sf (SFdiv prec emax x (S754_finite false my ey)).
Proof.
  destruct x as [[]|[]| |[] mx ex]; simpl; try contradiction; try exact (fun _ => I).
  intros _. unfold SFdiv_core_binary.
  set (s := (ex - ey - _)%Z).
  set (m' := match s with Z.pos _ => Z.shiftl (Z.pos mx) s | 0%Z => Z.pos mx | Z.neg _ => 0%Z end).
  assert (Hm : (0 <= m')%Z).
  { unfold m'. destruct s; try lia. apply Z.shiftl_nonneg. lia. }
  pose proof (Z.div_pos m' (Z.pos my) Hm ltac:(lia)) as Hq.
  unfold Z.div in Hq. destruct (Z.div_eucl m' (Z.pos my)) as [q r]. simpl in Hq.
  apply binary_round_aux_nonneg, Hq.
Qed.

End SignOfRounding.

Lemma cents_nonneg (k : int) : nonneg_sf (Prim2SF (of_uint63 k / 100)%float).
Proof.
  rewrite FloatAxioms.div_spec, FloatAxioms.of_uint63_spec.
  change (Prim2SF 100%float) with (S754_finite false 7036874417766400 (-46)).
  apply SFdiv_nonneg, binary_normalize_nonneg.
  apply Uint63.to_Z_bounded.
Qed.

Lemma is_nan_finite (x : float) s m e :
  Prim2SF x = S754_finite s m e -> PrimFloat.is_nan x = false.
Proof.
  intros E. unfold PrimFloat.is_nan. rewrite FloatAxioms.eqb_spec, E.
  unfold SFeqb. rewrite SFcompare_refl_finite. reflexivity.
Qed.

Lemma Math_max_zero_nonneg (r : float) :
  nonneg_sf (Prim2SF r) -> Math_max 0 r = r.
Proof.
  destruct (Prim2SF r) as [[]|[]| |[] m e] eqn:E; simpl; try contradiction; intros _.
  - assert (r = 0%float) as -> by (apply Prim2SF_inj; rewrite E; reflexivity).
    reflexivity.
  - assert (r = infinity) as -> by (apply Prim2SF_inj; rewrite E; reflexivity).
    reflexivity.
  - unfold Math_max. rewrite (is_nan_finite r _ _ _ E).
    change (PrimFloat.is_nan 0) with false. cbn [orb].
    rewrite FloatAxioms.ltb_spec, E, Prim2SF_zero. reflexivity.
Qed.

Lemma Math_max_zero_opp_nonneg (r : float) :
  nonneg_sf (Prim2SF r) -> Math_max 0 (- r) = 0%float.
Proof.
  destruct (Prim2SF r) as [[]|[]| |[] m e] eqn:E; simpl; try contradiction; intros _.
  - assert (r = 0%float) as -> by (apply Prim2SF_inj; rewrite E; reflexivity).
    reflexivity.
  - assert (r = infinity) as -> by (apply Prim2SF_inj; rewrite E; reflexivity).
    reflexivity.
  - apply Math_max_zero_negative.
    rewrite FloatAxioms.ltb_spec, FloatAxioms.opp_spec, E, Prim2SF_zero. reflexivity.
Qed.

(** Rounding to cents and clamping at zero commute. *)
Lemma toFixed2_Math_max (x : float) :
  toFixed2 (Math_max 0 x) = Math_max 0 (toFixed2 x).
Proof.
  destruct (Prim2SF x) as [s|s| |s m e] eqn:E.
  - assert (x = if s then (-0)%float else 0%float) as ->.
    { apply Prim2SF_inj. rewrite E. destruct s; reflexivity. }
    destruct s; reflexivity.
  - assert (x = if s then neg_infinity else infinity) as ->.
    { apply Prim2SF_inj. rewrite E. destruct s; reflexivity. }
    destruct s; reflexivity.
  - assert (x = nan) as -> by (apply Prim2SF_inj; rewrite E; reflexivity).
    reflexivity.
  - destruct s.
    + assert (Hneg : (x <? 0)%float = true).
      { rewrite FloatAxioms.ltb_spec, E, Prim2SF_zero. reflexivity. }
      rewrite (Math_max_zero_negative x Hneg), toFixed2_zero.
      unfold toFixed2. rewrite E.
      destruct (70368744177664 <=? PrimFloat.abs x)%float.
      * symmetry. apply Math_max_zero_negative, Hneg.
      * symmetry. apply Math_max_zero_opp_nonneg, cents_nonneg.
    + assert (Hmax : Math_max 0 x = x).
      { apply Math_max_zero_nonneg. rewrite E. exact I. }
      rewrite Hmax. unfold toFixed2. rewrite E.
      destruct (70368744177664 <=? PrimFloat.abs x)%float.
      * symmetry. exact Hmax.
      * symmetry. apply Math_max_zero_nonneg, cents_nonneg.
Qed.

Lemma ltb_zero_asym (x : float) : (0 <? x)%float = true -> (x <? 0)%float = false.
Proof.
  rewrite !FloatAxioms.ltb_spec, Prim2SF_zero.
  destruct (Prim2SF x) as [[]|[]| |[] m e]; simpl; auto; discriminate.
Qed.

(** A total clamped at zero never compares below zero. *)
Lemma Math_max_zero_not_negative (x : float) : (Math_max 0 x <? 0)%float = false.
Proof.
  unfold Math_max. change (PrimFloat.is_nan 0) with false. cbn [orb].
  destruct (PrimFloat.is_nan x); [reflexivity|].
  destruct (0 <? x)%float eqn:Hp; [apply ltb_zero_asym, Hp|].
  destruct (x <? 0)%float; reflexivity.
Qed.

(** ** Derived totals *)

Section DerivedTotals.

Lemma fold_subtotal_from (items : list LineItem) (acc : float) :
  fold_left
    (fun sum item =>
       (sum + or_zero (LineItem.qty item) * or_zero (LineItem.unitPrice item))%float)
    items acc
  = Spec.raw_subtotal_from acc items.
Proof.
  revert acc. induction items as [|item rest IH]; intros acc; simpl.
  - reflexivity.
  - apply IH.
Qed.

Lemma or_zero_truthy (x : float) : truthy x = true -> or_zero x = x.
Proof. unfold or_zero. intros ->. reflexivity. Qed.

Lemma raw_subtotal_from_sum (items : list LineItem) (acc : float) :
  Forall (fun item => truthy (LineItem.qty item) = true
                      /\ truthy (LineItem.unitPrice item) = true) items ->
  Spec.raw_subtotal_from acc items
  = fold_left (fun a item => (a + LineItem.qty item * LineItem.unitPrice item)%float)
      items acc.
Proof.
  intros H. revert acc. induction H as [|item rest [Hq Hp] _ IH]; intros acc; simpl.
  - reflexivity.
  - rewrite (or_zero_truthy _ Hq), (or_zero_truthy _ Hp). apply IH.
Qed.

(** In binary64 the product 1.75 * 0.18 lies just above 0.315 and the sum
    1.75 + 0.315 just below 2.065: the returned tax is 0.32 and the returned
    grand total 2.06. *)
Lemma totals_of_1_75 :
  useQuotationCalculations gst_on_1_75
  = {| Totals.subtotal := 1.75; Totals.taxAmount := 0.32;
       Totals.grandTotal := 2.06 |}.
Proof. vm_compute. reflexivity. Qed.

(** C1, as stated, fails. One line 1.25 x 10.03 at 18 percent has the
    unrounded subtotal 12.5375 and tax 2.25675: the code returns subtotal
    12.54, tax 2.26 and grand total round(14.79425) = 14.79, while the stated
    formula gives round(12.54 + 2.26) = 14.80. One line 1 x 0.004 at 100
    percent: the code returns subtotal 0, tax 0 and grand total 0.01, the
    stated formula 0. *)
Lemma C1_counterexample :
  useQuotationCalculations fractional_quantity
  = {| Totals.subtotal := 12.54; Totals.taxAmount := 2.26;
       Totals.grandTotal := 14.79 |}
  /\ Totals.grandTotal (Spec.totals fractional_quantity) = 14.8%float
  /\ useQuotationCalculations fractional_quantity <> Spec.totals fractional_quantity
  /\ useQuotationCalculations small_amounts
     = {| Totals.subtotal := 0; Totals.taxAmount := 0;
          Totals.grandTotal := 0.01 |}
  /\ Totals.grandTotal (Spec.totals small_amounts) = 0%float
  /\ useQuotationCalculations small_amounts <> Spec.totals small_amounts.
Proof.
  repeat split; try (vm_compute; reflexivity).
  - intros E. apply (f_equal Totals.grandTotal) in E. vm_compute in E.
    revert E. apply float_neq. vm_compute. reflexivity.
  - intros E. apply (f_equal Totals.grandTotal) in E. vm_compute in E.
    revert E. apply float_neq. vm_compute. reflexivity.
Qed.

(** C1 (amended). For every quotation the derived totals are
    subtotal = round(S, 2), taxAmount = round(S * (taxRate / 100), 2) and
    grandTotal = max(0, round(S + S * (taxRate / 100) - discount, 2)), where S
    is the unrounded sum over the items of qty * unitPrice (a qty, unitPrice
    or discount that is NaN, absent or zero counting as 0), the plain sum of
    the products when every qty and unitPrice is a non-zero number. Clamping
    before or after the rounding gives the same grand total; it never
    compares below zero, and a negative raw total gives 0, not an error. *)
Theorem C1_totals_from_unrounded_sum (q : Quotation) :
  let S := Spec.raw_subtotal (Quotation.items q) in
  let T := (S * (Quotation.taxRate q / 100))%float in
  let G := (S + T - or_zero (Quotation.discount q))%float in
  useQuotationCalculations q
  = {| Totals.subtotal := toFixed2 S;
       Totals.taxAmount := toFixed2 T;
       Totals.grandTotal := Math_max 0 (toFixed2 G) |}
  /\ Math_max 0 (toFixed2 G) = toFixed2 (Math_max 0 G)
  /\ (Forall (fun item => truthy (LineItem.qty item) = true
                          /\ truthy (LineItem.unitPrice item) = true)
        (Quotation.items q) ->
      S = Spec.sum_amounts (Quotation.items q))
  /\ (Totals.grandTotal (useQuotationCalculations q) <? 0)%float = false
  /\ ((G <? 0)%float = true ->
      Totals.grandTotal (useQuotationCalculations q) = 0%float).
Proof.
  intros S T G.
  assert (E : useQuotationCalculations q
              = {| Totals.subtotal := toFixed2 S;
                   Totals.taxAmount := toFixed2 T;
                   Totals.grandTotal := Math_max 0 (toFixed2 G) |}).
  { unfold useQuotationCalculations. rewrite fold_subtotal_from.
    rewrite toFixed2_Math_max. reflexivity. }
  split; [exact E|]. split; [symmetry; apply toFixed2_Math_max|]. split; [|split].
  - intros H. unfold S, Spec.raw_subtotal, Spec.sum_amounts.
    apply raw_subtotal_from_sum, H.
  - rewrite E. apply Math_max_zero_not_negative.
  - intros H. rewrite E. cbn [Totals.grandTotal].
    rewrite <- toFixed2_Math_max, (Math_max_zero_negative G H). apply toFixed2_zero.
Qed.

(** A discount of 50 on 10 plus 18 percent gives a grand total of 0. *)
Lemma C1_totals_from_unrounded_sum_witness :
  useQuotationCalculations large_discount
  = {| Totals.subtotal := 10; Totals.taxAmount := 1.8; Totals.grandTotal := 0 |}
  /\ Spec.raw_subtotal (Quotation.items large_discount)
     = Spec.sum_amounts (Quotation.items large_discount)
  /\ Totals.grandTotal (useQuotationCalculations large_discount) = 0%float.
Proof.
  split; [vm_compute; reflexivity|]. split.
  - apply (C1_totals_from_unrounded_sum large_discount).
    apply List.Forall_cons; [split; reflexivity | apply List.Forall_nil].
  - apply (C1_totals_from_unrounded_sum large_discount). vm_compute. reflexivity.
Defined.

End DerivedTotals.

(** ** Rounding to two decimal places *)

Section RoundingToCents.

Lemma digits2_pos_size (m : positive) : digits2_pos m = Pos.size m.
Proof. induction m as [m IH|m IH|]; simpl; [rewrite IH | rewrite IH |]; reflexivity. Qed.

Lemma pos_below_pow_size (m : positive) : (Z.pos m < 2 ^ Z.pos (Pos.size m))%Z.
Proof.
  pose proof (Pos.size_gt m) as H.
  apply Pos2Z.pos_lt_pos in H. rewrite Pos2Z.inj_pow in H. exact H.
Qed.

Lemma pow_size_le_double (m : positive) : (2 ^ Z.pos (Pos.size m) <= 2 * Z.pos m)%Z.
Proof.
  pose proof (Pos2Z.pos_le_pos _ _ (Pos.size_le m)) as H.
  rewrite Pos2Z.inj_pow in H.
  change (2 * Z.pos m)%Z with (Z.pos m~0). exact H.
Qed.

(** A finite number below [2^46] in magnitude has an exponent of at most
    -7 and a significand below [2^53]. *)
Lemma below_2_46 (x : float) (s : bool) (m : positive) (e : Z) :
  Prim2SF x = S754_finite s m e ->
  (70368744177664 <=? PrimFloat.abs x)%float = false ->
  (e <= -7 /\ Z.pos m < 2 ^ 53)%Z.
Proof.
  intros E Hle.
  pose proof (Prim2SF_valid x) as Hv. rewrite E in Hv.
  cbn [SpecFloat.valid_binary] in Hv. unfold bounded, canonical_mantissa, fexp in Hv.
  apply andb_true_iff in Hv as [Hc _]. apply Z.eqb_eq in Hc.
  rewrite digits2_pos_size in Hc.
  change (SpecFloat.emin prec emax) with (-1074)%Z in Hc. change prec with 53%Z in Hc.
  pose proof (pos_below_pow_size m) as Hlt.
  pose proof (pow_size_le_double m) as Hge.
  set (d := Z.pos (Pos.size m)) in *.
  assert (Hsize : (d <= 53)%Z) by (clear - Hc; lia).
  assert (Hm : (Z.pos m < 2 ^ 53)%Z).
  { eapply Z.lt_le_trans; [exact Hlt|]. apply Z.pow_le_mono_r; [lia | exact Hsize]. }
  split; [|exact Hm].
  rewrite FloatAxioms.leb_spec, abs_spec, E in Hle.
  change (Prim2SF 70368744177664) with (S754_finite false 4503599627370496 (-6)) in Hle.
  unfold SFleb, SFabs, SFcompare in Hle.
  destruct (Z.compare_spec (-6) e) as [He|He|He];
    [|discriminate Hle|clear - He; lia].
  exfalso. subst e.
  assert (Hd : d = 53%Z) by (clear - Hc; lia).
  rewrite Hd in Hge. change (2 ^ 53)%Z with (2 * 4503599627370496)%Z in Hge.
  assert (Hcmp : (4503599627370496 ?= m)%positive <> Gt).
  { rewrite Pos.compare_gt_iff. intros Hlt'.
    apply Pos2Z.pos_lt_pos in Hlt'. clear - Hge Hlt'. lia. }
  unfold Pos.compare in Hcmp.
  destruct (Pos.compare_cont Eq 4503599627370496 m); try discriminate Hle.
  congruence.
Qed.

(** The integer that [toFixed(2)] picks is the nearest number of
    hundredths. *)
Lemma round_cents_nearest (m : positive) (e : Z) :
  Spec.nearest_cents m e (round_cents m e).
Proof.
  unfold Spec.nearest_cents, round_cents.
  destruct (Z.leb_spec 0 e) as [He|He].
  - rewrite (Z.max_l 0 (- e)), (Z.max_r 0 e) by lia.
    change (2 ^ 0)%Z with 1%Z. lia.
  - rewrite (Z.max_r 0 (- e)), (Z.max_l 0 e) by lia.
    change (2 ^ 0)%Z with 1%Z.
    replace (2 ^ (1 - e))%Z with (2 * 2 ^ (- e))%Z
      by (rewrite <- Z.pow_succ_r by lia; f_equal; lia).
    assert (HB : (0 < 2 ^ (- e))%Z) by (apply Z.pow_pos_nonneg; lia).
    set (B := (2 ^ (- e))%Z) in *.
    pose proof (Z.div_mod (200 * Z.pos m + B) (2 * B) ltac:(lia)) as Hdm.
    pose proof (Z.mod_pos_bound (200 * Z.pos m + B) (2 * B) ltac:(lia)) as Hmod.
    set (n := ((200 * Z.pos m + B) / (2 * B))%Z) in *.
    nia.
Qed.

Lemma round_cents_range (m : positive) (e : Z) :
  (e <= -7)%Z -> (Z.pos m < 2 ^ 53)%Z ->
  (0 <= round_cents m e < 2 ^ 53)%Z.
Proof.
  intros He Hm. unfold round_cents.
  destruct (Z.leb_spec 0 e) as [He'|_]; [lia|].
  replace (2 ^ (1 - e))%Z with (2 * 2 ^ (- e))%Z
    by (rewrite <- Z.pow_succ_r by lia; f_equal; lia).
  assert (HB : (2 ^ 7 <= 2 ^ (- e))%Z) by (apply Z.pow_le_mono_r; lia).
  set (B := (2 ^ (- e))%Z) in *.
  split.
  - apply Z.div_pos; lia.
  - apply Z.div_lt_upper_bound; [lia|].
    change (2 ^ 7)%Z with 128%Z in HB. change (2 ^ 53)%Z with 9007199254740992%Z in *.
    nia.
Qed.

(** The nearest number of hundredths is unique. *)
Lemma nearest_cents_unique (m : positive) (e : Z) (n n' : Z) :
  Spec.nearest_cents m e n -> Spec.nearest_cents m e n' -> n = n'.
Proof.
  unfold Spec.nearest_cents. intros [H1 H2] [H1' H2'].
  assert (HB : (0 < 2 ^ Z.max 0 (- e))%Z) by (apply Z.pow_pos_nonneg; lia).
  set (B := (2 ^ Z.max 0 (- e))%Z) in *.
  set (A := (200 * Z.pos m * 2 ^ Z.max 0 e)%Z) in *.
  nia.
Qed.

(** [parseFloat(x.toFixed(2))] is [x] rounded to 2 decimal places. *)
Lemma toFixed2_round2 (x : float) : Spec.round2 x (toFixed2 x).
Proof.
  unfold Spec.round2, toFixed2.
  destruct (Prim2SF x) as [s|s| |s m e] eqn:E; try reflexivity.
  destruct (70368744177664 <=? PrimFloat.abs x)%float eqn:Hle; [reflexivity|].
  destruct (below_2_46 x s m e E Hle) as [He Hm].
  exists (round_cents m e). split; [apply round_cents_nearest|].
  split; [apply round_cents_range; assumption | reflexivity].
Qed.

(** Rounding to 2 decimal places determines its result. *)
Lemma round2_unique (x a b : float) : Spec.round2 x a -> Spec.round2 x b -> a = b.
Proof.
  unfold Spec.round2.
  destruct (Prim2SF x) as [s|s| |s m e]; try congruence.
  destruct (70368744177664 <=? PrimFloat.abs x)%float; [congruence|].
  intros (n & Hn & _ & ->) (n' & Hn' & _ & ->).
  rewrite (nearest_cents_unique m e n n' Hn Hn'). reflexivity.
Qed.

End RoundingToCents.

(** ** Line items and the editor *)

Lemma Sample_uuid_inj : Inj (=) (=) Sample.uuid.
Proof.
  intros x y H. unfold Sample.uuid in H.
  apply (inj (String.app "uuid-")) in H. apply (inj pretty) in H. exact H.
Qed.

Section Editor.
Context (uuid : nat -> string) (parseFloat : string -> float).

(** C5, as stated, fails: the default line item has quantity 1, not 0. *)
Lemma C5_counterexample :
  let item := fst (getDefaultItem Sample.uuid 0) in
  LineItem.qty item = 1%float
  /\ ~ (LineItem.qty item = 0%float /\ LineItem.unitPrice item = 0%float
        /\ LineItem.amount item = 0%float).
Proof.
  split; [reflexivity|]. intros [E _]. revert E. apply float_neq. reflexivity.
Qed.

(** C5 (amended). [getDefaultItem()] returns a line item whose id is a new
    draw from the UUID generator (so, the generator never repeating, different
    from every id drawn before and from the id of every later call), whose
    qty is 1, whose unitPrice and amount are 0, the amount being the rounded
    product of the two, and whose requirement and remark are empty. *)
Theorem C5_default_item (n : nat) :
  let item := fst (getDefaultItem uuid n) in
  LineItem.id item = uuid n
  /\ snd (getDefaultItem uuid n) = S n
  /\ LineItem.qty item = 1%float
  /\ LineItem.unitPrice item = 0%float
  /\ LineItem.amount item = 0%float
  /\ LineItem.amount item = toFixed2 (LineItem.qty item * LineItem.unitPrice item)
  /\ LineItem.requirement item = ""
  /\ LineItem.remark item = ""
  /\ (Inj (=) (=) uuid ->
      forall k, k <> n ->
        uuid k <> LineItem.id item
        /\ LineItem.id (fst (getDefaultItem uuid k)) <> LineItem.id item).
Proof.
  cbn. repeat split; intros E; apply H in E; congruence.
Qed.

Lemma lookup_map {A B} (f : A -> B) (l : list A) (i : nat) :
  map f l !! i = f <$> l !! i.
Proof.
  revert i. induction l as [|x l IH]; intros [|i]; simpl; auto.
Qed.

(** C4. Editing a numeric property of a line item through
    [handleItemChange] stores the parsed value, 0 when the input does not
    parse (NaN), and sets the amount of that item to
    round(qty * unitPrice, 2) of its new qty and unitPrice, whatever the
    property named, [amount] included: the amount is the product rounded
    to 2 decimal places, that is, for a product below 2^46 in magnitude, the
    number n / 100 of the one whole number n of hundredths with
    n - 1/2 <= 100 * |product| < n + 1/2, signed as the product, and no
    other number is. The other items are untouched, and a text edit through
    [handleTextareaChange] changes neither qty, unitPrice nor amount of any
    item. *)
Theorem C4_item_edit_recomputes_amount
    (itemId : string) (field : ItemNumberField) (value : string)
    (prev : Quotation) (i : nat) (item : LineItem) :
  Quotation.items prev !! i = Some item ->
  let next := handleItemChange parseFloat itemId field value prev in
  let v := or_zero (parseFloat value) in
  (LineItem.id item = itemId ->
   exists item',
     Quotation.items next !! i = Some item'
     /\ LineItem.qty item'
        = match field with F_qty => v | _ => LineItem.qty item end
     /\ LineItem.unitPrice item'
        = match field with F_unitPrice => v | _ => LineItem.unitPrice item end
     /\ LineItem.amount item'
        = toFixed2 (LineItem.qty item' * LineItem.unitPrice item')
     /\ Spec.round2 (LineItem.qty item' * LineItem.unitPrice item')
          (LineItem.amount item')
     /\ (forall a,
           Spec.round2 (LineItem.qty item' * LineItem.unitPrice item') a ->
           a = LineItem.amount item')
     /\ LineItem.id item' = LineItem.id item
     /\ LineItem.requirement item' = LineItem.requirement item
     /\ LineItem.remark item' = LineItem.remark item)
  /\ (LineItem.id item <> itemId -> Quotation.items next !! i = Some item)
  /\ (PrimFloat.is_nan (parseFloat value) = true -> v = 0%float)
  /\ (forall tfield tvalue,
        exists item',
          Quotation.items (handleTextareaChange itemId tfield tvalue prev) !! i
          = Some item'
          /\ LineItem.qty item' = LineItem.qty item
          /\ LineItem.unitPrice item' = LineItem.unitPrice item
          /\ LineItem.amount item' = LineItem.amount item).
Proof.
  intros Hi next v. repeat split.
  - intros Hid. unfold next, handleItemChange. cbn.
    rewrite lookup_map, Hi. cbn.
    apply String.eqb_eq in Hid. rewrite Hid.
    eexists. split; [reflexivity|].
    destruct field; repeat split;
      try apply toFixed2_round2;
      intros a Ha; exact (round2_unique _ _ _ Ha (toFixed2_round2 _)).
  - intros Hid. unfold next, handleItemChange. cbn.
    rewrite lookup_map, Hi. cbn.
    apply String.eqb_neq in Hid. rewrite Hid. reflexivity.
  - intros Hnan. unfold v, or_zero, truthy. rewrite Hnan. reflexivity.
  - intros tfield tvalue. unfold handleTextareaChange. cbn.
    rewrite lookup_map, Hi. cbn.
    destruct (String.eqb (LineItem.id item) itemId).
    + eexists. split; [reflexivity|]. destruct tfield; repeat split.
    + eexists. split; [reflexivity|]. repeat split.
Qed.

Lemma filter_other_ids_length (id : string) (l : list LineItem) :
  NoDup (map LineItem.id l) ->
  length l <=
    S (length (List.filter (fun item => negb (String.eqb (LineItem.id item) id)) l)).
Proof.
  induction l as [|a l IH]; simpl; intros Hnd; [lia|].
  apply NoDup_cons in Hnd as [Hnotin Hnd].
  destruct (String.eqb_spec (LineItem.id a) id) as [E|E]; simpl.
  - assert (Hsame :
      List.filter (fun item => negb (String.eqb (LineItem.id item) id)) l = l).
    { clear IH Hnd. induction l as [|b l IHl]; simpl; [reflexivity|].
      cbn [map] in Hnotin.
      rewrite not_elem_of_cons in Hnotin. destruct Hnotin as [Hne Hnotin].
      destruct (String.eqb_spec (LineItem.id b) id) as [E'|E']; simpl.
      - congruence.
      - f_equal. apply IHl, Hnotin. }
    rewrite Hsame. lia.
  - specialize (IH Hnd). lia.
Qed.

Lemma filter_ids_sublist (p : LineItem -> bool) (l : list LineItem) :
  NoDup (map LineItem.id l) -> NoDup (map LineItem.id (List.filter p l)).
Proof.
  induction l as [|a l IH]; simpl; intros Hnd; [constructor|].
  apply NoDup_cons in Hnd as [Hnotin Hnd].
  destruct (p a); simpl; [|auto].
  apply NoDup_cons. split; [|auto].
  intros Hin. apply Hnotin.
  apply list_elem_of_fmap in Hin as (b & Hb & Hin).
  apply list_elem_of_fmap. exists b. split; [exact Hb|].
  apply list_elem_of_In. apply list_elem_of_In in Hin.
  apply filter_In in Hin. tauto.
Qed.

Lemma handleRemoveItem_well_formed (id : string) (q : Quotation) :
  Spec.well_formed q -> Spec.well_formed (handleRemoveItem id q).
Proof.
  intros [Hne Hnd]. unfold handleRemoveItem.
  destruct (Nat.ltb_spec 1 (length (Quotation.items q))) as [Hlen|Hlen].
  - split; cbn.
    + pose proof (filter_other_ids_length id _ Hnd) as Hl.
      intros E. rewrite E in Hl. simpl in Hl. lia.
    + apply filter_ids_sublist, Hnd.
  - split; assumption.
Qed.

Lemma map_keeps_ids (f : LineItem -> LineItem) (l : list LineItem) :
  (forall item, LineItem.id (f item) = LineItem.id item) ->
  map LineItem.id (map f l) = map LineItem.id l.
Proof.
  intros Hf. induction l as [|a l IH]; simpl; [reflexivity|].
  rewrite Hf, IH. reflexivity.
Qed.

Lemma handleItemChange_ids itemId field value (q : Quotation) :
  map LineItem.id (Quotation.items (handleItemChange parseFloat itemId field value q))
  = map LineItem.id (Quotation.items q).
Proof.
  unfold handleItemChange. cbn. apply map_keeps_ids. intros item.
  destruct (String.eqb (LineItem.id item) itemId); reflexivity.
Qed.

Lemma handleTextareaChange_ids itemId field value (q : Quotation) :
  map LineItem.id (Quotation.items (handleTextareaChange itemId field value q))
  = map LineItem.id (Quotation.items q).
Proof.
  unfold handleTextareaChange. cbn. apply map_keeps_ids. intros item.
  destruct (String.eqb (LineItem.id item) itemId); reflexivity.
Qed.

Lemma same_ids_well_formed (q q' : Quotation) :
  map LineItem.id (Quotation.items q') = map LineItem.id (Quotation.items q) ->
  Spec.well_formed q -> Spec.well_formed q'.
Proof.
  intros E [Hne Hnd]. split.
  - intros E'. rewrite E' in E. destruct (Quotation.items q); [congruence|discriminate].
  - rewrite E. exact Hnd.
Qed.

Lemma editor_step_well_formed (a : EditorAction) (q : Quotation) (n : nat) :
  Spec.well_formed q ->
  uuid n ∉ map LineItem.id (Quotation.items q) ->
  Spec.well_formed (fst (editor_step uuid parseFloat a q n)).
Proof.
  intros Hwf Hfresh.
  destruct a as [e|itemId field value|itemId field value| |id]; cbn.
  - destruct e as [name value|name value]; exact Hwf.
  - exact (same_ids_well_formed q _ (handleItemChange_ids itemId field value q) Hwf).
  - exact (same_ids_well_formed q _ (handleTextareaChange_ids itemId field value q) Hwf).
  - destruct Hwf as [Hne Hnd]. split; cbn.
    + destruct (Quotation.items q); discriminate.
    + rewrite map_app. cbn. apply NoDup_app. split; [exact Hnd|]. split.
      * intros x Hx Hx'. apply list_elem_of_singleton in Hx'. subst x. auto.
      * apply NoDup_singleton.
  - apply (handleRemoveItem_well_formed id q Hwf).
Qed.

(** C3. [handleRemoveItem] leaves a quotation with a single item as it is;
    on a longer list it removes exactly the items with the given id, keeping
    the others in order; on a quotation of the data model (non-empty items
    with pairwise distinct ids) the result is again such a quotation, so at
    least one item remains; and every editor action, starting with the new
    quotation of [getNewQuotation], preserves that the items are non-empty
    with distinct ids, an added item taking an id not yet in use. *)
Theorem C3_removeItem_keeps_an_item (id : string) (q : Quotation) :
  (length (Quotation.items q) = 1 -> handleRemoveItem id q = q)
  /\ (1 < length (Quotation.items q) ->
      Quotation.items (handleRemoveItem id q)
      = List.filter (fun item => negb (String.eqb (LineItem.id item) id))
          (Quotation.items q))
  /\ (Spec.well_formed q ->
      Spec.well_formed (handleRemoveItem id q)
      /\ 1 <= length (Quotation.items (handleRemoveItem id q)))
  /\ (forall a n,
        Spec.well_formed q ->
        uuid n ∉ map LineItem.id (Quotation.items q) ->
        Spec.well_formed (fst (editor_step uuid parseFloat a q n)))
  /\ (forall toLocaleDateString getFullYear now count n,
        Spec.well_formed
          (fst (getNewQuotation uuid toLocaleDateString getFullYear now count n))).
Proof.
  repeat split.
  - intros H. unfold handleRemoveItem. rewrite H. reflexivity.
  - intros H. unfold handleRemoveItem.
    destruct (Nat.ltb_spec 1 (length (Quotation.items q))); [reflexivity|lia].
  - apply handleRemoveItem_well_formed; assumption.
  - apply handleRemoveItem_well_formed; assumption.
  - pose proof (handleRemoveItem_well_formed id q H) as [Hne _].
    destruct (Quotation.items (handleRemoveItem id q)); [congruence|simpl; lia].
  - apply editor_step_well_formed; assumption.
  - apply editor_step_well_formed; assumption.
  - cbn. discriminate.
  - cbn. apply NoDup_singleton.
Qed.

End Editor.

(** The fourth identifier drawn differs from the third. *)
Lemma C5_default_item_witness :
  LineItem.id (fst (getDefaultItem Sample.uuid 3)) = "uuid-3"
  /\ Sample.uuid 2 <> LineItem.id (fst (getDefaultItem Sample.uuid 3)).
Proof.
  split; [reflexivity|].
  apply (C5_default_item Sample.uuid 3); [apply Sample_uuid_inj | lia].
Defined.

Lemma two_lines_well_formed : Spec.well_formed two_lines.
Proof.
  split; [discriminate|]. cbn.
  apply NoDup_cons. split; [|apply NoDup_singleton].
  apply not_elem_of_cons. split; [discriminate|apply not_elem_of_nil].
Defined.

(** Removing line "a" of two leaves line "b", which can no longer be
    removed. *)
Lemma C3_removeItem_keeps_an_item_witness :
  map LineItem.id (Quotation.items (handleRemoveItem "a" two_lines)) = ["b"]
  /\ handleRemoveItem "b" (handleRemoveItem "a" two_lines)
     = handleRemoveItem "a" two_lines
  /\ 1 <= length (Quotation.items (handleRemoveItem "a" two_lines)).
Proof.
  split; [reflexivity|]. split.
  - apply (C3_removeItem_keeps_an_item Sample.uuid Sample.parseFloat "b"
             (handleRemoveItem "a" two_lines)).
    reflexivity.
  - apply (C3_removeItem_keeps_an_item Sample.uuid Sample.parseFloat "a" two_lines).
    exact two_lines_well_formed.
Defined.

(** Setting the quantity of 2 x 1500 to "3" makes the amount 4500; setting
    the quantity of 1 x 0.125 to "3" makes the amount 0.38, the product
    0.375 lying midway between 37 and 38 hundredths. *)
Lemma C4_item_edit_recomputes_amount_witness :
  (exists item',
     Quotation.items (handleItemChange Sample.parseFloat "a" F_qty "3" two_lines) !! 0
     = Some item'
     /\ LineItem.qty item' = 3%float
     /\ LineItem.unitPrice item' = 1500%float
     /\ LineItem.amount item' = 4500%float)
  /\ (exists item',
        Quotation.items
          (handleItemChange Sample.parseFloat "a" F_qty "3" priced_in_eighths) !! 0
        = Some item'
        /\ LineItem.qty item' = 3%float
        /\ LineItem.unitPrice item' = 0.125%float
        /\ LineItem.amount item' = 0.38%float
        /\ Spec.round2 0.375 (LineItem.amount item')).
Proof.
  split.
  - destruct (C4_item_edit_recomputes_amount Sample.parseFloat "a" F_qty "3"
                two_lines 0 (LineItem.mk "a" "Stage" 2 1500 "" 3000) eq_refl)
      as [H _].
    destruct (H eq_refl) as (item' & Hl & Hq & Hp & Ha & _).
    exists item'. split; [exact Hl|]. split; [exact Hq|]. split; [exact Hp|].
    rewrite Ha, Hq, Hp. vm_compute. reflexivity.
  - destruct (C4_item_edit_recomputes_amount Sample.parseFloat "a" F_qty "3"
                priced_in_eighths 0 (LineItem.mk "a" "Ribbon" 1 0.125 "" 0.13) eq_refl)
      as [H _].
    destruct (H eq_refl) as (item' & Hl & Hq & Hp & Ha & Hr & _).
    exists item'. split; [exact Hl|]. split; [exact Hq|]. split; [exact Hp|].
    split.
    + rewrite Ha, Hq, Hp. vm_compute. reflexivity.
    + rewrite Hq, Hp in Hr.
      change (Sample.parseFloat "3") with 3%float in Hr.
      change (or_zero 3) with 3%float in Hr.
      change (3 * 0.125)%float with 0.375%float in Hr. exact Hr.
Defined.

(** ** Quotation numbers *)

Section Numbering.
Context (uuid : nat -> string) (toLocaleDateString : Z -> string)
  (getFullYear : Z -> N).

Lemma digit_value_pretty_N_char (d : N) :
  (d < 10)%N -> digit_value (pretty_N_char d) = d.
Proof.
  intros H.
  assert (d = 0 \/ d = 1 \/ d = 2 \/ d = 3 \/ d = 4 \/ d = 5 \/ d = 6
          \/ d = 7 \/ d = 8 \/ d = 9)%N as Hd by lia.
  repeat (destruct Hd as [-> | Hd]; [reflexivity|]). subst d. reflexivity.
Qed.

Lemma parseInt_go_pretty_N_go (x : N) :
  forall s, exists k, forall acc,
    parseInt_go acc (pretty_N_go x s) = parseInt_go (acc * k + x) s.
Proof.
  induction (N.lt_wf_0 x) as [x _ IH]. intros s.
  destruct (N.eq_dec x 0%N) as [-> | Hx].
  - exists 1%N. intros acc. rewrite pretty_N_go_0. f_equal. lia.
  - destruct (IH (x `div` 10)%N) with (s := String (pretty_N_char (x `mod` 10)) s)
      as [k Hk].
    { apply N.div_lt; lia. }
    exists (10 * k)%N. intros acc.
    rewrite pretty_N_go_step by lia. rewrite Hk. simpl.
    rewrite digit_value_pretty_N_char by (apply N.mod_lt; lia).
    f_equal. pose proof (N.div_mod x 10). lia.
Qed.

(** Reading back the decimal digits of an integer gives the integer. *)
Lemma decimal_value_String (n : N) : decimal_value (String_ n) = n.
Proof.
  unfold decimal_value, String_, pretty, pretty_N.
  destruct (decide (n = 0%N)) as [-> | Hn]; [reflexivity|].
  destruct (parseInt_go_pretty_N_go n "") as [k Hk]. rewrite Hk. simpl. lia.
Qed.

Lemma parseInt_go_zeros (k : nat) (s : string) :
  parseInt_go 0 (zeros k +:+ s) = parseInt_go 0 s.
Proof. induction k as [|k IH]; simpl; [reflexivity | exact IH]. Qed.

Lemma decimal_value_padStart (len : nat) (s : string) :
  decimal_value (padStart len s) = decimal_value s.
Proof. unfold decimal_value, padStart. apply parseInt_go_zeros. Qed.

Lemma length_app_string (s t : string) :
  String.length (s +:+ t) = String.length s + String.length t.
Proof. induction s as [|c s IH]; simpl; [reflexivity | rewrite IH; reflexivity]. Qed.

Lemma length_zeros (k : nat) : String.length (zeros k) = k.
Proof. induction k as [|k IH]; simpl; [reflexivity | rewrite IH; reflexivity]. Qed.

Lemma length_padStart (len : nat) (s : string) :
  len <= String.length (padStart len s).
Proof. unfold padStart. rewrite length_app_string, length_zeros. lia. Qed.

Lemma max_sequence_cons (q : Quotation) (l : list Quotation) :
  Spec.max_sequence (q :: l)
  = match Spec.sequence_number q with
    | Some k => N.max k (Spec.max_sequence l)
    | None => Spec.max_sequence l
    end.
Proof.
  unfold Spec.max_sequence. cbn [omap list_omap].
  destruct (Spec.sequence_number q); reflexivity.
Qed.

Lemma pow_53_1024 : (2 ^ 53 < 2 ^ 1024)%N.
Proof. apply N.pow_lt_mono_r; lia. Qed.

Lemma size_below_2_53 (n : N) : (n < 2 ^ 53)%N -> (N.size n <= 53)%N.
Proof.
  intros H. destruct (N.le_gt_cases (N.size n) 53) as [Hle|Hgt]; [exact Hle|].
  exfalso. pose proof (N.size_le n) as Hs.
  assert (H54 : (2 ^ 54 <= 2 ^ N.size n)%N) by (apply N.pow_le_mono_r; lia).
  change (2 ^ 54)%N with (2 * 2 ^ 53)%N in H54.
  rewrite N.succ_double_spec in Hs. lia.
Qed.

(** Every integer up to [2^53] is a number of its own. *)
Lemma binary64_exact (n : N) : (n <= 2 ^ 53)%N -> binary64 n = Whole n.
Proof.
  intros H. destruct (N.eq_dec n (2 ^ 53)%N) as [-> | Hne]; [vm_compute; reflexivity|].
  assert (Hlt : (n < 2 ^ 53)%N) by lia.
  pose proof (size_below_2_53 n Hlt) as Hs. pose proof pow_53_1024 as Hp.
  unfold binary64.
  replace (N.size n - 53)%N with 0%N by lia.
  rewrite N.shiftr_0_r, N.shiftl_0_r. cbn [N.eqb].
  destruct (N.leb_spec (2 ^ 1024) n) as [Hbig|_]; [lia | reflexivity].
Qed.

Lemma Number_toString_add_one (m : N) :
  (m < 2 ^ 53)%N -> Number_toString (add_one (Whole m)) = String_ (m + 1).
Proof.
  intros H. cbn [add_one]. rewrite binary64_exact by lia. cbn [Number_toString].
  destruct (N.leb_spec (m + 1) (2 ^ 53)) as [_|Hgt]; [reflexivity | lia].
Qed.

(** Below [2^53] the [reduce] of [handleNewQuotation] computes the largest
    sequence number. *)
Lemma fold_max_sequence (quotations : list Quotation) (acc : N) :
  Forall (fun q => forall k, Spec.sequence_number q = Some k -> (k < 2 ^ 53)%N)
    quotations ->
  fold_left
    (fun max q =>
       match Quotation.quotationNumber q ≫= match_trailing_digits with
       | Some digits => Math_max_whole max (parseInt digits)
       | None => max
       end)
    quotations (Whole acc)
  = Whole (N.max acc (Spec.max_sequence quotations)).
Proof.
  intros H. revert acc. induction H as [|q l Hq _ IH]; intros acc.
  - cbn. f_equal. lia.
  - cbn [fold_left]. rewrite max_sequence_cons.
    unfold Spec.sequence_number in *.
    destruct (Quotation.quotationNumber q ≫= match_trailing_digits) as [digits|];
      cbn [fmap option_fmap option_map] in *.
    + unfold parseInt. rewrite binary64_exact by (specialize (Hq _ eq_refl); lia).
      cbn [Math_max_whole]. rewrite IH. f_equal. lia.
    + rewrite IH. reflexivity.
Qed.

Lemma max_sequence_upper (quotations : list Quotation) (q : Quotation) (k : N) :
  q ∈ quotations -> Spec.sequence_number q = Some k ->
  (k <= Spec.max_sequence quotations)%N.
Proof.
  induction quotations as [|q0 l IH]; intros Hin Hk.
  - apply elem_of_nil in Hin. contradiction.
  - rewrite max_sequence_cons.
    apply elem_of_cons in Hin as [-> | Hin].
    + rewrite Hk. lia.
    + specialize (IH Hin Hk). destruct (Spec.sequence_number q0); lia.
Qed.

Lemma max_sequence_none (quotations : list Quotation) :
  Forall (fun q => Spec.sequence_number q = None) quotations ->
  Spec.max_sequence quotations = 0%N.
Proof.
  induction 1 as [|q l Hq _ IH].
  - reflexivity.
  - rewrite max_sequence_cons, Hq. exact IH.
Qed.

Lemma max_sequence_below (quotations : list Quotation) :
  Forall (fun q => forall k, Spec.sequence_number q = Some k -> (k < 2 ^ 53)%N)
    quotations ->
  (Spec.max_sequence quotations < 2 ^ 53)%N.
Proof.
  induction 1 as [|q l Hq _ IH].
  - reflexivity.
  - rewrite max_sequence_cons. destruct (Spec.sequence_number q) as [k|]; [|exact IH].
    specialize (Hq k eq_refl). lia.
Qed.

(** The rounding written out in [binary64] is the rounding of the
    primitive floats: 2^53 + 1 is held as 2^53, 2^53 + 3 as 2^53 + 4. *)
Lemma binary64_as_floats :
  binary64 9007199254740993 = Whole 9007199254740992
  /\ of_uint63 9007199254740993 = of_uint63 9007199254740992
  /\ binary64 9007199254740995 = Whole 9007199254740996
  /\ of_uint63 9007199254740995 = of_uint63 9007199254740996
  /\ binary64 (2 ^ 62 + 2 ^ 9 + 1) = Whole (2 ^ 62 + 2 ^ 10)
  /\ of_uint63 (Uint63.of_Z (2 ^ 62 + 2 ^ 9 + 1)) = of_uint63 (Uint63.of_Z (2 ^ 62 + 2 ^ 10)).
Proof. repeat split; vm_compute; reflexivity. Qed.

(** Numbers beyond [2^53] as [String] writes them, and the digits that the
    numbering reads back from them. *)
Lemma large_numbers_written :
  Number_toString (binary64 (2 ^ 64)) = "18446744073709552000"
  /\ Number_toString (binary64 (10 ^ 21)) = "1e+21"
  /\ Number_toString (binary64 (10 ^ 23)) = "1e+23"
  /\ Number_toString (binary64 (2 ^ 70)) = "1.1805916207174113e+21"
  /\ Number_toString (binary64 (10 ^ 400)) = "Infinity"
  /\ match_trailing_digits ("QT-2024-" +:+ Number_toString (binary64 (10 ^ 21)))
     = Some "21".
Proof. repeat split; vm_compute; reflexivity. Qed.

(** Below [2^53] the number of the new quotation is max + 1 in decimal. *)
Lemma new_number_below (now : Z) (quotations : list Quotation) (n : nat) :
  Forall (fun q => forall k, Spec.sequence_number q = Some k -> (k < 2 ^ 53)%N)
    quotations ->
  Quotation.quotationNumber
    (fst (handleNewQuotation uuid toLocaleDateString getFullYear now quotations n))
  = Some ("QT-" +:+ String_ (getFullYear now) +:+ "-"
          +:+ padStart 4 (String_ (Spec.max_sequence quotations + 1))).
Proof.
  intros H. unfold handleNewQuotation.
  rewrite (fold_max_sequence _ _ H), N.max_0_l.
  transitivity
    (Some ("QT-" +:+ String_ (getFullYear now) +:+ "-"
           +:+ padStart 4
                 (Number_toString (add_one (Whole (Spec.max_sequence quotations))))));
    [reflexivity|].
  rewrite Number_toString_add_one by (apply max_sequence_below, H). reflexivity.
Qed.

(** C2, as stated, fails: sequence numbers are binary64 numbers, and from
    [2^53] on max + 1 need not be a number of its own. With an existing
    quotation numbered QT-2024-9007199254740992 the sum
    9007199254740992 + 1 is 9007199254740992 again, and the new quotation
    gets the number that exists already, not ...993. *)
Lemma C2_counterexample :
  let existing := [numbered (Some "QT-2024-9007199254740992")] in
  let q := fst (handleNewQuotation Sample.uuid Sample.toLocaleDateString
                  Sample.getFullYear june_2024 existing 0) in
  Spec.max_sequence existing = 9007199254740992%N
  /\ Quotation.quotationNumber q = Some "QT-2024-9007199254740992"
  /\ Quotation.quotationNumber q
     <> Some ("QT-" +:+ String_ (Sample.getFullYear june_2024) +:+ "-"
              +:+ padStart 4 (String_ (Spec.max_sequence existing + 1))).
Proof.
  split; [vm_compute; reflexivity|]. split; [vm_compute; reflexivity|].
  vm_compute. discriminate.
Qed.

(** C2 (amended). For every collection whose sequence numbers, the numbers
    parsed from the trailing digit runs of the existing quotation numbers,
    are below 2^53, the new quotation's number is "QT-", the current year,
    "-" and the decimal digits of max + 1 padded with zeros to at least four
    characters, where max is the largest sequence number, quotations
    without a trailing digit run (or without a number) being ignored, and 0
    when there is none: the new sequence number exceeds every existing one,
    reads back as max + 1, and is 0001 when no existing number parses. *)
Theorem C2_new_quotation_number (now : Z) (quotations : list Quotation) (n : nat) :
  Forall (fun q0 => forall k, Spec.sequence_number q0 = Some k -> (k < 2 ^ 53)%N)
    quotations ->
  let q := fst (handleNewQuotation uuid toLocaleDateString getFullYear now quotations n) in
  let next := (Spec.max_sequence quotations + 1)%N in
  Quotation.quotationNumber q
  = Some ("QT-" +:+ String_ (getFullYear now) +:+ "-" +:+ padStart 4 (String_ next))
  /\ (forall q0 k, q0 ∈ quotations -> Spec.sequence_number q0 = Some k -> (k < next)%N)
  /\ decimal_value (padStart 4 (String_ next)) = next
  /\ parseInt (padStart 4 (String_ next)) = Whole next
  /\ 4 <= String.length (padStart 4 (String_ next))
  /\ (String.length (String_ next) < 4 -> String.length (padStart 4 (String_ next)) = 4)
  /\ (Forall (fun q0 => Spec.sequence_number q0 = None) quotations ->
      Quotation.quotationNumber q
      = Some ("QT-" +:+ String_ (getFullYear now) +:+ "-0001")).
Proof.
  intros Hb q next.
  assert (E : Quotation.quotationNumber q
              = Some ("QT-" +:+ String_ (getFullYear now) +:+ "-"
                      +:+ padStart 4 (String_ next))).
  { apply new_number_below, Hb. }
  assert (Hv : decimal_value (padStart 4 (String_ next)) = next).
  { rewrite decimal_value_padStart. apply decimal_value_String. }
  split; [exact E|]. split; [|split; [|split; [|split; [|split]]]].
  - intros q0 k Hin Hk. pose proof (max_sequence_upper _ _ _ Hin Hk). unfold next. lia.
  - exact Hv.
  - unfold parseInt. rewrite Hv. apply binary64_exact.
    pose proof (max_sequence_below _ Hb). unfold next. lia.
  - apply length_padStart.
  - intros H. unfold padStart. rewrite length_app_string, length_zeros. lia.
  - intros H. rewrite E. unfold next. rewrite (max_sequence_none _ H). reflexivity.
Qed.

End Numbering.

(** The numbering examples of the specification. *)
Lemma C2_new_quotation_number_witness :
  Quotation.quotationNumber
    (fst (handleNewQuotation Sample.uuid Sample.toLocaleDateString
            Sample.getFullYear june_2024
            [numbered (Some "QT-2024-0001"); numbered (Some "QT-2024-0007")] 0))
  = Some "QT-2024-0008"
  /\ Quotation.quotationNumber
       (fst (handleNewQuotation Sample.uuid Sample.toLocaleDateString
               Sample.getFullYear june_2024
               [numbered (Some "Quote A"); numbered None; numbered (Some "QT-")] 0))
     = Some "QT-2024-0001"
  /\ Quotation.quotationNumber
       (fst (handleNewQuotation Sample.uuid Sample.toLocaleDateString
               Sample.getFullYear june_2024 [] 0))
     = Some "QT-2024-0001".
Proof.
  split; [|split].
  - destruct (C2_new_quotation_number Sample.uuid Sample.toLocaleDateString
                Sample.getFullYear june_2024
                [numbered (Some "QT-2024-0001"); numbered (Some "QT-2024-0007")] 0)
      as [E _].
    + repeat (apply List.Forall_cons;
              [intros k Hk; vm_compute in Hk; injection Hk as <-; reflexivity|]).
      apply List.Forall_nil.
    + rewrite E. vm_compute. reflexivity.
  - apply (C2_new_quotation_number Sample.uuid Sample.toLocaleDateString
             Sample.getFullYear june_2024
             [numbered (Some "Quote A"); numbered None; numbered (Some "QT-")] 0).
    + repeat (apply List.Forall_cons; [intros k Hk; vm_compute in Hk; discriminate Hk|]).
      apply List.Forall_nil.
    + repeat constructor.
  - apply (C2_new_quotation_number Sample.uuid Sample.toLocaleDateString
             Sample.getFullYear june_2024 [] 0); constructor.
Defined.

(** ** The dashboard *)

Section DashboardFacts.
Context (toLowerCase : string -> string).

Lemma prefix_app (t s : string) :
  String.prefix t s = true <-> exists post, s = t +:+ post.
Proof.
  revert s. induction t as [|c t IH]; intros [|d s]; simpl.
  - split; [intros _; exists ""; reflexivity | reflexivity].
  - split; [intros _; exists (String d s); reflexivity | reflexivity].
  - split; [discriminate | intros [post H]; discriminate].
  - destruct (ascii_dec c d) as [-> | Hcd].
    + rewrite IH. split; intros [post H]; exists post.
      * rewrite H. reflexivity.
      * injection H as H. exact H.
    + split; [discriminate | intros [post H]; injection H as H1 H2; congruence].
Qed.

(** [includes] decides the occurrence of a substring. *)
Lemma includes_spec (s t : string) :
  includes s t = true <-> exists pre post, s = pre +:+ t +:+ post.
Proof.
  induction s as [|c s IH].
  - cbn [includes]. rewrite orb_false_r, prefix_app. split.
    + intros [post H]. exists "", post. exact H.
    + intros (pre & post & H). destruct pre as [|d pre]; [|discriminate].
      exists post. exact H.
  - cbn [includes]. rewrite orb_true_iff, prefix_app, IH. split.
    + intros [[post H] | (pre & post & H)].
      * exists "", post. exact H.
      * exists (String c pre), post. rewrite H. reflexivity.
    + intros (pre & post & H). destruct pre as [|d pre].
      * left. exists post. exact H.
      * right. injection H as _ H. exists pre, post. exact H.
Qed.

Lemma lower_includes_spec (s : option string) (t : string) :
  lower_includes toLowerCase s (toLowerCase t) = true <-> Spec.contains_ci toLowerCase s t.
Proof.
  unfold Spec.contains_ci. destruct s as [s|]; simpl.
  - rewrite includes_spec. split.
    + intros (pre & post & H). exists s, pre, post. auto.
    + intros (s0 & pre & post & [= ->] & H). exists pre, post. exact H.
  - split; [discriminate | intros (s0 & _ & _ & H & _); discriminate].
Qed.

Lemma matchesSearch_spec (t : string) (q : Quotation) :
  matchesSearch toLowerCase (toLowerCase t) q = true <-> Spec.matches toLowerCase t q.
Proof.
  unfold matchesSearch, Spec.matches.
  rewrite orb_true_iff, !lower_includes_spec. reflexivity.
Qed.

Lemma includes_empty (s : string) : includes s "" = true.
Proof. destruct s; reflexivity. Qed.

Lemma matchesSearch_empty (q : Quotation) :
  matchesSearch toLowerCase "" q = true
  <-> is_Some (Quotation.clientName q) \/ is_Some (Quotation.quotationNumber q).
Proof.
  unfold matchesSearch, lower_includes. rewrite orb_true_iff.
  destruct (Quotation.clientName q), (Quotation.quotationNumber q);
    rewrite ?includes_empty; split; intros H; auto;
    destruct H as [H|H]; try discriminate; destruct H; discriminate.
Qed.

Lemma sort_insert_perm {A} (cmp : A -> A -> Z) (x : A) (l : list A) :
  sort_insert cmp x l ≡ₚ x :: l.
Proof.
  induction l as [|y l IH]; simpl; [reflexivity|].
  destruct (cmp x y <=? 0)%Z; [reflexivity|].
  rewrite IH. apply perm_swap.
Qed.

Lemma Array_sort_perm {A} (comparefn : A -> A -> option Z) (l : list A) :
  Array_sort comparefn l ≡ₚ l.
Proof.
  unfold Array_sort. induction l as [|x l IH]; simpl; [reflexivity|].
  rewrite sort_insert_perm, IH. reflexivity.
Qed.

(** A stable sort: the entries that satisfy [p] keep their order whenever
    the comparator never puts one of them after another. *)
Lemma sort_insert_stable {A} (cmp : A -> A -> Z) (p : A -> bool) (x : A) (l : list A) :
  (forall y, p x = true -> p y = true -> (cmp x y <= 0)%Z) ->
  List.filter p (sort_insert cmp x l) = List.filter p (x :: l).
Proof.
  intros H. induction l as [|y l IH]; [reflexivity|].
  cbn [sort_insert]. destruct (Z.leb_spec (cmp x y) 0) as [Hle|Hgt]; [reflexivity|].
  cbn [List.filter] in *. rewrite IH.
  destruct (p x) eqn:Hx; [|reflexivity].
  destruct (p y) eqn:Hy; [|reflexivity].
  specialize (H y eq_refl Hy). lia.
Qed.

Lemma Array_sort_stable {A} (comparefn : A -> A -> option Z) (p : A -> bool)
    (l : list A) :
  (forall x y, p x = true -> p y = true -> (default 0%Z (comparefn x y) <= 0)%Z) ->
  List.filter p (Array_sort comparefn l) = List.filter p l.
Proof.
  intros H. unfold Array_sort. induction l as [|x l IH]; [reflexivity|].
  cbn [fold_right]. rewrite sort_insert_stable by (intros y; apply H).
  cbn [List.filter]. rewrite IH. reflexivity.
Qed.

(** With a comparator that answers "equal" throughout, the sort moves
    nothing. *)
Lemma Array_sort_all_equal {A} (comparefn : A -> A -> option Z) (l : list A) :
  (forall x y, In x l -> In y l -> default 0%Z (comparefn x y) = 0%Z) ->
  Array_sort comparefn l = l.
Proof.
  unfold Array_sort. induction l as [|x l IH]; intros H; [reflexivity|].
  cbn [fold_right]. rewrite IH by (intros a b Ha Hb; apply H; right; assumption).
  destruct l as [|y l]; [reflexivity|].
  cbn [sort_insert]. rewrite (H x y) by (simpl; auto). reflexivity.
Qed.

End DashboardFacts.

Section DashboardStatistics.
Context (toLowerCase : string -> string).

Lemma filter_status_length (s : string) (l : list Quotation) :
  length (List.filter (fun q => String.eqb (Quotation.status q) s) l)
  = Spec.count_status s l.
Proof.
  induction l as [|q l IH]; simpl; [reflexivity|].
  destruct (String.eqb_spec (Quotation.status q) s) as [E|E];
    destruct (decide (Quotation.status q = s)); try contradiction; simpl; auto.
Qed.

Lemma truthy_is_number (g : float) : truthy g && negb (isNaN g) = truthy g.
Proof.
  unfold truthy, isNaN.
  destruct (PrimFloat.is_nan g), (PrimFloat.is_zero g); reflexivity.
Qed.

Lemma fold_accepted_revenue (l : list Quotation) (acc : float) :
  fold_left
    (fun sum q =>
       (sum + match Quotation.grandTotal q with
              | Some g => if truthy g && negb (isNaN g) then g else 0
              | None => 0
              end)%float)
    (List.filter (fun q => String.eqb (Quotation.status q) "Accepted") l)
    acc
  = Spec.accepted_revenue_from acc l.
Proof.
  revert acc. induction l as [|q l IH]; intros acc; simpl; [reflexivity|].
  destruct (String.eqb_spec (Quotation.status q) "Accepted") as [E|E];
    destruct (decide (Quotation.status q = "Accepted")); try contradiction; simpl.
  - rewrite IH. f_equal. f_equal. unfold Spec.numeric, or_zero.
    destruct (Quotation.grandTotal q) as [g|]; [|reflexivity].
    rewrite truthy_is_number. reflexivity.
  - apply IH.
Qed.

Lemma elem_of_filteredQuotations (quotations : list Quotation) (t : string) (q : Quotation) :
  q ∈ filteredQuotations toLowerCase quotations t
  <-> q ∈ quotations /\ matchesSearch toLowerCase (toLowerCase t) q = true.
Proof.
  unfold filteredQuotations. rewrite (Array_sort_perm compare_createdAt).
  rewrite !list_elem_of_In, filter_In. reflexivity.
Qed.

Lemma filter_all {A} (p : A -> bool) (l : list A) :
  Forall (fun x => p x = true) l -> List.filter p l = l.
Proof.
  induction 1 as [|x l Hx _ IH]; simpl; [reflexivity|]. rewrite Hx, IH. reflexivity.
Qed.

(** C6, as stated, fails: with the empty search term a quotation that has
    neither a client name nor a quotation number is filtered out, so an
    accepted quotation of 75 is counted nowhere. *)
Lemma C6_counterexample :
  Dashboard Sample.toLowerCase nameless ""
  = ([], {| Stats.total := 0; Stats.pending := 0; Stats.accepted := 0;
            Stats.revenue := 0 |})
  /\ ~ (fst (Dashboard Sample.toLowerCase nameless "") ≡ₚ nameless).
Proof.
  split; [vm_compute; reflexivity|].
  intros H. apply Permutation_length in H. discriminate H.
Qed.

(** C6 (amended). For every collection and search term the dashboard keeps
    the quotations whose clientName or quotationNumber is present and
    contains the term without regard to letter case, that is, whose lower
    case contains the lower case of the term, lower case being whatever
    [toLowerCase] returns; terms with the same lower case give the same
    list and statistics; with the empty term the kept quotations are those
    that have a clientName or a quotationNumber (all of them when each has
    one). Over the kept list, total is its
    length, pending and accepted count the quotations whose status is
    'Pending' and 'Accepted', and revenue is round(sum, 2) of the grand totals
    of the accepted ones, an absent, NaN or zero grand total counting as 0. *)
Theorem C6_dashboard_statistics (quotations : list Quotation) (searchTerm : string) :
  let fq := fst (Dashboard toLowerCase quotations searchTerm) in
  let st := snd (Dashboard toLowerCase quotations searchTerm) in
  fq ≡ₚ List.filter (matchesSearch toLowerCase (toLowerCase searchTerm)) quotations
  /\ (forall q, matchesSearch toLowerCase (toLowerCase searchTerm) q = true
                <-> Spec.matches toLowerCase searchTerm q)
  /\ (forall q, q ∈ fq <-> q ∈ quotations /\ Spec.matches toLowerCase searchTerm q)
  /\ (forall t, toLowerCase t = toLowerCase searchTerm ->
                 Dashboard toLowerCase quotations t
                 = Dashboard toLowerCase quotations searchTerm)
  /\ (toLowerCase "" = "" -> searchTerm = "" ->
      forall q, q ∈ fq
                <-> q ∈ quotations
                    /\ (is_Some (Quotation.clientName q)
                        \/ is_Some (Quotation.quotationNumber q)))
  /\ (toLowerCase "" = "" -> searchTerm = "" ->
      Forall (fun q => is_Some (Quotation.clientName q)
                       \/ is_Some (Quotation.quotationNumber q)) quotations ->
      fq ≡ₚ quotations)
  /\ Stats.total st = length fq
  /\ Stats.pending st = Spec.count_status "Pending" fq
  /\ Stats.accepted st = Spec.count_status "Accepted" fq
  /\ Stats.revenue st = toFixed2 (Spec.accepted_revenue_from 0 fq).
Proof.
  intros fq st.
  split; [apply Array_sort_perm|].
  split; [intros q; apply matchesSearch_spec|].
  split.
  { intros q. unfold fq. cbn. rewrite elem_of_filteredQuotations, matchesSearch_spec.
    reflexivity. }
  split.
  { intros t Ht. unfold Dashboard, filteredQuotations. rewrite Ht. reflexivity. }
  split.
  { intros He -> q. unfold fq. cbn. rewrite elem_of_filteredQuotations.
    rewrite He, matchesSearch_empty. reflexivity. }
  split.
  { intros He -> H. unfold fq. cbn. unfold filteredQuotations.
    rewrite Array_sort_perm, He.
    rewrite filter_all; [reflexivity|].
    eapply Forall_impl; [exact H|]. intros q Hq. apply matchesSearch_empty, Hq. }
  split; [reflexivity|].
  split; [apply filter_status_length|].
  split; [apply filter_status_length|].
  unfold st. cbn. f_equal. apply fold_accepted_revenue.
Qed.

End DashboardStatistics.

(** The aggregator example of the specification, and two searches. *)
Lemma C6_dashboard_statistics_witness :
  snd (Dashboard Sample.toLowerCase four_statuses "")
  = {| Stats.total := 4; Stats.pending := 1; Stats.accepted := 2;
       Stats.revenue := 150 |}
  /\ snd (Dashboard Sample.toLowerCase four_statuses "qt-2024-0004")
     = {| Stats.total := 1; Stats.pending := 0; Stats.accepted := 1;
          Stats.revenue := 50 |}
  /\ snd (Dashboard Sample.toLowerCase four_statuses "DEEPA")
     = {| Stats.total := 1; Stats.pending := 0; Stats.accepted := 1;
          Stats.revenue := 50 |}
  /\ fst (Dashboard Sample.toLowerCase four_statuses "zzz") = []
  /\ fst (Dashboard Sample.toLowerCase four_statuses "") ≡ₚ four_statuses.
Proof.
  split; [vm_compute; reflexivity|].
  split; [vm_compute; reflexivity|].
  split; [vm_compute; reflexivity|].
  split; [vm_compute; reflexivity|].
  apply (C6_dashboard_statistics Sample.toLowerCase four_statuses "");
    [reflexivity | reflexivity |].
  unfold four_statuses.
  repeat (apply List.Forall_cons; [left; eexists; reflexivity|]).
  apply List.Forall_nil.
Defined.

Section DashboardOrder.
Context (toLowerCase : string -> string).

Lemma compare_createdAt_dated (a b : Quotation) (ta tb : Z) :
  Spec.created a = Some ta -> Spec.created b = Some tb ->
  compare_createdAt a b = Some (tb - ta)%Z.
Proof.
  unfold Spec.created, compare_createdAt. intros -> ->. reflexivity.
Qed.

Lemma compare_createdAt_undated (a b : Quotation) :
  Spec.created a = None \/ Spec.created b = None -> compare_createdAt a b = None.
Proof.
  unfold Spec.created, compare_createdAt. intros [-> | ->].
  - destruct (Quotation.createdAt b ≫= getTime); reflexivity.
  - reflexivity.
Qed.

Lemma newer_or_equal_dated (a b : Quotation) (ta tb : Z) :
  Spec.created a = Some ta -> Spec.created b = Some tb ->
  Spec.newer_or_equal a b <-> (tb <= ta)%Z.
Proof. unfold Spec.newer_or_equal. intros -> ->. reflexivity. Qed.

Lemma newer_or_equal_trans (a b c : Quotation) :
  Spec.dated b -> Spec.newer_or_equal a b -> Spec.newer_or_equal b c ->
  Spec.newer_or_equal a c.
Proof.
  unfold Spec.dated, Spec.newer_or_equal. intros [tb ->].
  destruct (Spec.created a), (Spec.created c); intros; auto; try lia; contradiction.
Qed.

Lemma sort_insert_sorted (x : Quotation) (l : list Quotation) :
  Spec.dated x -> Forall Spec.dated l ->
  StronglySorted Spec.newer_or_equal l ->
  StronglySorted Spec.newer_or_equal
    (sort_insert (fun a b => default 0%Z (compare_createdAt a b)) x l).
Proof.
  intros [tx Hx] Hl Hs. induction Hs as [|y l Hs IH Hy].
  - cbn. constructor; constructor.
  - apply Forall_cons in Hl as [[ty Hty] Hl]. cbn [sort_insert].
    rewrite (compare_createdAt_dated x y tx ty Hx Hty).
    change (default 0%Z (Some (ty - tx)%Z)) with (ty - tx)%Z.
    destruct (Z.leb_spec (ty - tx) 0) as [Hle|Hgt].
    + constructor; [constructor; assumption|].
      assert (Hxy : Spec.newer_or_equal x y).
      { apply (newer_or_equal_dated x y tx ty Hx Hty). lia. }
      constructor; [exact Hxy|].
      eapply Forall_impl; [exact Hy|]. intros z Hz.
      apply (newer_or_equal_trans x y z); [eexists; eassumption | exact Hxy | exact Hz].
    + constructor; [apply IH, Hl|].
      rewrite sort_insert_perm. constructor; [|exact Hy].
      apply (newer_or_equal_dated y x ty tx Hty Hx). lia.
Qed.

Lemma Array_sort_sorted (l : list Quotation) :
  Forall Spec.dated l ->
  StronglySorted Spec.newer_or_equal (Array_sort compare_createdAt l).
Proof.
  unfold Array_sort. induction 1 as [|x l Hx Hl IH]; cbn [fold_right].
  - constructor.
  - apply sort_insert_sorted; [exact Hx| |exact IH].
    change (Forall Spec.dated (Array_sort compare_createdAt l)).
    rewrite Array_sort_perm. exact Hl.
Qed.

(** C7, as stated, fails: an entry without [createdAt], or with an Invalid
    Date, that precedes a dated entry in the collection stays in front of it;
    and a stored document without [createdAt] reaches the dashboard dated at
    the time of the snapshot, which puts it first as the newest. *)
Lemma C7_counterexample :
  filteredQuotations Sample.toLowerCase undated_first "" = undated_first
  /\ ~ StronglySorted Spec.newer_or_equal (filteredQuotations Sample.toLowerCase undated_first "")
  /\ filteredQuotations Sample.toLowerCase invalid_first "" = invalid_first
  /\ ~ StronglySorted Spec.newer_or_equal (filteredQuotations Sample.toLowerCase invalid_first "")
  /\ map Quotation.clientName
       (filteredQuotations Sample.toLowerCase (map (fetched 5000) (rev undated_first)) "")
     = [Some "Asha"; Some "Bala"].
Proof.
  split; [reflexivity|]. split.
  { intros H. inversion H as [|a l _ Hall]; subst.
    inversion Hall as [|b l' Hab _]; subst. exact Hab. }
  split; [reflexivity|]. split.
  { intros H. inversion H as [|a l _ Hall]; subst.
    inversion Hall as [|b l' Hab _]; subst. exact Hab. }
  reflexivity.
Qed.

(** C7 (amended). For every collection and search term the filtered result
    list is a reordering of the matching quotations. When every matching
    entry has a valid createdAt it is sorted by createdAt descending (newest
    first), entries with the same createdAt keeping their collection order.
    An entry whose createdAt is missing or unparseable is not ordered as the
    oldest: the comparator yields NaN for every pair that involves it, which
    the sort reads as "equal", and a list without any valid createdAt keeps
    its collection order. A document stored without createdAt comes out of
    the snapshot listener dated at the time of the snapshot. *)
Theorem C7_sorted_newest_first (quotations : list Quotation) (searchTerm : string) :
  let kept := List.filter (matchesSearch toLowerCase (toLowerCase searchTerm)) quotations in
  let fq := filteredQuotations toLowerCase quotations searchTerm in
  fq ≡ₚ kept
  /\ (Forall Spec.dated kept ->
      StronglySorted Spec.newer_or_equal fq
      /\ forall t : Z,
           List.filter (fun q => bool_decide (Spec.created q = Some t)) fq
           = List.filter (fun q => bool_decide (Spec.created q = Some t)) kept)
  /\ (forall a b, Spec.created a = None \/ Spec.created b = None ->
                  compare_createdAt a b = None)
  /\ (Forall (fun q => Spec.created q = None) kept -> fq = kept)
  /\ (forall now data,
        Quotation.createdAt data = None ->
        Spec.created (fetched now data) = Some now).
Proof.
  intros kept fq.
  split; [apply Array_sort_perm|]. split.
  { intros Hd. split; [apply Array_sort_sorted, Hd|].
    intros t. apply Array_sort_stable. intros x y Hx Hy.
    apply bool_decide_eq_true in Hx, Hy.
    rewrite (compare_createdAt_dated x y t t Hx Hy).
    change (default 0%Z (Some (t - t)%Z)) with (t - t)%Z. lia. }
  split; [apply compare_createdAt_undated|]. split.
  { intros Hn. apply Array_sort_all_equal. intros x y Hx Hy.
    rewrite compare_createdAt_undated; [reflexivity|]. left.
    rewrite Forall_forall in Hn. apply Hn. apply list_elem_of_In, Hx. }
  intros now data H. unfold Spec.created, fetched. cbn. rewrite H. reflexivity.
Qed.

End DashboardOrder.

(** Four dated entries come out newest first; two undated entries keep
    their order. *)
Lemma C7_sorted_newest_first_witness :
  map Quotation.clientName (filteredQuotations Sample.toLowerCase four_statuses "")
  = [Some "Deepa"; Some "Chitra"; Some "Bala"; Some "Asha"]
  /\ StronglySorted Spec.newer_or_equal (filteredQuotations Sample.toLowerCase four_statuses "")
  /\ filteredQuotations Sample.toLowerCase [numbered (Some "QT-2"); numbered (Some "QT-1")] ""
     = [numbered (Some "QT-2"); numbered (Some "QT-1")].
Proof.
  split; [reflexivity|]. split.
  - apply (C7_sorted_newest_first Sample.toLowerCase four_statuses "").
    unfold four_statuses. cbn.
    repeat (apply List.Forall_cons; [eexists; reflexivity|]). apply List.Forall_nil.
  - apply (C7_sorted_newest_first Sample.toLowerCase [numbered (Some "QT-2"); numbered (Some "QT-1")] "").
    cbn. repeat (apply List.Forall_cons; [reflexivity|]). apply List.Forall_nil.
Defined.

(** ** Saving *)

Section Saving.
Context (toLocaleDateString : Z -> string).

Lemma option_union_Some {A} (x : A) (o : option A) : Some x ∪ o = Some x.
Proof. destruct o; reflexivity. Qed.

(** If the save handler ran where React accepts its hook call, a save that
    reaches the write would store totals that equal a fresh computation from
    the stored items, taxRate and discount, whatever totals the quotation
    carried and whatever was stored before; a save that is not ready, or
    whose write is rejected, changes nothing. *)
Lemma save_would_write_fresh_totals (setDoc_ok : bool) (now : Z)
    (quotationToSave : Quotation) (st : AppState) :
  let st' :=
    handleSaveQuotation toLocaleDateString Rendering setDoc_ok now quotationToSave st in
  (ready st = true -> setDoc_ok = true ->
   exists d,
     documents st' !! Quotation.id quotationToSave = Some d
     /\ Quotation.items d = Quotation.items quotationToSave
     /\ Quotation.taxRate d = Quotation.taxRate quotationToSave
     /\ Quotation.discount d = Quotation.discount quotationToSave
     /\ Quotation.subtotal d = Some (Totals.subtotal (useQuotationCalculations d))
     /\ Quotation.taxAmount d = Some (Totals.taxAmount (useQuotationCalculations d))
     /\ Quotation.grandTotal d = Some (Totals.grandTotal (useQuotationCalculations d)))
  /\ (ready st = false \/ setDoc_ok = false -> st' = st)
  /\ (forall stale : Totals,
        handleSaveQuotation toLocaleDateString Rendering setDoc_ok now
          (with_totals quotationToSave stale) st
        = st').
Proof.
  intros st'. split; [|split].
  - intros Hr ->. unfold st', handleSaveQuotation. rewrite Hr. cbn.
    unfold setDoc_merge. rewrite lookup_insert_eq.
    destruct (documents st !! Quotation.id quotationToSave) as [old|].
    + eexists. split; [reflexivity|]. cbn. rewrite !option_union_Some.
      repeat split.
    + eexists. split; [reflexivity|]. cbn. repeat split.
  - unfold st', handleSaveQuotation. intros [-> | ->]; [reflexivity|].
    destruct (ready st); reflexivity.
  - intros stale. reflexivity.
Qed.

(** C8 (defect of the code). Every save goes through
    [handleSaveQuotation], which runs from the click callback of the Save
    button and there calls the hook [useQuotationCalculations]; React
    refuses a hook call made from a callback, so for every quotation and
    state the handler ends before the write: the state is unchanged, no
    totals are recomputed or stored, and a get of a new draft's id after its
    save finds nothing. *)
Theorem C8_save_writes_nothing (setDoc_ok : bool) (now : Z)
    (quotation : Quotation) (st : AppState) :
  save_draft toLocaleDateString setDoc_ok now quotation st = st
  /\ handleSaveQuotation toLocaleDateString Handling setDoc_ok now quotation st = st
  /\ documents
       (save_draft toLocaleDateString setDoc_ok now new_draft editing_new_draft)
     !! Quotation.id new_draft = None.
Proof.
  assert (H : forall q s,
             handleSaveQuotation toLocaleDateString Handling setDoc_ok now q s = s).
  { intros q s. unfold handleSaveQuotation. destruct (ready s); reflexivity. }
  split; [apply H|]. split; [apply H|].
  unfold save_draft. rewrite H. reflexivity.
Qed.

End Saving.

(** Saving a quotation that carries the totals 7, 8, 9 over a stored
    document that carries 1, 2, 3 would store the totals 10, 1.8, 0. *)
Lemma save_would_write_fresh_totals_example :
  exists d,
    documents (handleSaveQuotation Sample.toLocaleDateString Rendering true june_2024
                 (with_totals large_discount (Totals.mk 7 8 9)) one_stale_document)
      !! "q" = Some d
    /\ Quotation.subtotal d = Some 10%float
    /\ Quotation.taxAmount d = Some 1.8%float
    /\ Quotation.grandTotal d = Some 0%float.
Proof.
  destruct (save_would_write_fresh_totals Sample.toLocaleDateString true
              june_2024 (with_totals large_discount (Totals.mk 7 8 9))
              one_stale_document)
    as [H _].
  destruct (H eq_refl eq_refl) as (d & Hd & Hi & Ht & Hdi & Hs & Hta & Hg).
  exists d. split; [exact Hd|].
  unfold useQuotationCalculations in Hs, Hta, Hg.
  rewrite Hi, Ht, Hdi in Hs, Hta, Hg.
  split; [rewrite Hs; vm_compute; reflexivity|].
  split; [rewrite Hta; vm_compute; reflexivity|].
  rewrite Hg. vm_compute. reflexivity.
Defined.

(** ** The REST store *)

Section RestStore.
Import Server.

Lemma has_id_filter_idem (id : string) (l : list (gmap string json)) :
  List.filter (fun item => negb (has_id id item))
    (List.filter (fun item => negb (has_id id item)) l)
  = List.filter (fun item => negb (has_id id item)) l.
Proof.
  induction l as [|x l IH]; simpl; [reflexivity|].
  destruct (has_id id x) eqn:E; simpl; [exact IH|].
  rewrite E. simpl. rewrite IH. reflexivity.
Qed.

Lemma find_filtered_out (id : string) (l : list (gmap string json)) :
  List.find (has_id id) (List.filter (fun item => negb (has_id id item)) l) = None.
Proof.
  induction l as [|x l IH]; simpl; [reflexivity|].
  destruct (has_id id x) eqn:E; simpl; [exact IH|]. rewrite E. exact IH.
Qed.

(** C9. [DELETE /api/quotations/:id] answers with the success
    acknowledgment whether or not a record has that id; it removes the
    records with that id and keeps all others, in order; when no record has
    the id the collection is unchanged; a second deletion of the same id
    gives the same answer and the same collection as the first; afterwards
    the id is not found. *)
Theorem C9_delete_idempotent (id : string) (file : File) :
  let res := fst (delete id file) in
  let file' := snd (delete id file) in
  res = mkResponse 200 (JObject {[ "success" := JBool true ]})
  /\ readDB file'
     = List.filter (fun item => negb (has_id id item)) (readDB file)
  /\ (forall item, item ∈ readDB file' <-> item ∈ readDB file /\ has_id id item = false)
  /\ (Forall (fun item => has_id id item = false) (readDB file) ->
      readDB file' = readDB file)
  /\ delete id file' = (res, file')
  /\ fst (get_one id file') = not_found.
Proof.
  intros res file'. split; [reflexivity|]. split; [reflexivity|].
  split; [|split; [|split]].
  - intros item. unfold file'. cbn.
    rewrite !list_elem_of_In, filter_In, negb_true_iff. reflexivity.
  - intros H. unfold file'. cbn. apply filter_all.
    eapply Forall_impl; [exact H|]. intros item ->. reflexivity.
  - unfold res, file', delete. cbn. rewrite has_id_filter_idem. reflexivity.
  - unfold file', get_one. cbn. rewrite find_filtered_out. reflexivity.
Qed.

Lemma server_fields_lookup (uuid created updated : string) (k : string) (v : json) :
  ({[ "id" := JString uuid; "created_at" := JString created;
      "updated_at" := JString updated ]} : gmap string json) !! k = Some v ->
  (k = "id" /\ v = JString uuid)
  \/ (k = "created_at" /\ v = JString created)
  \/ (k = "updated_at" /\ v = JString updated).
Proof.
  intros H.
  destruct (decide (k = "id")) as [-> | H1]; [simplify_map_eq; auto|].
  destruct (decide (k = "created_at")) as [-> | H2]; [simplify_map_eq; auto|].
  destruct (decide (k = "updated_at")) as [-> | H3]; [simplify_map_eq; auto|].
  simplify_map_eq.
Qed.

(** C10. [POST /api/quotations] answers 201 with the created record and
    appends it to the collection. The record has every property of the
    request body with the body's value, an id, created_at or updated_at of the
    body included; a property id, created_at or updated_at that the body
    lacks has the server's value; so the record carries the server's generated
    id (a server timestamp) exactly when the body has no id (no such
    timestamp) or happens to repeat the server's value. *)
Theorem C10_create_body_overrides (uuid created updated : string)
    (payload : gmap string json) (file : File) :
  exists newQ : gmap string json,
    create uuid created updated payload file
    = (mkResponse 201 (JObject newQ), writeDB (readDB file ++ [newQ]))
    /\ (forall k v, payload !! k = Some v -> newQ !! k = Some v)
    /\ (payload !! "id" = None -> newQ !! "id" = Some (JString uuid))
    /\ (payload !! "created_at" = None ->
        newQ !! "created_at" = Some (JString created))
    /\ (payload !! "updated_at" = None ->
        newQ !! "updated_at" = Some (JString updated))
    /\ (newQ !! "id" = Some (JString uuid)
        <-> payload !! "id" = None \/ payload !! "id" = Some (JString uuid))
    /\ (newQ !! "created_at" = Some (JString created)
        <-> payload !! "created_at" = None
            \/ payload !! "created_at" = Some (JString created))
    /\ (newQ !! "updated_at" = Some (JString updated)
        <-> payload !! "updated_at" = None
            \/ payload !! "updated_at" = Some (JString updated))
    /\ (forall k, k <> "id" -> k <> "created_at" -> k <> "updated_at" ->
                  newQ !! k = payload !! k).
Proof.
  eexists. split; [reflexivity|].
  split. { intros k v H. apply lookup_union_Some_raw. left. exact H. }
  split. { intros H. rewrite lookup_union_r by exact H. by simplify_map_eq. }
  split. { intros H. rewrite lookup_union_r by exact H. by simplify_map_eq. }
  split. { intros H. rewrite lookup_union_r by exact H. by simplify_map_eq. }
  split.
  { rewrite lookup_union_Some_raw. split.
    - intros [H | [H _]]; auto.
    - intros [H | H]; [right; split; [exact H | by simplify_map_eq] | left; exact H]. }
  split.
  { rewrite lookup_union_Some_raw. split.
    - intros [H | [H _]]; auto.
    - intros [H | H]; [right; split; [exact H | by simplify_map_eq] | left; exact H]. }
  split.
  { rewrite lookup_union_Some_raw. split.
    - intros [H | [H _]]; auto.
    - intros [H | H]; [right; split; [exact H | by simplify_map_eq] | left; exact H]. }
  intros k H1 H2 H3. destruct (payload !! k) as [v|] eqn:E.
  - apply lookup_union_Some_raw. left. exact E.
  - rewrite lookup_union_r by exact E. by simplify_map_eq.
Qed.

End RestStore.

(** Deleting "a" leaves the other record; deleting an unknown id changes
    nothing; deleting "a" again changes nothing more. *)
Lemma C9_delete_idempotent_witness :
  Server.readDB (snd (Server.delete "a" ServerExamples.two_records))
  = [ServerExamples.second]
  /\ Server.readDB (snd (Server.delete "zzz" ServerExamples.two_records))
     = Server.readDB ServerExamples.two_records
  /\ Server.delete "a" (snd (Server.delete "a" ServerExamples.two_records))
     = Server.delete "a" ServerExamples.two_records.
Proof.
  split; [reflexivity|]. split.
  - apply (C9_delete_idempotent "zzz" ServerExamples.two_records).
    repeat (apply List.Forall_cons; [reflexivity|]). apply List.Forall_nil.
  - apply (C9_delete_idempotent "a" ServerExamples.two_records).
Defined.

(** A body that names an id keeps it; a body without one gets the
    generated id. *)
Lemma C10_create_body_overrides_witness :
  (exists newQ : gmap string Server.json,
     fst (Server.create "generated" "t1" "t2" ServerExamples.body_with_id
            ServerExamples.two_records)
     = Server.mkResponse 201 (Server.JObject newQ)
     /\ newQ !! "id" = Some (Server.JString "chosen")
     /\ newQ !! "created_at" = Some (Server.JString "t1"))
  /\ (exists newQ : gmap string Server.json,
        fst (Server.create "generated" "t1" "t2" ServerExamples.plain_body
               ServerExamples.two_records)
        = Server.mkResponse 201 (Server.JObject newQ)
        /\ newQ !! "id" = Some (Server.JString "generated")).
Proof.
  split.
  - destruct (C10_create_body_overrides "generated" "t1" "t2"
                ServerExamples.body_with_id ServerExamples.two_records)
      as (newQ & Hc & Hbody & _ & Hcreated & _).
    exists newQ. split; [rewrite Hc; reflexivity|]. split.
    + apply Hbody. reflexivity.
    + apply Hcreated. reflexivity.
  - destruct (C10_create_body_overrides "generated" "t1" "t2"
                ServerExamples.plain_body ServerExamples.two_records)
      as (newQ & Hc & _ & Hid & _).
    exists newQ. split; [rewrite Hc; reflexivity|].
    apply Hid. reflexivity.
Defined.

(** ** Sessions of the editor *)

Section EditorSessions.
Context (uuid : nat -> string) (toLocaleDateString : Z -> string)
  (getFullYear : Z -> N) (parseFloat : string -> float).

Lemma with_items_same (q : Quotation) : with_items q (Quotation.items q) = q.
Proof. destruct q; reflexivity. Qed.

Lemma with_items_twice (q : Quotation) (l l' : list LineItem) :
  with_items (with_items q l) l' = with_items q l'.
Proof. reflexivity. Qed.

Lemma map_fixed {A} (f : A -> A) (l : list A) :
  Forall (fun x => f x = x) l -> map f l = l.
Proof.
  induction 1 as [|x l Hx _ IH]; simpl; [reflexivity|]. rewrite Hx, IH. reflexivity.
Qed.

(** X1. An edit that names an id which no line item has changes nothing:
    [handleItemChange] and [handleTextareaChange] return the quotation they
    were given. *)
Theorem item_edit_unknown_id (itemId : string) (field : ItemNumberField)
    (value : string) (tfield : ItemTextField) (tvalue : string) (prev : Quotation) :
  Forall (fun item => LineItem.id item <> itemId) (Quotation.items prev) ->
  handleItemChange parseFloat itemId field value prev = prev
  /\ handleTextareaChange itemId tfield tvalue prev = prev.
Proof.
  intros H. split.
  - unfold handleItemChange. rewrite map_fixed; [apply with_items_same|].
    eapply Forall_impl; [exact H|]. intros item Hne. cbn beta.
    apply String.eqb_neq in Hne. rewrite Hne. reflexivity.
  - unfold handleTextareaChange. rewrite map_fixed; [apply with_items_same|].
    eapply Forall_impl; [exact H|]. intros item Hne. cbn beta.
    apply String.eqb_neq in Hne. rewrite Hne. reflexivity.
Qed.

Lemma Forall_filter_keep {A} (P : A -> Prop) (p : A -> bool) (l : list A) :
  Forall P l -> Forall P (List.filter p l).
Proof.
  induction 1 as [|x l Hx _ IH]; simpl; [constructor|].
  destruct (p x); [constructor; assumption | exact IH].
Qed.

Lemma Forall_map_keep {A} (P : A -> Prop) (f : A -> A) (l : list A) :
  (forall x, P x -> P (f x)) -> Forall P l -> Forall P (map f l).
Proof.
  intros Hf. induction 1 as [|x l Hx _ IH]; simpl; constructor; auto.
Qed.

Lemma editor_step_amounts (a : EditorAction) (q : Quotation) (n : nat) :
  Forall Props.amount_consistent (Quotation.items q) ->
  Forall Props.amount_consistent
    (Quotation.items (fst (editor_step uuid parseFloat a q n))).
Proof.
  intros H. destruct a as [e|itemId field value|itemId tfield value| |id]; cbn.
  - destruct e; exact H.
  - apply Forall_map_keep; [|exact H]. intros item Hitem.
    destruct (String.eqb (LineItem.id item) itemId); [|exact Hitem].
    destruct field; reflexivity.
  - apply Forall_map_keep; [|exact H]. intros item Hitem.
    destruct (String.eqb (LineItem.id item) itemId); [|exact Hitem].
    destruct tfield; exact Hitem.
  - apply Forall_app. split; [exact H|]. constructor; [|constructor].
    vm_compute. reflexivity.
  - unfold handleRemoveItem.
    destruct (1 <? length (Quotation.items q))%nat; [|exact H].
    cbn. apply Forall_filter_keep, H.
Qed.

Lemma editor_session_invariant (P : Quotation -> Prop) :
  (forall a q n, P q -> P (fst (editor_step uuid parseFloat a q n))) ->
  forall actions q n,
    P q -> P (fst (editor_session uuid parseFloat actions q n)).
Proof.
  intros Hstep actions. induction actions as [|a rest IH]; intros q n Hq.
  - exact Hq.
  - cbn [editor_session]. unfold gen_bind.
    specialize (Hstep a q n Hq).
    destruct (editor_step uuid parseFloat a q n) as [q' n']. apply IH, Hstep.
Qed.

(** X2. In every session of the editor, from the new quotation of
    [getNewQuotation] through any sequence of header edits, item edits, text
    edits, added and removed items, the amount of every line item is
    round(qty * unitPrice, 2) of its own quantity and price. *)
Theorem editor_session_amounts (now : Z) (count : whole)
    (actions : list EditorAction) (n : nat) :
  let start := getNewQuotation uuid toLocaleDateString getFullYear now count n in
  Forall Props.amount_consistent
    (Quotation.items
       (fst (editor_session uuid parseFloat actions (fst start) (snd start)))).
Proof.
  intros start.
  apply (editor_session_invariant
           (fun q => Forall Props.amount_consistent (Quotation.items q))).
  - apply editor_step_amounts.
  - cbn. constructor; [|constructor]. vm_compute. reflexivity.
Qed.






Lemma filter_none_out {A} (p : A -> bool) (l : list A) :
  Forall (fun x => p x = true) l -> List.filter p l = l.
Proof.
  induction 1 as [|x l Hx _ IH]; simpl; [reflexivity|]. rewrite Hx, IH. reflexivity.
Qed.

(** X4. Adding a line item and removing it again gives back the quotation,
    provided the quotation had an item before and the id drawn for the new
    item is not in use. *)
Theorem add_then_remove_item (q : Quotation) (n : nat) :
  Quotation.items q <> [] ->
  uuid n ∉ map LineItem.id (Quotation.items q) ->
  handleRemoveItem (uuid n) (fst (handleAddItem uuid q n)) = q.
Proof.
  intros Hne Hfresh.
  change (fst (handleAddItem uuid q n))
    with (with_items q (Quotation.items q ++ [fst (getDefaultItem uuid n)])).
  unfold handleRemoveItem. cbn [Quotation.items with_items].
  rewrite length_app. cbn [length].
  destruct (Nat.ltb_spec 1 (length (Quotation.items q) + 1)) as [_|Hlen].
  - rewrite with_items_twice, List.filter_app. cbn [List.filter].
    change (LineItem.id (fst (getDefaultItem uuid n))) with (uuid n).
    rewrite String.eqb_refl. cbn [negb].
    rewrite app_nil_r, filter_none_out; [apply with_items_same|].
    apply Forall_forall. intros item Hin.
    apply negb_true_iff, String.eqb_neq. intros E. apply Hfresh.
    apply list_elem_of_fmap. exists item. split; [symmetry; exact E | exact Hin].
  - destruct (Quotation.items q); [congruence | simpl in Hlen; lia].
Qed.

Lemma filter_twice {A} (p : A -> bool) (l : list A) :
  List.filter p (List.filter p l) = List.filter p l.
Proof.
  induction l as [|x l IH]; simpl; [reflexivity|].
  destruct (p x) eqn:E; simpl; [rewrite E, IH; reflexivity | exact IH].
Qed.

(** X5. Removing the same id twice gives what removing it once gives,
    whatever the quotation. *)
Theorem remove_item_twice (id : string) (q : Quotation) :
  handleRemoveItem id (handleRemoveItem id q) = handleRemoveItem id q.
Proof.
  destruct (1 <? length (Quotation.items q))%nat eqn:E.
  - assert (H : handleRemoveItem id q
                = with_items q
                    (List.filter (fun item => negb (String.eqb (LineItem.id item) id))
                       (Quotation.items q))).
    { unfold handleRemoveItem. rewrite E. reflexivity. }
    rewrite H. clear E H. unfold handleRemoveItem.
    cbn [Quotation.items with_items].
    rewrite with_items_twice, filter_twice.
    destruct (1 <? length _)%nat; reflexivity.
  - assert (H : handleRemoveItem id q = q).
    { unfold handleRemoveItem. rewrite E. reflexivity. }
    rewrite !H. reflexivity.
Qed.

(** X6. Of two edits of the same property of the same line item the later
    one decides: the earlier edit leaves no trace, the amount included. *)
Theorem item_edit_last_wins (itemId : string) (field : ItemNumberField)
    (v1 v2 : string) (q : Quotation) :
  handleItemChange parseFloat itemId field v2
    (handleItemChange parseFloat itemId field v1 q)
  = handleItemChange parseFloat itemId field v2 q.
Proof.
  unfold handleItemChange. cbn. f_equal.
  rewrite map_map. apply map_ext. intros item.
  destruct (String.eqb (LineItem.id item) itemId) eqn:E.
  - cbn. rewrite E. destruct field; reflexivity.
  - rewrite E. reflexivity.
Qed.

(** X7. Edits of two different line items commute. *)
Theorem item_edits_commute (id1 id2 : string) (f1 f2 : ItemNumberField)
    (v1 v2 : string) (q : Quotation) :
  id1 <> id2 ->
  handleItemChange parseFloat id1 f1 v1 (handleItemChange parseFloat id2 f2 v2 q)
  = handleItemChange parseFloat id2 f2 v2 (handleItemChange parseFloat id1 f1 v1 q).
Proof.
  intros Hne. unfold handleItemChange. cbn. f_equal.
  rewrite !map_map. apply map_ext. intros item. cbn beta.
  destruct (String.eqb (LineItem.id item) id1) eqn:E1;
    destruct (String.eqb (LineItem.id item) id2) eqn:E2;
    cbn [LineItem.id set_amount set_item_number]; rewrite ?E1, ?E2;
    try reflexivity.
  apply String.eqb_eq in E1, E2. congruence.
Qed.

Lemma fold_subtotal_same (l1 l2 : list LineItem) (acc : float) :
  map (fun item => (LineItem.qty item, LineItem.unitPrice item)) l1
  = map (fun item => (LineItem.qty item, LineItem.unitPrice item)) l2 ->
  Spec.raw_subtotal_from acc l1 = Spec.raw_subtotal_from acc l2.
Proof.
  revert l2 acc. induction l1 as [|a l1 IH]; intros [|b l2] acc H;
    try discriminate; [reflexivity|].
  injection H as Hq Hp Hrest. simpl. rewrite Hq, Hp. apply IH, Hrest.
Qed.

(** X8. The derived totals read the quantities and unit prices of the
    items, the tax rate and the discount, and nothing else: two quotations
    that agree on these have the same totals, whatever their stored amounts,
    texts, ids, status or stored totals. *)
Theorem totals_read_prices_only (q1 q2 : Quotation) :
  map (fun item => (LineItem.qty item, LineItem.unitPrice item)) (Quotation.items q1)
  = map (fun item => (LineItem.qty item, LineItem.unitPrice item)) (Quotation.items q2) ->
  Quotation.taxRate q1 = Quotation.taxRate q2 ->
  Quotation.discount q1 = Quotation.discount q2 ->
  useQuotationCalculations q1 = useQuotationCalculations q2.
Proof.
  intros Hi Ht Hd. unfold useQuotationCalculations.
  rewrite !fold_subtotal_from, (fold_subtotal_same _ _ _ Hi), Ht, Hd. reflexivity.
Qed.

End EditorSessions.

(** Editing a line that does not exist leaves the two lines as they are. *)
Lemma item_edit_unknown_id_witness :
  handleItemChange Sample.parseFloat "zzz" F_qty "3" two_lines = two_lines
  /\ handleTextareaChange "zzz" F_remark "x" two_lines = two_lines.
Proof.
  apply (item_edit_unknown_id Sample.parseFloat "zzz" F_qty "3" F_remark "x" two_lines).
  repeat (apply List.Forall_cons; [discriminate|]). apply List.Forall_nil.
Defined.

(** A third line added to the two lines and removed again. *)
Lemma add_then_remove_item_witness :
  handleRemoveItem "uuid-0" (fst (handleAddItem Sample.uuid two_lines 0)) = two_lines.
Proof.
  apply (add_then_remove_item Sample.uuid two_lines 0); [discriminate|].
  change (Sample.uuid 0) with "uuid-0". cbn.
  intros H. repeat (apply elem_of_cons in H as [H|H]; [discriminate H|]).
  apply elem_of_nil in H. exact H.
Defined.

(** The quantity of line "a" and the price of line "b", in either order. *)
Lemma item_edits_commute_witness :
  handleItemChange Sample.parseFloat "a" F_qty "3"
    (handleItemChange Sample.parseFloat "b" F_unitPrice "100" two_lines)
  = handleItemChange Sample.parseFloat "b" F_unitPrice "100"
      (handleItemChange Sample.parseFloat "a" F_qty "3" two_lines).
Proof.
  apply (item_edits_commute Sample.parseFloat "a" "b" F_qty F_unitPrice "3" "100"
           two_lines).
  discriminate.
Defined.

(** The two lines with other ids, texts and stale amounts total the same. *)
Lemma totals_read_prices_only_witness :
  useQuotationCalculations two_lines
  = useQuotationCalculations
      (priced [ LineItem.mk "x" "Dais" 2 1500 "indoor" 0;
                LineItem.mk "y" "" 4 250 "" 7 ] 18 0).
Proof.
  apply (totals_read_prices_only two_lines
           (priced [ LineItem.mk "x" "Dais" 2 1500 "indoor" 0;
                     LineItem.mk "y" "" 4 250 "" 7 ] 18 0));
    reflexivity.
Defined.

(** ** Reading a generated number back *)

Section NumberRoundTrip.
Context (uuid : nat -> string) (toLocaleDateString : Z -> string)
  (getFullYear : Z -> N).

Lemma string_app_assoc (a b c : string) : (a +:+ b) +:+ c = a +:+ (b +:+ c).
Proof.
  induction a as [|x a IH]; [reflexivity|].
  change (String x ((a +:+ b) +:+ c) = String x (a +:+ (b +:+ c))).
  f_equal. exact IH.
Qed.

Lemma string_app_empty_r (a : string) : a +:+ "" = a.
Proof.
  induction a as [|x a IH]; [reflexivity|].
  change (String x (a +:+ "") = String x a). f_equal. exact IH.
Qed.

Lemma rev_app_app_r (s1 s2 s3 : string) :
  String.rev_app s1 s2 +:+ s3 = String.rev_app s1 (s2 +:+ s3).
Proof.
  revert s2. induction s1 as [|a s1 IH]; intros s2; simpl; [reflexivity|].
  rewrite IH. reflexivity.
Qed.

Lemma rev_app_app_l (s1 s2 acc : string) :
  String.rev_app (s1 +:+ s2) acc = String.rev_app s2 (String.rev_app s1 acc).
Proof.
  revert acc. induction s1 as [|a s1 IH]; intros acc; [reflexivity|].
  change (String.rev_app (s1 +:+ s2) (String a acc)
          = String.rev_app s2 (String.rev_app s1 (String a acc))).
  apply IH.
Qed.

Lemma string_rev_app (s1 s2 : string) :
  String.rev (s1 +:+ s2) = String.rev s2 +:+ String.rev s1.
Proof.
  unfold String.rev. rewrite rev_app_app_l, rev_app_app_r. reflexivity.
Qed.

Lemma rev_app_rev_app (s1 s2 s3 : string) :
  String.rev_app (String.rev_app s1 s2) s3 = String.rev_app s2 (s1 +:+ s3).
Proof.
  revert s2. induction s1 as [|a s1 IH]; intros s2; simpl; [reflexivity|].
  rewrite IH. reflexivity.
Qed.

Lemma string_rev_involutive (s : string) : String.rev (String.rev s) = s.
Proof.
  unfold String.rev. rewrite rev_app_rev_app. simpl. apply string_app_empty_r.
Qed.

(** [take_digits s = s] says that [s] consists of decimal digits. *)
Lemma take_digits_cons (c : ascii) (s : string) :
  take_digits (String c s) = String c s <-> is_digit c = true /\ take_digits s = s.
Proof.
  simpl. destruct (is_digit c); split.
  - intros [= H]. auto.
  - intros [_ ->]. reflexivity.
  - discriminate.
  - intros [H _]. discriminate.
Qed.

Lemma take_digits_rev_app (s1 s2 : string) :
  take_digits s1 = s1 -> take_digits s2 = s2 ->
  take_digits (String.rev_app s1 s2) = String.rev_app s1 s2.
Proof.
  revert s2. induction s1 as [|a s1 IH]; intros s2 H1 H2; simpl; [exact H2|].
  apply take_digits_cons in H1 as [Ha H1].
  apply IH; [exact H1|]. apply take_digits_cons. auto.
Qed.

Lemma take_digits_stop (d : string) (c : ascii) (rest : string) :
  take_digits d = d -> is_digit c = false ->
  take_digits (d +:+ String c rest) = d.
Proof.
  intros Hd Hc. induction d as [|x d IH]; simpl.
  - rewrite Hc. reflexivity.
  - apply take_digits_cons in Hd as [Hx Hd]. rewrite Hx, (IH Hd). reflexivity.
Qed.

(** The digit run after a last "-" is what the regular expression captures. *)
Lemma match_trailing_digits_after_dash (p d : string) :
  d <> "" -> take_digits d = d ->
  match_trailing_digits (p +:+ String "-" d) = Some d.
Proof.
  intros Hne Hd. unfold match_trailing_digits.
  change (String "-" d) with ("-" +:+ d).
  rewrite <- string_app_assoc, string_rev_app, string_rev_app.
  change (String.rev "-" +:+ String.rev p) with (String "-" (String.rev p)).
  rewrite take_digits_stop; [| |reflexivity].
  - rewrite string_rev_involutive. destruct d; [congruence | reflexivity].
  - apply take_digits_rev_app; [exact Hd | reflexivity].
Qed.

Lemma is_digit_pretty_N_char (d : N) : (d < 10)%N -> is_digit (pretty_N_char d) = true.
Proof.
  intros H.
  assert (d = 0 \/ d = 1 \/ d = 2 \/ d = 3 \/ d = 4 \/ d = 5 \/ d = 6
          \/ d = 7 \/ d = 8 \/ d = 9)%N as Hd by lia.
  repeat (destruct Hd as [-> | Hd]; [reflexivity|]). subst d. reflexivity.
Qed.

Lemma take_digits_pretty_N_go (x : N) :
  forall s, take_digits s = s -> take_digits (pretty_N_go x s) = pretty_N_go x s.
Proof.
  induction (N.lt_wf_0 x) as [x _ IH]. intros s Hs.
  destruct (N.eq_dec x 0%N) as [-> | Hx].
  - rewrite pretty_N_go_0. exact Hs.
  - rewrite pretty_N_go_step by lia. apply IH.
    + apply N.div_lt; lia.
    + apply take_digits_cons. split; [|exact Hs].
      apply is_digit_pretty_N_char, N.mod_lt. lia.
Qed.

Lemma take_digits_String (n : N) : take_digits (String_ n) = String_ n.
Proof.
  unfold String_, pretty, pretty_N.
  destruct (decide (n = 0%N)); [reflexivity|].
  apply take_digits_pretty_N_go. reflexivity.
Qed.

Lemma take_digits_zeros (k : nat) (s : string) :
  take_digits s = s -> take_digits (zeros k +:+ s) = zeros k +:+ s.
Proof.
  intros Hs. induction k as [|k IH]; simpl; [exact Hs|]. rewrite IH. reflexivity.
Qed.

Lemma length_pretty_N_go (x : N) :
  forall s, String.length s <= String.length (pretty_N_go x s).
Proof.
  induction (N.lt_wf_0 x) as [x _ IH]. intros s.
  destruct (N.eq_dec x 0%N) as [-> | Hx].
  - rewrite pretty_N_go_0. lia.
  - rewrite pretty_N_go_step by lia.
    etransitivity; [|apply IH, N.div_lt; lia]. simpl. lia.
Qed.

Lemma String_nonempty (n : N) : String.length (String_ n) <> 0.
Proof.
  unfold String_, pretty, pretty_N.
  destruct (decide (n = 0%N)); [discriminate|].
  rewrite pretty_N_go_step by lia.
  pose proof (length_pretty_N_go (n `div` 10) (String (pretty_N_char (n `mod` 10)) "")) as H.
  simpl in H. lia.
Qed.

Lemma padStart_digits (len : nat) (n : N) :
  take_digits (padStart len (String_ n)) = padStart len (String_ n)
  /\ padStart len (String_ n) <> "".
Proof.
  split.
  - apply take_digits_zeros, take_digits_String.
  - unfold padStart. intros E. apply (f_equal String.length) in E.
    rewrite length_app_string in E. cbn in E.
    pose proof (String_nonempty n). lia.
Qed.

Lemma sequence_number_generated (year : string) (k : N) (q : Quotation) :
  Quotation.quotationNumber q
  = Some ("QT-" +:+ year +:+ "-" +:+ padStart 4 (String_ k)) ->
  Spec.sequence_number q = Some k.
Proof.
  intros E. unfold Spec.sequence_number. rewrite E. cbn [mbind option_bind].
  destruct (padStart_digits 4 k) as [Hd Hne].
  change ("QT-" +:+ year +:+ "-" +:+ padStart 4 (String_ k))
    with ("QT-" +:+ (year +:+ String "-" (padStart 4 (String_ k)))).
  rewrite <- string_app_assoc.
  rewrite (match_trailing_digits_after_dash _ _ Hne Hd). cbn [fmap option_fmap option_map].
  rewrite decimal_value_padStart, decimal_value_String. reflexivity.
Qed.

(** X9. Below 2^53 the number that [getNewQuotation(count)] generates
    reads back: for every count below 2^53 and every year, the trailing
    digit run that [handleNewQuotation] would capture from the generated
    number denotes count + 1, and [parseInt] reads it as that number. *)
Theorem new_number_reads_back (now : Z) (c : N) (n : nat) :
  (c < 2 ^ 53)%N ->
  let q := fst (getNewQuotation uuid toLocaleDateString getFullYear now (Whole c) n) in
  Spec.sequence_number q = Some (c + 1)%N
  /\ parseInt <$> (Quotation.quotationNumber q ≫= match_trailing_digits)
     = Some (Whole (c + 1)).
Proof.
  intros Hc q.
  assert (H : Spec.sequence_number q = Some (c + 1)%N).
  { apply (sequence_number_generated (String_ (getFullYear now))).
    unfold q. cbn [fst getNewQuotation].
    transitivity
      (Some ("QT-" +:+ String_ (getFullYear now) +:+ "-"
             +:+ padStart 4 (Number_toString (add_one (Whole c)))));
      [reflexivity|].
    rewrite Number_toString_add_one by exact Hc. reflexivity. }
  split; [exact H|].
  unfold Spec.sequence_number in H.
  destruct (Quotation.quotationNumber q ≫= match_trailing_digits) as [digits|];
    [|discriminate H].
  cbn in H. injection H as H. cbn. unfold parseInt. rewrite H.
  rewrite binary64_exact by lia. reflexivity.
Qed.

(** X10. Below 2^53 numbering advances: once the quotation made by
    [handleNewQuotation] is part of the collection, the next quotation made
    from that collection gets a strictly larger sequence number, at any
    later time and whatever else the collection holds, as long as the
    sequence numbers of both collections are below 2^53. *)
Theorem numbering_advances (now now' : Z) (quotations later : list Quotation)
    (n n' : nat) :
  let q1 := fst (handleNewQuotation uuid toLocaleDateString getFullYear
                   now quotations n) in
  let q2 := fst (handleNewQuotation uuid toLocaleDateString getFullYear
                   now' later n') in
  Forall (fun q0 => forall k, Spec.sequence_number q0 = Some k -> (k < 2 ^ 53)%N)
    quotations ->
  Forall (fun q0 => forall k, Spec.sequence_number q0 = Some k -> (k < 2 ^ 53)%N)
    later ->
  q1 ∈ later ->
  exists k1 k2,
    Spec.sequence_number q1 = Some k1
    /\ Spec.sequence_number q2 = Some k2
    /\ (k1 < k2)%N.
Proof.
  intros q1 q2 Hb Hb' Hin.
  assert (H1 : Spec.sequence_number q1 = Some (Spec.max_sequence quotations + 1)%N).
  { apply (sequence_number_generated (String_ (getFullYear now))).
    apply new_number_below, Hb. }
  assert (H2 : Spec.sequence_number q2 = Some (Spec.max_sequence later + 1)%N).
  { apply (sequence_number_generated (String_ (getFullYear now'))).
    apply new_number_below, Hb'. }
  exists (Spec.max_sequence quotations + 1)%N, (Spec.max_sequence later + 1)%N.
  split; [exact H1|]. split; [exact H2|].
  pose proof (max_sequence_upper later q1 _ Hin H1). lia.
Qed.

End NumberRoundTrip.

(** The number generated for the count 7 reads back as 8. *)
Lemma new_number_reads_back_witness :
  Spec.sequence_number
    (fst (getNewQuotation Sample.uuid Sample.toLocaleDateString Sample.getFullYear
            june_2024 (Whole 7) 0))
  = Some 8%N
  /\ parseInt
       <$> (Quotation.quotationNumber
              (fst (getNewQuotation Sample.uuid Sample.toLocaleDateString
                      Sample.getFullYear june_2024 (Whole 7) 0))
            ≫= match_trailing_digits)
     = Some (Whole 8).
Proof.
  apply (new_number_reads_back Sample.uuid Sample.toLocaleDateString
           Sample.getFullYear june_2024 7 0).
  reflexivity.
Defined.

(** The draft numbered 0008 in a collection: the next draft is numbered
    later. *)
Lemma numbering_advances_witness :
  exists k1 k2,
    Spec.sequence_number
      (fst (handleNewQuotation Sample.uuid Sample.toLocaleDateString
              Sample.getFullYear june_2024 [numbered (Some "QT-2024-0007")] 0))
    = Some k1
    /\ Spec.sequence_number
         (fst (handleNewQuotation Sample.uuid Sample.toLocaleDateString
                 Sample.getFullYear june_2024
                 [ fst (handleNewQuotation Sample.uuid Sample.toLocaleDateString
                          Sample.getFullYear june_2024
                          [numbered (Some "QT-2024-0007")] 0);
                   numbered (Some "QT-2024-0007") ] 2))
       = Some k2
    /\ (k1 < k2)%N.
Proof.
  apply (numbering_advances Sample.uuid Sample.toLocaleDateString Sample.getFullYear
           june_2024 june_2024 [numbered (Some "QT-2024-0007")]
           [ fst (handleNewQuotation Sample.uuid Sample.toLocaleDateString
                    Sample.getFullYear june_2024
                    [numbered (Some "QT-2024-0007")] 0);
             numbered (Some "QT-2024-0007") ] 0 2).
  - repeat (apply List.Forall_cons;
            [intros k Hk; vm_compute in Hk; injection Hk as <-; reflexivity|]).
    apply List.Forall_nil.
  - repeat (apply List.Forall_cons;
            [intros k Hk; vm_compute in Hk; injection Hk as <-; reflexivity|]).
    apply List.Forall_nil.
  - apply list_elem_of_here.
Defined.

(** ** Searching, counting and the listener *)

Section DashboardSessions.
Context (toLowerCase : string -> string).

Lemma includes_infix (s a v b : string) :
  includes s (a +:+ v +:+ b) = true -> includes s v = true.
Proof.
  rewrite !includes_spec. intros (pre & post & E).
  exists (pre +:+ a), (b +:+ post). rewrite E.
  rewrite !string_app_assoc. reflexivity.
Qed.

Lemma matchesSearch_infix (a v b : string) (q : Quotation) :
  matchesSearch toLowerCase (a +:+ v +:+ b) q = true ->
  matchesSearch toLowerCase v q = true.
Proof.
  unfold matchesSearch, lower_includes. rewrite !orb_true_iff.
  intros [H|H]; [left|right].
  - destruct (Quotation.clientName q); [|discriminate].
    eapply includes_infix, H.
  - destruct (Quotation.quotationNumber q); [|discriminate].
    eapply includes_infix, H.
Qed.

Lemma filter_length_mono {A} (p1 p2 : A -> bool) (l : list A) :
  (forall x, p1 x = true -> p2 x = true) ->
  length (List.filter p1 l) <= length (List.filter p2 l).
Proof.
  intros H. induction l as [|x l IH]; simpl; [lia|].
  destruct (p1 x) eqn:E1.
  - rewrite (H x E1). simpl. lia.
  - destruct (p2 x); simpl; lia.
Qed.

(** X11. Refining the search narrows the result: when the lower case of a
    term occurs in the lower case of a second term, every quotation listed
    for the second term is listed for the first, and the second term lists
    no more entries than the first. *)
Theorem search_refinement_narrows (quotations : list Quotation) (t refined : string) :
  (exists a b, toLowerCase refined = a +:+ toLowerCase t +:+ b) ->
  filteredQuotations toLowerCase quotations refined
    ⊆ filteredQuotations toLowerCase quotations t
  /\ length (filteredQuotations toLowerCase quotations refined)
     <= length (filteredQuotations toLowerCase quotations t).
Proof.
  intros (a & b & E). split.
  - intros q. rewrite !elem_of_filteredQuotations. intros [Hin Hm].
    split; [exact Hin|]. rewrite E in Hm. eapply matchesSearch_infix, Hm.
  - unfold filteredQuotations.
    rewrite !(Permutation_length (Array_sort_perm compare_createdAt _)).
    apply filter_length_mono. intros q. rewrite E. apply matchesSearch_infix.
Qed.

Lemma status_counts_bounded (l : list Quotation) :
  length (List.filter (fun q => String.eqb (Quotation.status q) "Pending") l)
  + length (List.filter (fun q => String.eqb (Quotation.status q) "Accepted") l)
  <= length l.
Proof.
  induction l as [|q l IH]; simpl; [lia|].
  destruct (String.eqb_spec (Quotation.status q) "Pending") as [E|E].
  - rewrite E. simpl. lia.
  - destruct (String.eqb (Quotation.status q) "Accepted"); simpl; lia.
Qed.

Lemma filter_length_le {A} (p : A -> bool) (l : list A) :
  length (List.filter p l) <= length l.
Proof.
  induction l as [|x l IH]; simpl; [lia|]. destruct (p x); simpl; lia.
Qed.

(** X12. The counters of the dashboard are bounded for every collection
    and search term: pending and accepted together never exceed total, and
    total never exceeds the number of quotations in the collection. *)
Theorem stats_counts_bounded (quotations : list Quotation) (searchTerm : string) :
  let st := snd (Dashboard toLowerCase quotations searchTerm) in
  Stats.pending st + Stats.accepted st <= Stats.total st
  /\ Stats.total st <= length quotations.
Proof.
  intros st. split.
  - apply status_counts_bounded.
  - unfold st, Dashboard, filteredQuotations. cbn.
    rewrite (Permutation_length (Array_sort_perm compare_createdAt _)).
    apply filter_length_le.
Qed.

Lemma fetched_dated (now : Z) (data : Quotation) :
  Props.valid_timestamp data -> Spec.dated (fetched now data).
Proof.
  unfold Props.valid_timestamp, Spec.dated, Spec.created, fetched. cbn.
  intros H. destruct (Quotation.createdAt data) as [d|]; cbn.
  - apply H. reflexivity.
  - eexists. reflexivity.
Qed.

(** X13. What the listener hands to the dashboard is always listed newest
    first. Stored [createdAt] values being Firestore timestamps, every
    quotation set by the listener's callback has a valid creation date, a
    document without one being dated at the snapshot, and for every search
    term the dashboard's list is sorted by it in descending order. *)
Theorem snapshot_listed_newest_first (now : Z) (docs : list Quotation)
    (searchTerm : string) :
  Forall Props.valid_timestamp docs ->
  let fq := filteredQuotations toLowerCase (fetchedQuotations now docs) searchTerm in
  Forall Spec.dated (fetchedQuotations now docs)
  /\ Forall Spec.dated fq
  /\ StronglySorted Spec.newer_or_equal fq.
Proof.
  intros Hv fq.
  assert (Hd : Forall Spec.dated (fetchedQuotations now docs)).
  { unfold fetchedQuotations. apply Forall_forall. intros q Hq.
    apply list_elem_of_fmap in Hq as (d & -> & Hd).
    apply fetched_dated. rewrite Forall_forall in Hv. apply Hv, Hd. }
  assert (Hk : Forall Spec.dated
                 (List.filter (matchesSearch toLowerCase (toLowerCase searchTerm))
                    (fetchedQuotations now docs))).
  { apply Forall_filter_keep, Hd. }
  split; [exact Hd|]. split.
  - unfold fq, filteredQuotations. rewrite Array_sort_perm. exact Hk.
  - apply Array_sort_sorted, Hk.
Qed.

(** X14. [handleDeleteQuotation] removes the document with the given id
    and no other; when the application is not ready or the deletion is
    rejected it changes nothing; it never touches the quotation in the editor;
    and deleting again changes nothing more. *)
Theorem delete_removes_that_document (deleteDoc_ok : bool) (quotationId : string)
    (st : AppState) :
  let st' := handleDeleteQuotation deleteDoc_ok quotationId st in
  documents st'
  = (if ready st && deleteDoc_ok then delete quotationId (documents st)
     else documents st)
  /\ (forall k, k <> quotationId -> documents st' !! k = documents st !! k)
  /\ (documents st' !! quotationId = None
      <-> (ready st && deleteDoc_ok = true) \/ documents st !! quotationId = None)
  /\ ready st' = ready st
  /\ currentQuotation st' = currentQuotation st
  /\ handleDeleteQuotation deleteDoc_ok quotationId st' = st'.
Proof.
  intros st'. unfold st', handleDeleteQuotation.
  destruct st as [r docs cur]. destruct r, deleteDoc_ok; cbn.
  - split; [reflexivity|]. split.
    { intros k Hk. apply lookup_delete_ne. congruence. }
    split.
    { rewrite lookup_delete_eq. split; auto. }
    split; [reflexivity|]. split; [reflexivity|].
    rewrite delete_delete_eq. reflexivity.
  - repeat split; auto. intros [H|H]; [discriminate | exact H].
  - repeat split; auto. intros [H|H]; [discriminate | exact H].
  - repeat split; auto. intros [H|H]; [discriminate | exact H].
Qed.

(** X15. A confirmed click on the editor's delete button always ends on the
    dashboard with no quotation in the editor, also when the deletion did
    not happen (the application not ready, or the deletion rejected), in
    which case every document, the one shown included, is still stored; a
    click that is not confirmed changes nothing. *)
Theorem delete_click_closes_editor (confirmed deleteDoc_ok : bool)
    (quotation : Quotation) (ui : View * AppState) :
  let ui' := delete_click confirmed deleteDoc_ok quotation ui in
  (confirmed = true ->
   fst ui' = View_dashboard /\ currentQuotation (snd ui') = None)
  /\ (confirmed = true -> ready (snd ui) && deleteDoc_ok = false ->
      documents (snd ui') = documents (snd ui))
  /\ (confirmed = true -> ready (snd ui) && deleteDoc_ok = true ->
      documents (snd ui') = delete (Quotation.id quotation) (documents (snd ui)))
  /\ (confirmed = false -> ui' = ui).
Proof.
  intros ui'. unfold ui', delete_click, handleBackToDashboard, handleDeleteQuotation.
  destruct ui as [v [r docs cur]]. cbn.
  destruct confirmed, r, deleteDoc_ok; cbn; repeat split; auto; discriminate.
Qed.

End DashboardSessions.

(** A stored document without [createdAt] next to two dated ones. *)
Lemma snapshot_listed_newest_first_witness :
  map Quotation.clientName
    (filteredQuotations Sample.toLowerCase
       (fetchedQuotations 5000
          [ stored (Some "Asha") (Some "QT-2024-0001") "Draft" None None;
            stored (Some "Bala") (Some "QT-2024-0002") "Draft"
              (Some (mkDate (Some 2000%Z))) None;
            stored (Some "Chitra") (Some "QT-2024-0003") "Draft"
              (Some (mkDate (Some 7000%Z))) None ]) "")
  = [Some "Chitra"; Some "Asha"; Some "Bala"]
  /\ StronglySorted Spec.newer_or_equal
       (filteredQuotations Sample.toLowerCase
          (fetchedQuotations 5000
             [ stored (Some "Asha") (Some "QT-2024-0001") "Draft" None None;
               stored (Some "Bala") (Some "QT-2024-0002") "Draft"
                 (Some (mkDate (Some 2000%Z))) None;
               stored (Some "Chitra") (Some "QT-2024-0003") "Draft"
                 (Some (mkDate (Some 7000%Z))) None ]) "").
Proof.
  split; [reflexivity|].
  apply (snapshot_listed_newest_first Sample.toLowerCase 5000
           [ stored (Some "Asha") (Some "QT-2024-0001") "Draft" None None;
             stored (Some "Bala") (Some "QT-2024-0002") "Draft"
               (Some (mkDate (Some 2000%Z))) None;
             stored (Some "Chitra") (Some "QT-2024-0003") "Draft"
               (Some (mkDate (Some 7000%Z))) None ] "").
  apply List.Forall_cons; [intros d [=]|].
  apply List.Forall_cons; [intros d [= <-]; eexists; reflexivity|].
  apply List.Forall_cons; [intros d [= <-]; eexists; reflexivity|].
  apply List.Forall_nil.
Defined.

(** The entries listed for "QT-2024-0004" are listed for "qt-2024". *)
Lemma search_refinement_narrows_witness :
  filteredQuotations Sample.toLowerCase four_statuses "QT-2024-0004"
    ⊆ filteredQuotations Sample.toLowerCase four_statuses "qt-2024"
  /\ length (filteredQuotations Sample.toLowerCase four_statuses "QT-2024-0004")
     <= length (filteredQuotations Sample.toLowerCase four_statuses "qt-2024").
Proof.
  apply (search_refinement_narrows Sample.toLowerCase four_statuses
           "qt-2024" "QT-2024-0004").
  exists "", "-0004". reflexivity.
Defined.

(** ** The routes of the REST server *)

Section RestRoutes.
Import Server.

Lemma findIndex_none {A} (p : A -> bool) (l : list A) :
  Forall (fun x => p x = false) l -> findIndex p l = None.
Proof.
  induction 1 as [|x l Hx _ IH]; simpl; [reflexivity|]. rewrite Hx, IH. reflexivity.
Qed.

Lemma findIndex_first {A} (p : A -> bool) (l1 : list A) (x : A) (l2 : list A) :
  Forall (fun y => p y = false) l1 -> p x = true ->
  findIndex p (l1 ++ x :: l2) = Some (length l1).
Proof.
  intros H Hx. induction H as [|y l1 Hy _ IH]; simpl.
  - rewrite Hx. reflexivity.
  - rewrite Hy, IH. reflexivity.
Qed.

Lemma find_none {A} (p : A -> bool) (l : list A) :
  Forall (fun x => p x = false) l -> List.find p l = None.
Proof.
  induction 1 as [|x l Hx _ IH]; simpl; [reflexivity|]. rewrite Hx. exact IH.
Qed.

Lemma find_first {A} (p : A -> bool) (l1 : list A) (x : A) (l2 : list A) :
  Forall (fun y => p y = false) l1 -> p x = true ->
  List.find p (l1 ++ x :: l2) = Some x.
Proof.
  intros H Hx. induction H as [|y l1 Hy _ IH]; simpl.
  - rewrite Hx. reflexivity.
  - rewrite Hy. exact IH.
Qed.

Lemma find_split {A} (p : A -> bool) (l : list A) (x : A) :
  List.find p l = Some x ->
  exists l1 l2, l = l1 ++ x :: l2 /\ Forall (fun y => p y = false) l1 /\ p x = true.
Proof.
  induction l as [|y l IH]; simpl; [discriminate|].
  destruct (p y) eqn:Hy.
  - intros [= ->]. exists [], l. repeat split; [constructor | exact Hy].
  - intros H. destruct (IH H) as (l1 & l2 & -> & Hl1 & Hx).
    exists (y :: l1), l2. repeat split; [constructor; assumption | exact Hx].
Qed.

Lemma find_none_split {A} (p : A -> bool) (l : list A) :
  List.find p l = None -> Forall (fun y => p y = false) l.
Proof.
  induction l as [|y l IH]; simpl; [constructor|].
  destruct (p y) eqn:Hy; [discriminate|]. intros H. constructor; auto.
Qed.

Lemma insert_at_length {A} (l1 : list A) (x y : A) (l2 : list A) :
  <[length l1 := y]> (l1 ++ x :: l2) = l1 ++ y :: l2.
Proof. induction l1 as [|z l1 IH]; simpl; [reflexivity | f_equal; exact IH]. Qed.

Lemma lookup_at_length {A} (l1 : list A) (x : A) (l2 : list A) :
  (l1 ++ x :: l2) !! length l1 = Some x.
Proof. induction l1 as [|z l1 IH]; simpl; [reflexivity | exact IH]. Qed.

(** The record that a PUT writes. *)
Lemma update_at (id now : string) (payload : gmap string json) (file : File)
    (l1 : list (gmap string json)) (old : gmap string json)
    (l2 : list (gmap string json)) :
  readDB file = l1 ++ old :: l2 ->
  Forall (fun item => has_id id item = false) l1 -> has_id id old = true ->
  update id now payload file
  = (ok (JObject (<["updated_at" := JString now]> (payload ∪ old))),
     Some (l1 ++ <["updated_at" := JString now]> (payload ∪ old) :: l2)).
Proof.
  intros E H1 Hold. unfold update. rewrite E.
  rewrite (findIndex_first _ _ _ _ H1 Hold), lookup_at_length, insert_at_length.
  reflexivity.
Qed.

Lemma has_id_updated (id' now : string) (payload old : gmap string json) :
  has_id id' (<["updated_at" := JString now]> (payload ∪ old))
  = match payload !! "id" with
    | Some v => has_id id' {[ "id" := v ]}
    | None => has_id id' old
    end.
Proof.
  unfold has_id. rewrite lookup_insert_ne by discriminate.
  destruct (payload !! "id") as [v|] eqn:E.
  - rewrite (lookup_union_Some_l _ _ _ _ E), lookup_singleton_eq. reflexivity.
  - rewrite (lookup_union_r _ _ _ E). reflexivity.
Qed.

Lemma has_id_unique (id id' : string) (item : gmap string json) :
  has_id id item = true -> id <> id' -> has_id id' item = false.
Proof.
  unfold has_id. destruct (item !! "id") as [[| | |s| |]|]; try discriminate.
  intros H Hne. apply String.eqb_eq in H. subst s.
  apply String.eqb_neq. exact Hne.
Qed.

Lemma update_no_match (id now : string) (payload : gmap string json)
    (file : File) :
  Forall (fun item => has_id id item = false) (readDB file) ->
  update id now payload file = (not_found, file).
Proof.
  intros H. unfold update. rewrite (findIndex_none _ _ H). reflexivity.
Qed.

(** X16. A PUT on an id that no record has answers 404 and leaves the
    collection file as it is, whatever the body. *)
Theorem update_unknown_id (id now : string) (payload : gmap string json)
    (file : File) :
  Forall (fun item => has_id id item = false) (readDB file) ->
  update id now payload file = (not_found, file)
  /\ fst (get_one id (snd (update id now payload file))) = not_found.
Proof.
  intros H. rewrite (update_no_match id now payload file H). split; [reflexivity|].
  unfold get_one. cbn [snd]. rewrite (find_none _ _ H). reflexivity.
Qed.

(** X17. A PUT replaces the first record that has the id, in place, by the
    merge of that record and the body, and answers with the merged record;
    the records before and after it, later records with the same id
    included, stay as they are. In the merged record [updated_at] is the
    server's time even when the body names one, every other property of the
    body has the body's value, and a property the body lacks keeps the
    stored value. *)
Theorem update_first_match (id now : string) (payload : gmap string json)
    (l1 : list (gmap string json)) (old : gmap string json)
    (l2 : list (gmap string json)) :
  Forall (fun item => has_id id item = false) l1 ->
  has_id id old = true ->
  exists updated : gmap string json,
    update id now payload (Some (l1 ++ old :: l2))
    = (ok (JObject updated), Some (l1 ++ updated :: l2))
    /\ updated !! "updated_at" = Some (JString now)
    /\ (forall k v, k <> "updated_at" -> payload !! k = Some v ->
                    updated !! k = Some v)
    /\ (forall k, k <> "updated_at" -> payload !! k = None ->
                  updated !! k = old !! k).
Proof.
  intros H1 Hold. eexists. split; [apply (update_at id now payload _ l1 old l2);
                                    [reflexivity | exact H1 | exact Hold]|].
  split; [apply lookup_insert_eq|]. split.
  - intros k v Hk Hv. rewrite lookup_insert_ne by congruence.
    apply lookup_union_Some_l, Hv.
  - intros k Hk Hv. rewrite lookup_insert_ne by congruence.
    apply lookup_union_r, Hv.
Qed.

(** X18. After a PUT that finds its record and whose body names no id, a
    GET of the same id returns exactly the record the PUT answered with. *)
Theorem update_then_get (id now : string) (payload : gmap string json)
    (file : File) (old : gmap string json) :
  List.find (has_id id) (readDB file) = Some old ->
  payload !! "id" = None ->
  status (fst (update id now payload file)) = 200
  /\ body (fst (get_one id (snd (update id now payload file))))
     = body (fst (update id now payload file))
  /\ fst (get_one id (snd (update id now payload file)))
     = fst (update id now payload file).
Proof.
  intros Hfind Hid.
  destruct (find_split _ _ _ Hfind) as (l1 & l2 & E & H1 & Hold).
  rewrite (update_at id now payload file l1 old l2 E H1 Hold). cbn [fst snd].
  assert (G : get_one id
                (Some (l1 ++ <["updated_at" := JString now]> (payload ∪ old) :: l2))
              = (ok (JObject (<["updated_at" := JString now]> (payload ∪ old))),
                 Some (l1 ++ <["updated_at" := JString now]> (payload ∪ old) :: l2))).
  { unfold get_one. cbn [readDB]. rewrite find_first; [reflexivity | exact H1 |].
    rewrite has_id_updated, Hid. exact Hold. }
  rewrite G. repeat split.
Qed.

(** X19. A PUT whose body names another id moves the record to that id:
    when no other record has the route's id, a GET of the route's id answers
    404 afterwards, and the record now answers to the body's id. *)
Theorem update_moves_record (id id' now : string) (payload : gmap string json)
    (l1 : list (gmap string json)) (old : gmap string json)
    (l2 : list (gmap string json)) :
  Forall (fun item => has_id id item = false) l1 ->
  has_id id old = true ->
  Forall (fun item => has_id id item = false) l2 ->
  payload !! "id" = Some (JString id') ->
  id' <> id ->
  let file' := snd (update id now payload (Some (l1 ++ old :: l2))) in
  fst (get_one id file') = not_found
  /\ exists moved, moved ∈ readDB file' /\ has_id id' moved = true
                   /\ length (readDB file') = length l1 + S (length l2).
Proof.
  intros H1 Hold H2 Hid Hne file'. unfold file'.
  rewrite (update_at id now payload (Some (l1 ++ old :: l2)) l1 old l2
             eq_refl H1 Hold).
  cbn [snd readDB].
  assert (Hmoved : forall i,
            has_id i (<["updated_at" := JString now]> (payload ∪ old))
            = String.eqb id' i).
  { intros i. rewrite has_id_updated, Hid. unfold has_id.
    rewrite lookup_singleton_eq. reflexivity. }
  split.
  - unfold get_one. cbn [readDB]. rewrite find_none; [reflexivity|].
    apply Forall_app. split; [exact H1|]. constructor; [|exact H2].
    rewrite Hmoved. apply String.eqb_neq. exact Hne.
  - eexists. split; [|split].
    + apply elem_of_app. right. apply list_elem_of_here.
    + rewrite Hmoved. apply String.eqb_refl.
    + rewrite length_app. reflexivity.
Qed.

Lemma has_id_created (i uuid created updated : string) (payload : gmap string json) :
  has_id i (payload ∪ {[ "id" := JString uuid; "created_at" := JString created;
                         "updated_at" := JString updated ]})
  = match payload !! "id" with
    | Some v => has_id i {[ "id" := v ]}
    | None => String.eqb uuid i
    end.
Proof.
  unfold has_id. destruct (payload !! "id") as [v|] eqn:E.
  - rewrite (lookup_union_Some_l _ _ _ _ E), lookup_singleton_eq. reflexivity.
  - rewrite (lookup_union_r _ _ _ E). by simplify_map_eq.
Qed.

(** X20. After a POST whose body names no id, a GET of the generated id
    returns exactly the created record, provided no stored record already
    has that id. *)
Theorem create_then_get (uuid created updated : string)
    (payload : gmap string json) (file : File) :
  payload !! "id" = None ->
  Forall (fun item => has_id uuid item = false) (readDB file) ->
  body (fst (get_one uuid (snd (create uuid created updated payload file))))
  = body (fst (create uuid created updated payload file))
  /\ status (fst (get_one uuid (snd (create uuid created updated payload file))))
     = 200.
Proof.
  intros Hid Hfresh. unfold create. cbn [fst snd]. unfold get_one, writeDB.
  cbn [readDB]. rewrite find_first; [split; reflexivity | exact Hfresh |].
  rewrite has_id_created, Hid. apply String.eqb_refl.
Qed.

Lemma filter_app_last {A} (p : A -> bool) (l : list A) (x : A) :
  List.filter p (l ++ [x]) = List.filter p l ++ (if p x then [x] else []).
Proof. rewrite List.filter_app. reflexivity. Qed.

(** X21. A POST whose body names the id of a stored record adds a second
    record with that id. A GET of the id still returns the older record, not
    the created one, and a DELETE of the id removes both. *)
Theorem create_shadowed (id uuid created updated : string)
    (payload : gmap string json) (file : File) (old : gmap string json) :
  payload !! "id" = Some (JString id) ->
  List.find (has_id id) (readDB file) = Some old ->
  let file' := snd (create uuid created updated payload file) in
  fst (get_one id file') = ok (JObject old)
  /\ length (List.filter (has_id id) (readDB file'))
     = S (length (List.filter (has_id id) (readDB file)))
  /\ readDB (snd (delete id file'))
     = List.filter (fun item => negb (has_id id item)) (readDB file).
Proof.
  intros Hid Hfind file'. unfold file', create. cbn [snd]. unfold writeDB.
  assert (Hnew : has_id id
                   (payload ∪ {[ "id" := JString uuid; "created_at" := JString created;
                                 "updated_at" := JString updated ]}) = true).
  { rewrite has_id_created, Hid. unfold has_id. rewrite lookup_singleton_eq.
    apply String.eqb_refl. }
  split; [|split].
  - destruct (find_split _ _ _ Hfind) as (l1 & l2 & E & H1 & Hold).
    unfold get_one. cbn [readDB]. rewrite E, <- app_assoc. cbn [app].
    rewrite find_first; [reflexivity | exact H1 | exact Hold].
  - cbn [readDB]. rewrite filter_app_last, Hnew, length_app. cbn. lia.
  - unfold delete. cbn [snd readDB]. unfold writeDB. cbn [readDB].
    rewrite filter_app_last, Hnew. cbn. apply app_nil_r.
Qed.

(** X22. Creating a record and deleting it by the generated id gives the
    collection back, provided the body names no id and no stored record has
    the generated id. *)
Theorem create_then_delete (uuid created updated : string)
    (payload : gmap string json) (file : File) :
  payload !! "id" = None ->
  Forall (fun item => has_id uuid item = false) (readDB file) ->
  readDB (snd (delete uuid (snd (create uuid created updated payload file))))
  = readDB file.
Proof.
  intros Hid Hfresh. unfold create, delete, writeDB. cbn [snd readDB].
  rewrite filter_app_last, has_id_created, Hid, String.eqb_refl. cbn.
  rewrite app_nil_r. apply filter_none_out.
  eapply Forall_impl; [exact Hfresh|]. intros item ->. reflexivity.
Qed.

Lemma find_filter_other {A} (p q : A -> bool) (l : list A) :
  (forall x, p x = true -> q x = true) ->
  List.find p (List.filter q l) = List.find p l.
Proof.
  intros H. induction l as [|x l IH]; simpl; [reflexivity|].
  destruct (q x) eqn:Hq; simpl.
  - destruct (p x); [reflexivity | exact IH].
  - destruct (p x) eqn:Hp; [|exact IH]. rewrite (H x Hp) in Hq. discriminate.
Qed.

Lemma find_replace_other {A} (p : A -> bool) (l1 : list A) (x y : A) (l2 : list A) :
  p x = false -> p y = false ->
  List.find p (l1 ++ y :: l2) = List.find p (l1 ++ x :: l2).
Proof.
  intros Hx Hy. induction l1 as [|z l1 IH]; simpl.
  - rewrite Hx, Hy. reflexivity.
  - destruct (p z); [reflexivity | exact IH].
Qed.

(** X23. A DELETE, and a PUT whose body names no id, leave every other id
    as it was: a GET of another id answers the same before and after. *)
Theorem other_ids_untouched (id id' now : string) (payload : gmap string json)
    (file : File) :
  id <> id' ->
  payload !! "id" = None ->
  fst (get_one id' (snd (delete id file))) = fst (get_one id' file)
  /\ fst (get_one id' (snd (update id now payload file))) = fst (get_one id' file).
Proof.
  intros Hne Hid. split.
  - unfold delete, get_one, writeDB. cbn [snd readDB].
    rewrite find_filter_other; [destruct (List.find (has_id id') _); reflexivity|].
    intros item Hitem. apply negb_true_iff.
    apply (has_id_unique id' id); [exact Hitem | congruence].
  - destruct (List.find (has_id id) (readDB file)) as [old|] eqn:Hfind.
    + destruct (find_split _ _ _ Hfind) as (l1 & l2 & E & H1 & Hold).
      rewrite (update_at id now payload file l1 old l2 E H1 Hold).
      unfold get_one. cbn [snd readDB]. rewrite E.
      rewrite (find_replace_other (has_id id') l1 old);
        [destruct (List.find (has_id id') _); reflexivity| |].
      * apply (has_id_unique id id'); assumption.
      * rewrite has_id_updated, Hid. apply (has_id_unique id id'); assumption.
    + rewrite update_no_match; [reflexivity|]. apply find_none_split, Hfind.
Qed.

Lemma record_id_has_id (id : string) (item : gmap string json) :
  has_id id item = true <-> Props.record_id item = Some id.
Proof.
  unfold has_id, Props.record_id.
  destruct (item !! "id") as [[| | |s| |]|]; try (split; discriminate).
  rewrite String.eqb_eq. split; [intros ->; reflexivity | intros [= ->]; reflexivity].
Qed.

Lemma ids_filter_NoDup (p : gmap string json -> bool) (db : list (gmap string json)) :
  NoDup (Props.ids db) -> NoDup (Props.ids (List.filter p db)).
Proof.
  unfold Props.ids. induction db as [|x db IH]; [intros _; constructor|].
  cbn [omap list_omap List.filter].
  destruct (p x); cbn [omap list_omap]; destruct (Props.record_id x) as [i|].
  - rewrite !NoDup_cons. intros [Hnotin Hnd]. split; [|auto].
    intros Hin. apply Hnotin.
    apply list_elem_of_omap in Hin as (y & Hy & Hi).
    apply list_elem_of_omap. exists y. split; [|exact Hi].
    apply list_elem_of_In. apply list_elem_of_In in Hy.
    apply filter_In in Hy. tauto.
  - exact IH.
  - rewrite NoDup_cons. intros [_ Hnd]. auto.
  - exact IH.
Qed.

(** X24. As long as requests leave the naming of records to the server (a
    POST or PUT body carries no id, and the id generated for a POST is not
    in use), every request keeps the ids of the stored records pairwise
    distinct. *)
Theorem handle_keeps_ids_distinct (r : Request) (file : File) :
  NoDup (Props.ids (readDB file)) ->
  Props.respects_ids r (readDB file) ->
  NoDup (Props.ids (readDB (snd (handle r file)))).
Proof.
  intros Hnd Hr. destruct r as [|id|uuid created updated payload|id now payload|id];
    cbn [handle].
  - exact Hnd.
  - unfold get_one. destruct (List.find _ _); exact Hnd.
  - destruct Hr as [Hid Hfresh]. unfold create, writeDB. cbn [snd readDB].
    unfold Props.ids. rewrite omap_app. cbn [omap list_omap].
    assert (Hnew : Props.record_id
                     (payload ∪ {[ "id" := JString uuid; "created_at" := JString created;
                                   "updated_at" := JString updated ]}) = Some uuid).
    { apply record_id_has_id. rewrite has_id_created, Hid. apply String.eqb_refl. }
    rewrite Hnew. apply NoDup_app. split; [exact Hnd|]. split.
    + intros x Hx Hx'. apply list_elem_of_singleton in Hx'. subst x. auto.
    + apply NoDup_singleton.
  - cbn in Hr.
    destruct (List.find (has_id id) (readDB file)) as [old|] eqn:Hfind.
    + destruct (find_split _ _ _ Hfind) as (l1 & l2 & E & H1 & Hold).
      rewrite (update_at id now payload file l1 old l2 E H1 Hold).
      cbn [snd readDB]. rewrite E in Hnd. unfold Props.ids in *.
      rewrite omap_app in *. cbn [omap list_omap] in *.
      assert (Hsame : Props.record_id (<["updated_at" := JString now]> (payload ∪ old))
                      = Props.record_id old).
      { unfold Props.record_id. rewrite lookup_insert_ne by discriminate.
        rewrite (lookup_union_r _ _ _ Hr). reflexivity. }
      rewrite Hsame. exact Hnd.
    + rewrite update_no_match; [exact Hnd|]. apply find_none_split, Hfind.
  - unfold delete, writeDB. cbn [snd readDB]. apply ids_filter_NoDup, Hnd.
Qed.

(** X25. A request that is answered 404 has changed nothing: the
    collection file is the one the request found. *)
Theorem not_found_changes_nothing (r : Request) (file : File) :
  status (fst (handle r file)) = 404 ->
  snd (handle r file) = file.
Proof.
  destruct r as [|id|uuid created updated payload|id now payload|id]; cbn [handle].
  - reflexivity.
  - unfold get_one. destruct (List.find _ _); reflexivity.
  - cbn. discriminate.
  - unfold update. destruct (findIndex _ _) as [idx|]; [|reflexivity].
    destruct (readDB file !! idx); [cbn; discriminate | reflexivity].
  - cbn. discriminate.
Qed.

End RestRoutes.

(** A PUT on an unknown id. *)
Lemma update_unknown_id_witness :
  Server.update "zzz" "t3" ServerExamples.plain_body ServerExamples.two_records
  = (Server.not_found, ServerExamples.two_records)
  /\ fst (Server.get_one "zzz"
            (snd (Server.update "zzz" "t3" ServerExamples.plain_body
                    ServerExamples.two_records)))
     = Server.not_found.
Proof.
  apply (update_unknown_id "zzz" "t3" ServerExamples.plain_body
           ServerExamples.two_records).
  repeat (apply List.Forall_cons; [reflexivity|]). apply List.Forall_nil.
Defined.

(** A PUT on the second record renames its client and stamps it. *)
Lemma update_first_match_witness :
  exists updated : gmap string Server.json,
    Server.update "b" "t3" ServerExamples.plain_body ServerExamples.two_records
    = (Server.ok (Server.JObject updated), Some [ServerExamples.first; updated])
    /\ updated !! "updated_at" = Some (Server.JString "t3")
    /\ updated !! "clientName" = Some (Server.JString "Deepa")
    /\ updated !! "id" = Some (Server.JString "b").
Proof.
  destruct (update_first_match "b" "t3" ServerExamples.plain_body
              [ServerExamples.first] ServerExamples.second [])
    as (updated & Hu & Hat & Hbody & Hkept).
  - apply List.Forall_cons; [reflexivity | apply List.Forall_nil].
  - reflexivity.
  - exists updated. split; [exact Hu|]. split; [exact Hat|]. split.
    + apply Hbody; [discriminate | reflexivity].
    + rewrite Hkept; [reflexivity | discriminate | reflexivity].
Defined.

(** The record answered by a PUT on "b" is the record a GET of "b" returns. *)
Lemma update_then_get_witness :
  Server.status
    (fst (Server.update "b" "t3" ServerExamples.plain_body ServerExamples.two_records))
  = 200
  /\ Server.body
       (fst (Server.get_one "b"
               (snd (Server.update "b" "t3" ServerExamples.plain_body
                       ServerExamples.two_records))))
     = Server.body
         (fst (Server.update "b" "t3" ServerExamples.plain_body
                 ServerExamples.two_records))
  /\ fst (Server.get_one "b"
            (snd (Server.update "b" "t3" ServerExamples.plain_body
                    ServerExamples.two_records)))
     = fst (Server.update "b" "t3" ServerExamples.plain_body
              ServerExamples.two_records).
Proof.
  apply (update_then_get "b" "t3" ServerExamples.plain_body
           ServerExamples.two_records ServerExamples.second);
    reflexivity.
Defined.

(** A PUT on "a" with a body that names "chosen": "a" is gone. *)
Lemma update_moves_record_witness :
  fst (Server.get_one "a"
         (snd (Server.update "a" "t3" ServerExamples.body_with_id
                 ServerExamples.two_records)))
  = Server.not_found
  /\ exists moved,
       moved ∈ Server.readDB
                 (snd (Server.update "a" "t3" ServerExamples.body_with_id
                         ServerExamples.two_records))
       /\ Server.has_id "chosen" moved = true
       /\ length (Server.readDB
                    (snd (Server.update "a" "t3" ServerExamples.body_with_id
                            ServerExamples.two_records)))
          = 2.
Proof.
  apply (update_moves_record "a" "chosen" "t3" ServerExamples.body_with_id
           [] ServerExamples.first [ServerExamples.second]).
  - apply List.Forall_nil.
  - reflexivity.
  - apply List.Forall_cons; [reflexivity | apply List.Forall_nil].
  - reflexivity.
  - discriminate.
Defined.

(** The record created from a plain body is found under the generated id. *)
Lemma create_then_get_witness :
  Server.body
    (fst (Server.get_one "generated"
            (snd (Server.create "generated" "t1" "t2" ServerExamples.plain_body
                    ServerExamples.two_records))))
  = Server.body
      (fst (Server.create "generated" "t1" "t2" ServerExamples.plain_body
              ServerExamples.two_records))
  /\ Server.status
       (fst (Server.get_one "generated"
               (snd (Server.create "generated" "t1" "t2" ServerExamples.plain_body
                       ServerExamples.two_records))))
     = 200.
Proof.
  apply (create_then_get "generated" "t1" "t2" ServerExamples.plain_body
           ServerExamples.two_records).
  - reflexivity.
  - repeat (apply List.Forall_cons; [reflexivity|]). apply List.Forall_nil.
Defined.

(** A POST whose body names "a": the stored "a" still answers, and a
    DELETE of "a" leaves only "b". *)
Lemma create_shadowed_witness :
  fst (Server.get_one "a"
         (snd (Server.create "generated" "t1" "t2" ServerExamples.body_naming_a
                 ServerExamples.two_records)))
  = Server.ok (Server.JObject ServerExamples.first)
  /\ length (List.filter (Server.has_id "a")
               (Server.readDB
                  (snd (Server.create "generated" "t1" "t2"
                          ServerExamples.body_naming_a ServerExamples.two_records))))
     = S (length (List.filter (Server.has_id "a")
                    (Server.readDB ServerExamples.two_records)))
  /\ Server.readDB
       (snd (Server.delete "a"
               (snd (Server.create "generated" "t1" "t2"
                       ServerExamples.body_naming_a ServerExamples.two_records))))
     = List.filter (fun item => negb (Server.has_id "a" item))
         (Server.readDB ServerExamples.two_records).
Proof.
  apply (create_shadowed "a" "generated" "t1" "t2" ServerExamples.body_naming_a
           ServerExamples.two_records ServerExamples.first);
    reflexivity.
Defined.

(** Creating a record and deleting it again leaves the two records. *)
Lemma create_then_delete_witness :
  Server.readDB
    (snd (Server.delete "generated"
            (snd (Server.create "generated" "t1" "t2" ServerExamples.plain_body
                    ServerExamples.two_records))))
  = Server.readDB ServerExamples.two_records.
Proof.
  apply (create_then_delete "generated" "t1" "t2" ServerExamples.plain_body
           ServerExamples.two_records).
  - reflexivity.
  - repeat (apply List.Forall_cons; [reflexivity|]). apply List.Forall_nil.
Defined.

(** Deleting or updating "a" leaves the answer for "b" as it was. *)
Lemma other_ids_untouched_witness :
  fst (Server.get_one "b" (snd (Server.delete "a" ServerExamples.two_records)))
  = fst (Server.get_one "b" ServerExamples.two_records)
  /\ fst (Server.get_one "b"
            (snd (Server.update "a" "t3" ServerExamples.plain_body
                    ServerExamples.two_records)))
     = fst (Server.get_one "b" ServerExamples.two_records).
Proof.
  apply (other_ids_untouched "a" "b" "t3" ServerExamples.plain_body
           ServerExamples.two_records).
  - discriminate.
  - reflexivity.
Defined.

Lemma two_records_ids : Props.ids (Server.readDB ServerExamples.two_records) = ["a"; "b"].
Proof. reflexivity. Defined.

(** A POST with a plain body keeps the ids of the two records and the new
    one distinct. *)
Lemma handle_keeps_ids_distinct_witness :
  NoDup (Props.ids
           (Server.readDB
              (snd (Server.handle
                      (Server.POST "generated" "t1" "t2" ServerExamples.plain_body)
                      ServerExamples.two_records)))).
Proof.
  apply (handle_keeps_ids_distinct
           (Server.POST "generated" "t1" "t2" ServerExamples.plain_body)
           ServerExamples.two_records).
  - rewrite two_records_ids.
    apply NoDup_cons. split; [|apply NoDup_singleton].
    apply not_elem_of_cons. split; [discriminate | apply not_elem_of_nil].
  - split; [reflexivity|]. rewrite two_records_ids.
    apply not_elem_of_cons. split; [discriminate|].
    apply not_elem_of_cons. split; [discriminate | apply not_elem_of_nil].
Defined.

(** A PUT on an unknown id is answered 404 and leaves the two records. *)
Lemma not_found_changes_nothing_witness :
  snd (Server.handle (Server.PUT "zzz" "t3" ServerExamples.plain_body)
         ServerExamples.two_records)
  = ServerExamples.two_records.
Proof.
  apply (not_found_changes_nothing
           (Server.PUT "zzz" "t3" ServerExamples.plain_body)
           ServerExamples.two_records).
  reflexivity.
Defined.

Section RestReads.
Import Server.

(** X26. A missing or unreadable collection file is served as the empty
    collection: every request is answered as it would be on an empty
    collection. The two GET routes and the PUT, which answers 404, do not
    create the file; a POST and a DELETE write it. *)
Theorem missing_file_as_empty (r : Request) :
  fst (handle r None) = fst (handle r (Some []))
  /\ readDB (snd (handle r None)) = readDB (snd (handle r (Some [])))
  /\ match r with
     | GET_all | GET_one _ | PUT _ _ _ => snd (handle r None) = None
     | POST _ _ _ _ | DELETE _ => is_Some (snd (handle r None))
     end.
Proof.
  destruct r; repeat split; eexists; reflexivity.
Qed.

(** X27. [GET /api/quotations/:id] never changes the file, and it answers
    either with the first stored record that has the id, or with 404 when no
    stored record has it. *)
Theorem get_one_finds_first (id : string) (file : File) :
  snd (get_one id file) = file
  /\ ((exists l1 q l2,
         readDB file = l1 ++ q :: l2
         /\ Forall (fun item => has_id id item = false) l1
         /\ has_id id q = true
         /\ fst (get_one id file) = ok (JObject q))
      \/ (Forall (fun item => has_id id item = false) (readDB file)
          /\ fst (get_one id file) = not_found)).
Proof.
  unfold get_one. destruct (List.find (has_id id) (readDB file)) as [q|] eqn:E.
  - split; [reflexivity|]. left.
    destruct (find_split _ _ _ E) as (l1 & l2 & El & H1 & Hq).
    exists l1, q, l2. auto.
  - split; [reflexivity|]. right. split; [|reflexivity].
    apply find_none_split, E.
Qed.

End RestReads.

(** ** The header inputs, the new quotation and the views *)

Section AppFrames.
Context (uuid : nat -> string) (toLocaleDateString : Z -> string)
  (getFullYear : Z -> N) (parseFloat : string -> float).

(** X28. As long as the editor view holds a quotation it keeps holding
    one: opening a quotation, going back, the delete button, a deletion and
    a save, in whatever phase and whether or not the write is acknowledged,
    never leave the editor view without a quotation to show. *)
Theorem editor_view_has_quotation (ui : View * AppState) :
  Props.editor_has_quotation ui ->
  (forall q, Props.editor_has_quotation (handleEditQuotation q ui))
  /\ Props.editor_has_quotation (handleBackToDashboard ui)
  /\ (forall confirmed ok q,
        Props.editor_has_quotation (delete_click confirmed ok q ui))
  /\ (forall ok id,
        Props.editor_has_quotation (fst ui, handleDeleteQuotation ok id (snd ui)))
  /\ (forall phase ok now q,
        Props.editor_has_quotation
          (fst ui, handleSaveQuotation toLocaleDateString phase ok now q (snd ui))).
Proof.
  unfold Props.editor_has_quotation. intros Hinv.
  split; [|split; [|split; [|split]]].
  - intros q _. eexists. reflexivity.
  - discriminate.
  - intros confirmed ok q. unfold delete_click.
    destruct confirmed; [discriminate | exact Hinv].
  - intros ok id Hv. specialize (Hinv Hv). cbn [snd]. unfold handleDeleteQuotation.
    destruct (negb (ready (snd ui))); [exact Hinv|]. destruct ok; exact Hinv.
  - intros phase ok now q Hv. specialize (Hinv Hv). cbn [snd].
    unfold handleSaveQuotation.
    destruct (negb (ready (snd ui))); [exact Hinv|].
    destruct phase; cbn; [|exact Hinv].
    destruct ok; [eexists; reflexivity | exact Hinv].
Qed.

(** X29. A change of a header input rewrites the property the input names
    and nothing else. A text input is stored as typed under the name of the
    input, whichever of the nine text properties that is and whatever the
    string (the status included); every other text property, both numbers
    and the derived totals stay as they were. A number input stores the
    parsed number, or 0 when the text does not parse or parses to zero, and
    leaves the other number and every text property as they were. In both
    cases the items, the id, the dates and the stored totals stay. *)
Theorem header_input_stores (e : InputEvent) (prev : Quotation) :
  let next := handleInputChange parseFloat e prev in
  Quotation.items next = Quotation.items prev
  /\ Quotation.id next = Quotation.id prev
  /\ Quotation.dateIssued next = Quotation.dateIssued prev
  /\ Quotation.createdAt next = Quotation.createdAt prev
  /\ Quotation.updatedAt next = Quotation.updatedAt prev
  /\ Quotation.subtotal next = Quotation.subtotal prev
  /\ Quotation.taxAmount next = Quotation.taxAmount prev
  /\ Quotation.grandTotal next = Quotation.grandTotal prev
  /\ match e with
     | TextInput name value =>
         Props.text_property name next = Some value
         /\ (forall other, other <> name ->
                Props.text_property other next = Props.text_property other prev)
         /\ Quotation.taxRate next = Quotation.taxRate prev
         /\ Quotation.discount next = Quotation.discount prev
         /\ useQuotationCalculations next = useQuotationCalculations prev
     | NumberInput name value =>
         let stored := match name with
                       | F_taxRate => Quotation.taxRate next
                       | F_discount => Quotation.discount next
                       end in
         let other := match name with
                      | F_taxRate => Quotation.discount
                      | F_discount => Quotation.taxRate
                      end in
         (truthy (parseFloat value) = true -> stored = parseFloat value)
         /\ (truthy (parseFloat value) = false -> stored = 0%float)
         /\ other next = other prev
         /\ (forall name', Props.text_property name' next
                           = Props.text_property name' prev)
     end.
Proof.
  intros next. unfold next.
  destruct e as [name value|name value]; cbn [handleInputChange].
  - repeat split; try (destruct name; reflexivity).
    intros other Hne. destruct name, other; try reflexivity; congruence.
  - repeat split; try (destruct name; reflexivity).
    + intros Ht. destruct name; cbn; unfold or_zero; rewrite Ht; reflexivity.
    + intros Ht. destruct name; cbn; unfold or_zero; rewrite Ht; reflexivity.
Qed.

(** X30. The quotation made by [getNewQuotation] is consistent: its derived
    totals are all 0 and equal the subtotal and grand total it stores; it is
    a draft valid for 30 days from now; and it takes two draws of the id
    generator, the first for the quotation and the second for its single
    line item. *)
Theorem new_quotation_consistent (now : Z) (count : whole) (n : nat) :
  let q := fst (getNewQuotation uuid toLocaleDateString getFullYear now count n) in
  useQuotationCalculations q
  = {| Totals.subtotal := 0; Totals.taxAmount := 0; Totals.grandTotal := 0 |}
  /\ Quotation.subtotal q = Some (Totals.subtotal (useQuotationCalculations q))
  /\ Quotation.grandTotal q = Some (Totals.grandTotal (useQuotationCalculations q))
  /\ Quotation.status q = "Draft"
  /\ Quotation.dateIssued q = formatDate toLocaleDateString now
  /\ Quotation.validUntil q = formatDate toLocaleDateString (now + 2592000000)
  /\ Quotation.id q = uuid n
  /\ map LineItem.id (Quotation.items q) = [uuid (S n)]
  /\ snd (getNewQuotation uuid toLocaleDateString getFullYear now count n) = S (S n).
Proof.
  intros q.
  assert (E : useQuotationCalculations q
              = {| Totals.subtotal := 0; Totals.taxAmount := 0;
                   Totals.grandTotal := 0 |}).
  { unfold q, useQuotationCalculations. cbn [fst getNewQuotation]. vm_compute.
    reflexivity. }
  split; [exact E|]. rewrite E. repeat split.
Qed.

End AppFrames.

(** The new draft in the editor: it is still there after a deletion. *)
Lemma editor_view_has_quotation_witness :
  is_Some (currentQuotation (handleDeleteQuotation true "q" editing_new_draft)).
Proof.
  destruct (editor_view_has_quotation Sample.toLocaleDateString
              (View_editor, editing_new_draft))
    as (_ & _ & _ & H & _).
  - intros _. eexists. reflexivity.
  - exact (H true "q" eq_refl).
Defined.
